(** * GenAI-ResumeAnalyzer: the batch analysis orchestrator

    A shallow embedding of [models/resume_parser.py], [utils/file_processor.py],
    [utils/output_handler.py] and [config.py], and the properties of the batch
    run that the specification states about them.

    Conventions of the embedding.
    - A Python [str] is held as its UTF-8 encoding, a [string] of bytes.
      [strip] trims the white space of Unicode, [splitext] looks for the
      dot and the slash, which no other character holds in its encoding,
      and [lower] lowers the letters of ASCII: no other letter lowers to a
      letter of [.pdf] or [.docx].
    - Python [float]s are the rationals they denote; every float operation
      rounds its exact result to a 53-bit significand, ties to even
      (module [Float64]).  Exponent overflow and underflow are not modelled:
      the values computed here lie between 2^-63 and 2^63.  Part III checks
      the rounding against the binary64 numbers of the kernel.
    - A [dict] is a [gmap string json]: Python compares dicts by content,
      not by insertion order.
    - The collaborators the orchestrator calls (the text extractors, the
      Gemini client, the JSON decoder, the clock, the temporary-file store)
      are the fields of an environment [Env].  Each one but the decoder may
      answer differently at every call: it reads the trace of the effects
      performed so far.  The decoder returns a value, fails with
      [JSONDecodeError], or raises another exception, as [json.loads] does
      on a text nested too deep or on an integer of too many digits.
    - Exceptions are values of [exn]; only subclasses of [Exception] are
      modelled (no [KeyboardInterrupt], no task cancellation), and every
      uploaded file is an object with a name and a size.
    - The coroutines are run to their end.  No task of [process_batch] holds
      a suspension point that yields to the event loop, so a task runs
      without interruption once started; the order in which the loop starts
      the tasks of a chunk is a parameter of the run.

    Part I holds the definitions, Part II the properties, Part III examples
    that run the definitions on concrete files and model responses. *)

From Stdlib Require Import ZArith QArith Qpower Lia String Ascii DecimalString.
From Stdlib Require Import Floats.PrimFloat Floats.FloatOps Floats.SpecFloat.
From Stdlib Require Import Numbers.Cyclic.Int63.Uint63.
From stdpp Require Import gmap strings list fin_maps.

Set Warnings "-register-all".

(* ===================================================================== *)
(** * Part I: definitions *)
(* ===================================================================== *)

(** ** Python string primitives *)

Module Py.

(** The double quote and the line feed, which string literals here avoid. *)
Definition dq : string := String "034"%char EmptyString.
Definition nl : string := String "010"%char EmptyString.

(** [q s] is [s] between double quotes. *)
Definition q (s : string) : string := dq +:+ s +:+ dq.

(** [sep.join(parts)] *)
Fixpoint join (sep : string) (parts : list string) : string :=
  match parts with
  | [] => EmptyString
  | [p] => p
  | p :: rest => p +:+ sep +:+ join sep rest
  end.

(** The characters [str.isspace] holds for white space, each in its UTF-8
    encoding: U+0009 to U+000D, U+001C to U+0020, U+0085, U+00A0, U+1680,
    U+2000 to U+200A, U+2028, U+2029, U+202F, U+205F and U+3000. *)
Definition whitespace : list (list ascii) :=
  (λ bytes : list N, ascii_of_N <$> bytes) <$>
    [ [9]; [10]; [11]; [12]; [13]; [28]; [29]; [30]; [31]; [32];
      [194; 133]; [194; 160]; [225; 154; 128];
      [226; 128; 128]; [226; 128; 129]; [226; 128; 130]; [226; 128; 131];
      [226; 128; 132]; [226; 128; 133]; [226; 128; 134]; [226; 128; 135];
      [226; 128; 136]; [226; 128; 137]; [226; 128; 138];
      [226; 128; 168]; [226; 128; 169]; [226; 128; 175];
      [226; 129; 159]; [227; 128; 128] ]%N.

(** The number of bytes of the white space character [l] starts with, and
    of the one it ends with; 0 when there is none. *)
Definition leading_space (l : list ascii) : nat :=
  from_option length 0
    (List.find (λ ws, bool_decide (take (length ws) l = ws)) whitespace).

Definition trailing_space (l : list ascii) : nat :=
  from_option length 0
    (List.find (λ ws, bool_decide (drop (length l - length ws) l = ws)) whitespace).

(** The two loops of [str.strip]: over the white space at the start, and
    over the white space at the end.  [fuel] bounds the characters to
    skip. *)
Fixpoint lstrip_from (fuel : nat) (l : list ascii) : list ascii :=
  match fuel with
  | O => l
  | S fuel' =>
      match leading_space l with
      | O => l
      | k => lstrip_from fuel' (drop k l)
      end
  end.

Fixpoint rstrip_from (fuel : nat) (l : list ascii) : list ascii :=
  match fuel with
  | O => l
  | S fuel' =>
      match trailing_space l with
      | O => l
      | k => rstrip_from fuel' (take (length l - k) l)
      end
  end.

Definition lstrip (s : string) : string :=
  let l := list_ascii_of_string s in string_of_list_ascii (lstrip_from (length l) l).

Definition rstrip (s : string) : string :=
  let l := list_ascii_of_string s in string_of_list_ascii (rstrip_from (length l) l).

(** [s.strip()] *)
Definition strip (s : string) : string := lstrip (rstrip s).

(** A sequence of white space characters. *)
Definition spaces (s : string) : Prop :=
  ∃ chars, Forall (λ ws, ws ∈ whitespace) chars
           ∧ list_ascii_of_string s = concat chars.

Definition lower_char (c : ascii) : ascii :=
  let n := N_of_ascii c in
  if ((65 <=? n) && (n <=? 90))%N then ascii_of_N (n + 32) else c.

(** [s.lower()] *)
Fixpoint lower (s : string) : string :=
  match s with
  | EmptyString => EmptyString
  | String c s' => String (lower_char c) (lower s')
  end.

(** [s.rfind(c)]: the highest index of [c], or -1. *)
Fixpoint rfind_from (c : ascii) (l : list ascii) (i found : Z) : Z :=
  match l with
  | [] => found
  | x :: l' => rfind_from c l' (i + 1)%Z (if Ascii.eqb x c then i else found)
  end.

Definition rfind (c : ascii) (l : list ascii) : Z := rfind_from c l 0%Z (-1)%Z.

(** The [while] loop of [genericpath._splitext]: does a character other
    than the dot stand between the last separator and the last dot? *)
Fixpoint has_stem (l : list ascii) : bool :=
  match l with
  | [] => false
  | c :: l' => if Ascii.eqb c "." then has_stem l' else true
  end.

(** [os.path.splitext(p)] of [posixpath]. *)
Definition splitext (p : string) : string * string :=
  let l := list_ascii_of_string p in
  let sepIndex := rfind "/" l in
  let dotIndex := rfind "." l in
  if (sepIndex <? dotIndex)%Z
     && has_stem (take (Z.to_nat (dotIndex - (sepIndex + 1)))
                       (drop (Z.to_nat (sepIndex + 1)) l))
  then (string_of_list_ascii (take (Z.to_nat dotIndex) l),
        string_of_list_ascii (drop (Z.to_nat dotIndex) l))
  else (p, EmptyString).

(** [range(0, stop, step)] as a list; [None] is the [ValueError] of a zero
    step. *)
Definition range (stop step : Z) : option (list Z) :=
  if (step =? 0)%Z then None
  else if (step <? 0)%Z then Some []
  else Some ((λ k, Z.of_nat k * step)%Z <$> seq 0 (Z.to_nat ((stop + step - 1) / step))).

End Py.

(** ** Floats *)

Module Float64.

(** The integer nearest to [n / m], ties to even ([0 < m]). *)
Definition round_half_even (n m : Z) : Z :=
  let q := (n / m)%Z in
  let r := (n mod m)%Z in
  if (2 * r <? m)%Z then q
  else if (m <? 2 * r)%Z then (q + 1)%Z
  else if Z.even q then q else (q + 1)%Z.

Definition rneQ (x : Q) : Z := round_half_even (Qnum x) (Zpos (Qden x)).

(** [floor (log2 x)] for [0 < x]. *)
Definition ilog2 (x : Q) : Z :=
  let d := (Z.log2 (Qnum x) - Z.log2 (Zpos (Qden x)))%Z in
  if Qle_bool (2 ^ d) x then d else (d - 1)%Z.

(** Rounding of a positive rational to 53 significant bits. *)
Definition round_pos (x : Q) : Q :=
  let e := (ilog2 x - 52)%Z in
  (inject_Z (rneQ (x / 2 ^ e)) * 2 ^ e)%Q.

(** The float nearest to [x], in lowest terms. *)
Definition round64 (x : Q) : Q :=
  Qred match Qnum x with
       | Z0 => 0
       | Zpos _ => round_pos x
       | Zneg _ => - round_pos (- x)
       end.

(** [a / b] on two [int]s: the correctly rounded quotient. *)
Definition truediv (a b : Z) : Q := round64 (inject_Z a / inject_Z b).

(** [x * y] on floats. *)
Definition mul (x y : Q) : Q := round64 (x * y).

(** [round(x, 2)]: the float nearest to [x] rounded to two decimals. *)
Definition round2 (x : Q) : Q := round64 (inject_Z (rneQ (x * 100)) / 100).

(** [min(x, y)]: Python keeps the first argument unless the second is
    strictly smaller. *)
Definition min (x y : Q) : Q := if Qle_bool x y then x else y.

(** [x > y] *)
Definition gt (x y : Q) : bool := negb (Qle_bool x y).

End Float64.

(** The binary64 numbers of the kernel, against which the examples of
    Part III check [Float64]. *)
Module Binary64.

(** The rational a finite float denotes, in lowest terms. *)
Definition to_Q (f : float) : option Q :=
  match Prim2SF f with
  | S754_zero _ => Some 0%Q
  | S754_finite s m e => Some (Qred ((if s then -1 else 1) * inject_Z (Zpos m) * 2 ^ e))
  | _ => None
  end.

(** [float(z)] for [0 <= z < 2^53]. *)
Definition of_int (z : Z) : float := PrimFloat.of_uint63 (Uint63.of_Z z).

(** [a / b] and [a / b * 100] on two [int]s. *)
Definition truediv (a b : Z) : option Q := to_Q (PrimFloat.div (of_int a) (of_int b)).

Definition percent (a b : Z) : option Q :=
  to_Q (PrimFloat.mul (PrimFloat.div (of_int a) (of_int b)) (of_int 100)).

Definition same (x : option Q) (y : Q) : bool :=
  match x with
  | Some x => Z.eqb (Qnum x) (Qnum y) && Pos.eqb (Qden x) (Qden y)
  | None => false
  end.

End Binary64.

(** ** Values, exceptions and effects *)

(** What [json.loads] builds, and what the result dictionaries hold. *)
Inductive json :=
| JNull
| JBool (b : bool)
| JInt (z : Z)
| JFloat (x : Q)
| JStr (s : string)
| JList (l : list json)
| JDict (d : gmap string json).

Abbreviation dict := (gmap string json).

(** The exceptions the code tells apart: [json.JSONDecodeError], which
    [analyze_single_resume] catches first, and every other [Exception].
    Both carry the text [str(e)]. *)
Inductive exn :=
| JSONDecodeError (msg : string)
| Exception (msg : string).

Definition str (e : exn) : string :=
  match e with
  | JSONDecodeError msg => msg
  | Exception msg => msg
  end.

(** An evaluation that returns a value or raises. *)
Inductive except (A : Type) :=
| Return (a : A)
| Raise (e : exn).
Arguments Return {A} a.
Arguments Raise {A} e.

(** A coroutine driven to its end: it returns, raises, or never resumes. *)
Inductive run (A : Type) :=
| Done (a : A)
| Fails (e : exn)
| Hangs.
Arguments Done {A} a.
Arguments Fails {A} e.
Arguments Hangs {A}.

(** An uploaded file: [file.name], [file.size] and [file.getbuffer()]. *)
Record UploadedFile := {
  uf_name : string;
  uf_size : Z;
  uf_buffer : string;
}.

(** The effects a run performs on its collaborators, in the order they
    happen. *)
Inductive event :=
| EvSave (file_name : string)      (* save_uploaded_file(file) *)
| EvExtract (file_path : string)   (* extract_text_from_file(path) *)
| EvGenerate (prompt : string)     (* model.generate_content(prompt) *)
| EvCleanup (file_path : string)   (* cleanup_temp_file(path) *)
| EvGather (tasks : nat)           (* asyncio.gather over the tasks *)
| EvProgress (percent : Q)         (* progress_callback(progress) *)
| EvSleep (seconds : Q).           (* asyncio.sleep(RATE_LIMIT_DELAY) *)

Abbreviation trace := (list event).

(** The collaborators.  Each reads the trace so far, so that two calls
    with the same argument need not agree. *)
Record Env := {
  (** [pdfminer.high_level.extract_text(path)] *)
  pdf_extract_text : trace → string → except string;
  (** [[p.text for p in Document(path).paragraphs]] *)
  docx_paragraphs : trace → string → except (list string);
  (** [model.generate_content(prompt).text]; [Raise] is an exception of the
      call or of the [text] accessor. *)
  generate_content : trace → string → except string;
  (** [json.loads(s)]: the decoded value, or what it raises: a
      [JSONDecodeError] for a text that is not JSON, another exception for
      a text nested deeper than the interpreter recurses ([RecursionError])
      or with an integer of more digits than [int] converts
      ([ValueError]). *)
  json_loads : string → except json;
  (** [time.strftime("%Y-%m-%d %H:%M:%S")] *)
  strftime : trace → string;
  (** [tempfile.NamedTemporaryFile(delete=False, suffix=.., dir=TEMP_DIR)]
      followed by the write: the path of the new file without its suffix. *)
  named_temporary_file : trace → UploadedFile → except string;
}.

(** The order in which the event loop runs the tasks of one
    [asyncio.gather]: for the chunk that starts at input index [i] and
    holds [n] tasks, the task positions in the order they get to run.  A
    task holds no suspension point that yields to the loop, so it runs to
    its end once started. *)
Abbreviation scheduler := (Z → nat → list nat).

(** ** config.py *)

(** The settings the page rewrites before a run. *)
Record Config := {
  BATCH_SIZE : Z;
  MAX_CONCURRENT_REQUESTS : Z;
  RATE_LIMIT_DELAY : Q;
}.

Definition default_config : Config :=
  {| BATCH_SIZE := 10; MAX_CONCURRENT_REQUESTS := 5; RATE_LIMIT_DELAY := 1 |}.

Definition SUPPORTED_FORMATS : list string := [".pdf"; ".docx"].
Definition MAX_FILE_SIZE_MB : Z := 10.
Definition TEMP_DIR : string := "temp_files".

Definition ERROR_MESSAGES (key : string) : string :=
  if String.eqb key "no_api_key" then "GEMINI_API_KEY is not set in the .env file"
  else if String.eqb key "unsupported_format"
       then "Unsupported file format. Please upload PDF or DOCX files."
  else if String.eqb key "file_too_large" then "File size exceeds maximum limit of 10MB"
  else if String.eqb key "processing_error" then "Error processing file: {}"
  else "API error occurred: {}".

(** ** utils/file_processor.py *)

Section FileProcessor.
Context (env : Env).

Definition file_extension (path : string) : string :=
  Py.lower (Py.splitext path).2.

(** [FileProcessor.validate_file].  An uploaded file is never [None], so the
    first test of the function never holds. *)
Definition validate_file (file : UploadedFile) : bool * string :=
  if negb (bool_decide (file_extension (uf_name file) ∈ SUPPORTED_FORMATS))
  then (false, ERROR_MESSAGES "unsupported_format")
  else
    let file_size_mb := Float64.truediv (uf_size file) (1024 * 1024) in
    if Float64.gt file_size_mb (inject_Z MAX_FILE_SIZE_MB)
    then (false, ERROR_MESSAGES "file_too_large")
    else (true, "File is valid").

(** The [try] block of [FileProcessor.extract_text_from_file]. *)
Definition extract_text_attempt (w : trace) (file_path : string) : except string :=
  let file_extension := file_extension file_path in
  if String.eqb file_extension ".pdf" then pdf_extract_text env w file_path
  else if String.eqb file_extension ".docx" then
    match docx_paragraphs env w file_path with
    | Return paragraphs => Return (Py.join Py.nl paragraphs)
    | Raise e => Raise e
    end
  else Raise (Exception ("Unsupported file format: " +:+ file_extension)).

(** [FileProcessor.extract_text_from_file]: whatever the [try] raises is
    raised again as a plain [Exception]. *)
Definition extract_text_from_file (w : trace) (file_path : string) : except string :=
  match extract_text_attempt w file_path with
  | Return text => Return text
  | Raise e => Raise (Exception ("Error extracting text from file: " +:+ str e))
  end.

(** [FileProcessor.save_uploaded_file] *)
Definition save_uploaded_file (w : trace) (uploaded_file : UploadedFile) : except string :=
  match named_temporary_file env w uploaded_file with
  | Return stem => Return (stem +:+ (Py.splitext (uf_name uploaded_file)).2)
  | Raise e => Raise (Exception ("Error saving uploaded file: " +:+ str e))
  end.

(** [FileProcessor.get_file_info] *)
Definition get_file_info (file : UploadedFile) : json :=
  JDict (<["name" := JStr (uf_name file)]>
        (<["size_mb" := JFloat (Float64.round2 (Float64.truediv (uf_size file) (1024 * 1024)))]>
        (<["type" := JStr (file_extension (uf_name file))]> ∅))).

End FileProcessor.

(** ** models/resume_parser.py *)

(** Subscripting with a [str] key, for the two statements that stamp the
    metadata.  The messages are CPython's. *)
Definition type_name (v : json) : string :=
  match v with
  | JNull => "NoneType"
  | JBool _ => "bool"
  | JInt _ => "int"
  | JFloat _ => "float"
  | JStr _ => "str"
  | JList _ => "list"
  | JDict _ => "dict"
  end.

(** [v[key]] *)
Definition getitem (v : json) (key : string) : except json :=
  match v with
  | JDict d =>
      match d !! key with
      | Some x => Return x
      | None => Raise (Exception ("'" +:+ key +:+ "'"))
      end
  | JList _ => Raise (Exception "list indices must be integers or slices, not str")
  | JStr _ => Raise (Exception "string indices must be integers, not 'str'")
  | _ => Raise (Exception ("'" +:+ type_name v +:+ "' object is not subscriptable"))
  end.

(** [v[key] = x]: the object [v] after the store. *)
Definition setitem (v : json) (key : string) (x : json) : except json :=
  match v with
  | JDict d => Return (JDict (<[key := x]> d))
  | JList _ => Raise (Exception "list indices must be integers or slices, not str")
  | _ => Raise (Exception ("'" +:+ type_name v +:+ "' object does not support item assignment"))
  end.

(** [v[k1][k2] = x]: the inner object is the one [v] holds under [k1], so
    [v] sees the store.  The result is [v] afterwards, a dictionary. *)
Definition setitem_in (v : json) (k1 k2 : string) (x : json) : except dict :=
  match getitem v k1 with
  | Raise e => Raise e
  | Return inner =>
      match setitem inner k2 x with
      | Raise e => Raise e
      | Return inner' =>
          match v with
          | JDict d => Return (<[k1 := inner']> d)
          | _ => Raise (Exception ("'" +:+ type_name v +:+ "' object is not subscriptable"))
          end
      end
  end.

(** [ResumeParser.create_analysis_prompt] *)
Definition prompt_schema : list string :=
  let q := Py.q in
  [ "        Analyze the following resume and extract the following information in JSON format:";
    "        ";
    "        {";
    "            " +:+ q "name" +:+ ": " +:+ q "Full name of the person" +:+ ",";
    "            " +:+ q "contact_details" +:+ ": {";
    "                " +:+ q "email" +:+ ": " +:+ q "Email address" +:+ ",";
    "                " +:+ q "phone" +:+ ": " +:+ q "Phone number" +:+ ",";
    "                " +:+ q "location" +:+ ": " +:+ q "City, State/Country";
    "            },";
    "            " +:+ q "education" +:+ ": {";
    "                " +:+ q "university" +:+ ": " +:+ q "University/Institution name" +:+ ",";
    "                " +:+ q "year_of_study" +:+ ": " +:+ q "Current year or graduation year" +:+ ",";
    "                " +:+ q "course" +:+ ": " +:+ q "Degree program name" +:+ ",";
    "                " +:+ q "discipline" +:+ ": " +:+ q "Field of study" +:+ ",";
    "                " +:+ q "cgpa_percentage" +:+ ": " +:+ q "CGPA or percentage if available";
    "            },";
    "            " +:+ q "skills" +:+ ": {";
    "                " +:+ q "technical_skills" +:+ ": [" +:+ q "List of technical skills" +:+ "],";
    "                " +:+ q "soft_skills" +:+ ": [" +:+ q "List of soft skills" +:+ "],";
    "                " +:+ q "programming_languages" +:+ ": [" +:+ q "List of programming languages" +:+ "],";
    "                " +:+ q "tools_technologies" +:+ ": [" +:+ q "List of tools and technologies" +:+ "]";
    "            },";
    "            " +:+ q "experience_scores" +:+ ": {";
    "                " +:+ q "ai_ml_experience" +:+ ": " +:+ q "Score from 1-10 based on AI/ML experience" +:+ ",";
    "                " +:+ q "gen_ai_experience" +:+ ": " +:+ q "Score from 1-10 based on Gen AI experience" +:+ ",";
    "                " +:+ q "overall_experience" +:+ ": " +:+ q "Score from 1-10 based on overall experience";
    "            },";
    "            " +:+ q "supporting_information" +:+ ": {";
    "                " +:+ q "certifications" +:+ ": [" +:+ q "List of relevant certifications" +:+ "],";
    "                " +:+ q "internships" +:+ ": [" +:+ q "List of internships" +:+ "],";
    "                " +:+ q "projects" +:+ ": [" +:+ q "List of relevant projects" +:+ "],";
    "                " +:+ q "achievements" +:+ ": [" +:+ q "List of achievements" +:+ "]";
    "            },";
    "            " +:+ q "analysis_metadata" +:+ ": {";
    "                " +:+ q "processing_timestamp" +:+ ": " +:+ q "Current timestamp" +:+ ",";
    "                " +:+ q "file_name" +:+ ": " +:+ q "Original file name" +:+ ",";
    "                " +:+ q "confidence_score" +:+ ": " +:+ q "Confidence in analysis (1-10)";
    "            }";
    "        }";
    "        ";
    "        Resume text:" ].

Definition create_analysis_prompt (text : string) : string :=
  Py.nl +:+ Py.join Py.nl prompt_schema +:+ Py.nl
  +:+ "        " +:+ text +:+ Py.nl
  +:+ "        " +:+ Py.nl
  +:+ "        Please ensure the response is valid JSON format only." +:+ Py.nl
  +:+ "        ".

(** The two statements under [# Add metadata]:
    [analysis_result["analysis_metadata"]["file_name"] = file_name] and
    [analysis_result["analysis_metadata"]["processing_timestamp"] = now]. *)
Definition add_metadata (analysis_result : json) (file_name now : string) : except dict :=
  match setitem_in analysis_result "analysis_metadata" "file_name" (JStr file_name) with
  | Raise e => Raise e
  | Return analysis_result =>
      setitem_in (JDict analysis_result) "analysis_metadata" "processing_timestamp" (JStr now)
  end.

Section ResumeParser.
Context (cfg : Config) (env : Env) (sched : scheduler).

(** The [try] block of [analyze_single_resume]: the local [response] (its
    text) when the block bound it, what the block returned or raised, and
    the trace. *)
Definition analyze_try (file_path file_name : string) (w : trace)
  : option string * except dict * trace :=
  let w1 := w ++ [EvExtract file_path] in
  match extract_text_from_file env w file_path with
  | Raise e => (None, Raise e, w1)
  | Return text =>
      let prompt := create_analysis_prompt text in
      let w2 := w1 ++ [EvGenerate prompt] in
      match generate_content env w1 prompt with
      | Raise e => (None, Raise e, w2)
      | Return response_text =>
          match json_loads env (Py.strip response_text) with
          | Raise e => (Some response_text, Raise e, w2)
          | Return analysis_result =>
              (Some response_text,
               add_metadata analysis_result file_name (strftime env w2),
               w2)
          end
      end
  end.

(** [ResumeParser.analyze_single_resume]: the [try] block and its two
    handlers. *)
Definition analyze_single_resume (file_path file_name : string) (w : trace) : dict * trace :=
  let '(response, outcome, w') := analyze_try file_path file_name w in
  match outcome with
  | Return analysis_result => (analysis_result, w')
  | Raise (JSONDecodeError msg) =>
      ({[ "error" := JStr ("Failed to parse AI response as JSON: " +:+ msg);
          "file_name" := JStr file_name;
          "raw_response" := JStr (default "No response" response) ]}, w')
  | Raise (Exception msg) =>
      ({[ "error" := JStr ("Error analyzing resume: " +:+ msg);
          "file_name" := JStr file_name ]}, w')
  end.

(** The inner coroutine [process_file] of [process_batch], run to its end.
    The semaphore is held from the first line to the last; see [gather]. *)
Definition process_file (file : UploadedFile) (w : trace) : except dict * trace :=
  let '(is_valid, error_msg) := validate_file file in
  if negb is_valid
  then (Return {[ "error" := JStr error_msg; "file_name" := JStr (uf_name file) ]}, w)
  else
    let w1 := w ++ [EvSave (uf_name file)] in
    match save_uploaded_file env w file with
    | Raise e => (Raise e, w1)
    | Return temp_file_path =>
        let '(result, w2) := analyze_single_resume temp_file_path (uf_name file) w1 in
        (Return (<["file_info" := get_file_info file]> result),
         w2 ++ [EvCleanup temp_file_path])
    end.

(** One step of the event loop inside [asyncio.gather]: the task at
    position [k] runs to its end and its result, returned or raised, is
    kept at position [k].  A position that names no task, or a task that is
    already done, is skipped. *)
Definition run_task (batch : list UploadedFile)
    (st : list (option (except dict)) * trace) (k : nat)
  : list (option (except dict)) * trace :=
  match batch !! k, st.1 !! k with
  | Some file, Some None =>
      let '(r, w') := process_file file st.2 in (<[k := Some r]> st.1, w')
  | _, _ => st
  end.

(** [await asyncio.gather( *tasks, return_exceptions=True)] for the tasks of
    one chunk: the results in the order of the tasks, whatever the order
    [order] in which they ran.  [None]: the gather never completes, because
    a task never ran or because the semaphore has no capacity, in which
    case every task waits for it for ever. *)
Definition gather (order : list nat) (batch : list UploadedFile) (w : trace)
  : option (list (except dict)) * trace :=
  let w0 := w ++ [EvGather (length batch)] in
  if (MAX_CONCURRENT_REQUESTS cfg <=? 0)%Z then (None, w0)
  else
    let '(slots, w') := foldl (run_task batch) (replicate (length batch) None, w0) order in
    (mapM id slots, w').

(** The body of [for j, result in enumerate(batch_results)]. *)
Definition settle (file : UploadedFile) (result : except dict) : dict :=
  match result with
  | Raise e =>
      {[ "error" := JStr ("Processing error: " +:+ str e);
         "file_name" := JStr (uf_name file) ]}
  | Return d => d
  end.

(** [min((i + len(batch)) / len(files) * 100, 100)] *)
Definition progress (processed total : Z) : Q :=
  Float64.min (Float64.mul (Float64.truediv processed total) 100) 100.

Section Batch.
Context (files : list UploadedFile) (progress_callback : bool).

(** [files[i:i + config.BATCH_SIZE]] for [0 <= i] and a positive size. *)
Definition chunk (i : Z) : list UploadedFile :=
  take (Z.to_nat (BATCH_SIZE cfg)) (drop (Z.to_nat i) files).

(** The [for] loop of [process_batch] over the chunk starts [starts]. *)
Fixpoint batch_loop (starts : list Z) (results : list dict) (w : trace)
  : run (list dict * trace) :=
  match starts with
  | [] => Done (results, w)
  | i :: starts' =>
      let batch := chunk i in
      match gather (sched i (length batch)) batch w with
      | (None, _) => Hangs
      | (Some batch_results, w1) =>
          let results := results ++ zip_with settle batch batch_results in
          let w2 :=
            if progress_callback
            then w1 ++ [EvProgress (progress (i + Z.of_nat (length batch))
                                             (Z.of_nat (length files)))]
            else w1 in
          let w3 :=
            if (i + BATCH_SIZE cfg <? Z.of_nat (length files))%Z
            then w2 ++ [EvSleep (RATE_LIMIT_DELAY cfg)]
            else w2 in
          batch_loop starts' results w3
      end
  end.

(** [ResumeParser.process_batch].  [asyncio.Semaphore] refuses a negative
    capacity, and [range] a zero step. *)
Definition process_batch (w : trace) : run (list dict * trace) :=
  if (MAX_CONCURRENT_REQUESTS cfg <? 0)%Z
  then Fails (Exception "Semaphore initial value must be >= 0")
  else
    match Py.range (Z.of_nat (length files)) (BATCH_SIZE cfg) with
    | None => Fails (Exception "range() arg 3 must not be zero")
    | Some starts => batch_loop starts [] w
    end.

End Batch.
End ResumeParser.

(** ** Evaluations that may raise *)

(** Sequencing. *)
Definition except_bind {A B} (m : except A) (f : A → except B) : except B :=
  match m with
  | Return a => f a
  | Raise e => Raise e
  end.

Declare Scope except_scope.
Delimit Scope except_scope with except.
Notation "x <- m ;; k" := (except_bind m (λ x, k))
  (at level 100, m at next level, right associativity) : except_scope.
Notation "'_' <- m ;; k" := (except_bind m (λ _, k))
  (at level 100, m at next level, right associativity) : except_scope.

(** [v.get(key, default)]: only a dictionary has the method. *)
Definition get (v : json) (key : string) (default : json) : except json :=
  match v with
  | JDict d => Return (from_option id default (d !! key))
  | _ => Raise (Exception ("'" +:+ type_name v +:+ "' object has no attribute 'get'"))
  end.

(** ** utils/output_handler.py *)

(** ["error" in r] *)
Definition has_error (r : dict) : bool := bool_decide (is_Some (r !! "error")).

Record SummaryStats := {
  total_files : nat;
  successful_analyses : nat;
  failed_analyses : nat;
}.

Definition successful_results (results : list dict) : list dict :=
  filter (λ r, has_error r = false) results.

Definition failed_results (results : list dict) : list dict :=
  filter (λ r, has_error r = true) results.

(** The loop of [generate_summary_stats] over the results without
    ["error"].  For each it reads the three scores with
    [experience_scores.get(key)], which raises when the result holds
    something else than a dictionary under ["experience_scores"]; what it
    does with a score it read ([float] inside [try] and a bare [except])
    never raises.  The averages the loop prepares are left out. *)
Fixpoint read_scores (successful : list dict) : except unit :=
  match successful with
  | [] => Return tt
  | result :: rest =>
      let experience_scores := from_option id (JDict ∅) (result !! "experience_scores") in
      (_ <- get experience_scores "ai_ml_experience" JNull;;
       _ <- get experience_scores "gen_ai_experience" JNull;;
       _ <- get experience_scores "overall_experience" JNull;;
       read_scores rest)%except
  end.

(** [OutputHandler.generate_summary_stats]: the three counts of the
    dictionary it returns, or the exception of the loop over the scores.
    The rate is [success_rate] below; the averages are left out. *)
Definition generate_summary_stats (results : list dict) : except SummaryStats :=
  (_ <- read_scores (successful_results results);;
   Return {| total_files := length results;
             successful_analyses := length (successful_results results);
             failed_analyses := length (failed_results results) |})%except.

(** ** A sample environment, for the examples

    The decoder below reads a fragment of JSON: objects, arrays, strings
    without escapes, integers, [true], [false] and [null]; like
    [json.loads], it raises [RecursionError] on a text nested too deep.  The theorems of
    Part II hold for every environment; the examples run in this one. *)

Module Sample.

Definition is_json_space (c : ascii) : bool :=
  Ascii.eqb c " " || Ascii.eqb c "009" || Ascii.eqb c "010" || Ascii.eqb c "013".

Fixpoint skip_ws (l : list ascii) : list ascii :=
  match l with
  | c :: l' => if is_json_space c then skip_ws l' else l
  | [] => []
  end.

(** The characters up to the closing quote, and what follows it. *)
Fixpoint scan_string (l : list ascii) : option (string * list ascii) :=
  match l with
  | [] => None
  | c :: l' =>
      if Ascii.eqb c "034" then Some (EmptyString, l')
      else if Ascii.eqb c "\" then None
      else match scan_string l' with
           | Some (s, rest) => Some (String c s, rest)
           | None => None
           end
  end.

Definition digit (c : ascii) : option Z :=
  let n := N_of_ascii c in
  if ((48 <=? n) && (n <=? 57))%N then Some (Z.of_N n - 48)%Z else None.

Fixpoint scan_digits (l : list ascii) (acc : Z) : Z * list ascii :=
  match l with
  | c :: l' =>
      match digit c with
      | Some d => scan_digits l' (10 * acc + d)%Z
      | None => (acc, l)
      end
  | [] => (acc, [])
  end.

Definition starts_with (p : string) (l : list ascii) : option (list ascii) :=
  let pl := list_ascii_of_string p in
  if bool_decide (take (length pl) l = pl) then Some (drop (length pl) l) else None.

Fixpoint parse_value (fuel : nat) (l : list ascii) : option (json * list ascii) :=
  match fuel with
  | O => None
  | S fuel' =>
      match skip_ws l with
      | [] => None
      | c :: rest =>
          if Ascii.eqb c "{" then
            match skip_ws rest with
            | c' :: rest' =>
                if Ascii.eqb c' "}" then Some (JDict ∅, rest')
                else match parse_members fuel' (c' :: rest') ∅ with
                     | Some (d, r) => Some (JDict d, r)
                     | None => None
                     end
            | [] => None
            end
          else if Ascii.eqb c "[" then
            match skip_ws rest with
            | c' :: rest' =>
                if Ascii.eqb c' "]" then Some (JList [], rest')
                else match parse_elements fuel' (c' :: rest') with
                     | Some (vs, r) => Some (JList vs, r)
                     | None => None
                     end
            | [] => None
            end
          else if Ascii.eqb c "034" then
            match scan_string rest with
            | Some (s, r) => Some (JStr s, r)
            | None => None
            end
          else if Ascii.eqb c "-" then
            match rest with
            | c' :: _ =>
                match digit c' with
                | Some _ => let '(n, r) := scan_digits rest 0 in Some (JInt (- n), r)
                | None => None
                end
            | [] => None
            end
          else match digit c with
               | Some _ => let '(n, r) := scan_digits (c :: rest) 0 in Some (JInt n, r)
               | None =>
                   match starts_with "true" (c :: rest) with
                   | Some r => Some (JBool true, r)
                   | None =>
                       match starts_with "false" (c :: rest) with
                       | Some r => Some (JBool false, r)
                       | None =>
                           match starts_with "null" (c :: rest) with
                           | Some r => Some (JNull, r)
                           | None => None
                           end
                       end
                   end
               end
      end
  end
with parse_members (fuel : nat) (l : list ascii) (acc : dict) : option (dict * list ascii) :=
  match fuel with
  | O => None
  | S fuel' =>
      match skip_ws l with
      | c :: rest =>
          if Ascii.eqb c "034" then
            match scan_string rest with
            | Some (key, r1) =>
                match skip_ws r1 with
                | c1 :: r2 =>
                    if Ascii.eqb c1 ":" then
                      match parse_value fuel' r2 with
                      | Some (v, r3) =>
                          match skip_ws r3 with
                          | c3 :: r4 =>
                              if Ascii.eqb c3 "," then parse_members fuel' r4 (<[key := v]> acc)
                              else if Ascii.eqb c3 "}" then Some (<[key := v]> acc, r4)
                              else None
                          | [] => None
                          end
                      | None => None
                      end
                    else None
                | [] => None
                end
            | None => None
            end
          else None
      | [] => None
      end
  end
with parse_elements (fuel : nat) (l : list ascii) : option (list json * list ascii) :=
  match fuel with
  | O => None
  | S fuel' =>
      match parse_value fuel' l with
      | Some (v, r1) =>
          match skip_ws r1 with
          | c :: r2 =>
              if Ascii.eqb c "," then
                match parse_elements fuel' r2 with
                | Some (vs, r3) => Some (v :: vs, r3)
                | None => None
                end
              else if Ascii.eqb c "]" then Some ([v], r2)
              else None
          | [] => None
          end
      | None => None
      end
  end.

(** The bracket that opens level [limit + 1] of the text, if any: the
    decoder recurses once per level. *)
Fixpoint too_deep (limit : nat) (l : list ascii) (level : nat) (quoted : bool)
  : option ascii :=
  match l with
  | [] => None
  | c :: l' =>
      if quoted then too_deep limit l' level (negb (Ascii.eqb c "034"))
      else if Ascii.eqb c "034" then too_deep limit l' level true
      else if Ascii.eqb c "[" || Ascii.eqb c "{" then
        if limit <=? level then Some c else too_deep limit l' (S level) false
      else if Ascii.eqb c "]" || Ascii.eqb c "}" then too_deep limit l' (pred level) false
      else too_deep limit l' level false
  end.

(** The depth at which the decoder of the examples gives up. *)
Definition recursion_limit : nat := 1000.

Definition decode (s : string) : except json :=
  let l := list_ascii_of_string s in
  match too_deep recursion_limit l 0 false with
  | Some c =>
      Raise (Exception ("maximum recursion depth exceeded while decoding a JSON "
                        +:+ (if Ascii.eqb c "[" then "array" else "object")
                        +:+ " from a unicode string"))
  | None =>
      match parse_value (S (length l)) l with
      | Some (v, rest) =>
          match skip_ws rest with
          | [] => Return v
          | _ => Raise (JSONDecodeError "Extra data")
          end
      | None => Raise (JSONDecodeError "Expecting value")
      end
  end.

(** The collaborators of the examples: the PDF extractor answers
    [pdf_text], the model answers [response], and the temporary directory
    has room for [quota] files: once that many were saved, saving raises. *)
Definition collaborators (pdf_text response : except string) (quota : nat) : Env :=
  {| pdf_extract_text := λ _ _, pdf_text;
     docx_paragraphs := λ _ _, Return ["Jane Doe"; "MSc, Python and SQL"];
     generate_content := λ _ _, response;
     json_loads := decode;
     strftime := λ _, "2024-05-17 09:30:00";
     named_temporary_file := λ w _,
       if decide (length (List.filter (λ e, match e with EvSave _ => true | _ => false end) w)
                  < quota)
       then Return "/srv/app/temp_files/tmpk3v9x_2a"
       else Raise (Exception "[Errno 28] No space left on device") |}.

(** Working extractors and storage, and a model that answers [response]. *)
Definition env (response : except string) : Env :=
  collaborators (Return "Jane Doe, MSc, Python and SQL") response 1000.

(** The same with room for [quota] temporary files. *)
Definition small_disk (quota : nat) (response : except string) : Env :=
  collaborators (Return "Jane Doe, MSc, Python and SQL") response quota.

(** A PDF extractor that raises [cause]. *)
Definition unreadable (cause : string) (response : except string) : Env :=
  collaborators (Raise (Exception cause)) response 1000.

(** The event loop as CPython runs it: the tasks in the order of their
    creation. *)
Definition fifo : scheduler := λ _ n, seq 0 n.

(** A loop that runs the tasks of each chunk last to first. *)
Definition lifo : scheduler := λ _ n, rev (seq 0 n).

Definition pdf (name : string) (bytes : Z) : UploadedFile :=
  {| uf_name := name; uf_size := bytes; uf_buffer := "%PDF-1.7" |}.

Definition good_response : string :=
  "{" +:+ Py.q "name" +:+ ": " +:+ Py.q "Jane Doe" +:+ ", "
      +:+ Py.q "analysis_metadata" +:+ ": {"
      +:+ Py.q "file_name" +:+ ": " +:+ Py.q "resume_final_v2.pdf" +:+ ", "
      +:+ Py.q "processing_timestamp" +:+ ": " +:+ Py.q "now" +:+ ", "
      +:+ Py.q "confidence_score" +:+ ": 9}}" +:+ Py.nl.

(** Three resumes, the last one under a name in capitals. *)
Definition three_files : list UploadedFile :=
  [pdf "ana.pdf" 182044; pdf "bo.pdf" 97310; pdf "CHEN.PDF" 240518].

Definition temp_pdf : string := "/srv/app/temp_files/tmpk3v9x_2a.pdf".

(** A response nested deeper than any interpreter recurses: a hundred
    thousand opening brackets. *)
Definition nested_response : string :=
  string_of_list_ascii (replicate (Z.to_nat 100000) "["%char).

(** A response that is JSON, with an ["error"] key of its own. *)
Definition apologetic_response : string :=
  "{" +:+ Py.q "error" +:+ ": " +:+ Py.q "none" +:+ ", "
      +:+ Py.q "analysis_metadata" +:+ ": {}}".

End Sample.

(** ** Observations on a run *)

(** The events of the orchestrator itself, as opposed to those of the
    per-file tasks. *)
Definition is_orchestration (e : event) : bool :=
  match e with
  | EvGather _ | EvProgress _ | EvSleep _ => true
  | _ => false
  end.

Definition orchestration (w : trace) : trace := List.filter is_orchestration w.

(** The values the progress callback received, in order. *)
Definition progress_values (w : trace) : list Q :=
  omap (λ e, match e with EvProgress x => Some x | _ => None end) w.

(** The delays the run slept, in order. *)
Definition delays (w : trace) : list Q :=
  omap (λ e, match e with EvSleep x => Some x | _ => None end) w.

(** The prompts sent to the model, and the paths handed to the text
    extractors. *)
Definition model_calls (w : trace) : list string :=
  omap (λ e, match e with EvGenerate p => Some p | _ => None end) w.

Definition extractions (w : trace) : list string :=
  omap (λ e, match e with EvExtract p => Some p | _ => None end) w.

(** Every task of a chunk gets to run. *)
Definition fair (sched : scheduler) : Prop :=
  ∀ (i : Z) (n k : nat), k < n → k ∈ sched i n.

(** The decoded response holds a dictionary under ["analysis_metadata"]. *)
Definition stampable (v : json) : bool :=
  match v with
  | JDict d =>
      match d !! "analysis_metadata" with
      | Some (JDict _) => true
      | _ => false
      end
  | _ => false
  end.

(** An event of a per-file task. *)
Definition task_event (e : event) : Prop := is_orchestration e = false.

Section Produced.
Context (env : Env).

(** [d] is the outcome of the task of [file], run at some moment between
    the traces [w_from] and [w_to]. *)
Definition produced (w_from w_to : trace) (file : UploadedFile) (d : dict) : Prop :=
  ∃ w_k, w_from `prefix_of` w_k
         ∧ (process_file env file w_k).2 `prefix_of` w_to
         ∧ d = settle file (process_file env file w_k).1.

(** What holds of the slots and the trace while the tasks of [batch] run:
    the slots are as many as the tasks, the trace has grown by task events
    only, and a filled slot holds what its own task returned or raised. *)
Definition gather_inv (batch : list UploadedFile) (w0 : trace)
    (st : list (option (except dict)) * trace) : Prop :=
  length st.1 = length batch
  ∧ (∃ evs, st.2 = w0 ++ evs ∧ Forall task_event evs)
  ∧ ∀ k r, st.1 !! k = Some (Some r) →
      ∃ file w_k, batch !! k = Some file ∧ w0 `prefix_of` w_k
                  ∧ (process_file env file w_k).2 `prefix_of` st.2
                  ∧ r = (process_file env file w_k).1.

End Produced.

Section ChunkObservations.
Context (cfg : Config) (files : list UploadedFile) (progress_callback : bool).

(** The number of chunks: the length of [range(0, len(files), BATCH_SIZE)]. *)
Definition chunk_count : nat :=
  Z.to_nat ((Z.of_nat (length files) + BATCH_SIZE cfg - 1) / BATCH_SIZE cfg).

(** The start index of chunk number [k]. *)
Definition chunk_start (k : nat) : Z := (Z.of_nat k * BATCH_SIZE cfg)%Z.

(** The orchestrator's own events for the chunk that starts at [i]. *)
Definition chunk_events (i : Z) : trace :=
  [EvGather (length (chunk cfg files i))]
  ++ (if progress_callback
      then [EvProgress (progress (i + Z.of_nat (length (chunk cfg files i)))
                                 (Z.of_nat (length files)))]
      else [])
  ++ (if (i + BATCH_SIZE cfg <? Z.of_nat (length files))%Z
      then [EvSleep (RATE_LIMIT_DELAY cfg)]
      else []).

End ChunkObservations.

(** ** Further observations on a run *)

(** The number of tasks of each [asyncio.gather], in order. *)
Definition gathers (w : trace) : list nat :=
  omap (λ e, match e with EvGather n => Some n | _ => None end) w.

(** The file names handed to [save_uploaded_file], and the paths handed to
    [cleanup_temp_file]. *)
Definition saves (w : trace) : list string :=
  omap (λ e, match e with EvSave n => Some n | _ => None end) w.

Definition cleanups (w : trace) : list string :=
  omap (λ e, match e with EvCleanup p => Some p | _ => None end) w.

(** The record [d] names the file it is about: by the file information
    that [process_file] adds to what [analyze_single_resume] returned, or
    by the [file_name] of a failure record. *)
Definition names_file (d : dict) (file : UploadedFile) : Prop :=
  d !! "file_info" = Some (get_file_info file)
  ∨ (has_error d = true ∧ d !! "file_name" = Some (JStr (uf_name file))).

(** Collaborators that answer by their arguments alone, whatever happened
    before. *)
Definition history_free (env : Env) : Prop :=
  ∀ w w' : trace,
    pdf_extract_text env w = pdf_extract_text env w'
    ∧ docx_paragraphs env w = docx_paragraphs env w'
    ∧ generate_content env w = generate_content env w'
    ∧ strftime env w = strftime env w'
    ∧ named_temporary_file env w = named_temporary_file env w'.

(** The events of the task of one file, from its first line to its last:
    none for a file that validation rejects; for the others the save,
    then, when the file was saved at [path], the extraction from [path], at
    most one call of the model, and the cleanup of [path]. *)
Definition task_block (file : UploadedFile) (b : trace) : Prop :=
  if (validate_file file).1
  then b = [EvSave (uf_name file)]
       ∨ ∃ path prompts,
           b = EvSave (uf_name file) :: EvExtract path
               :: (EvGenerate <$> prompts) ++ [EvCleanup path]
           ∧ length prompts ≤ 1
  else b = [].

(** What holds of the slots and the trace while the tasks of [batch] run,
    event by event: the trace has grown by the events of the tasks that
    ran, each task with a block of its own. *)
Definition gather_blocks_inv (batch : list UploadedFile) (w0 : trace)
    (st : list (option (except dict)) * trace) : Prop :=
  ∃ blocks : list trace,
    length blocks = length batch
    ∧ length st.1 = length batch
    ∧ (∃ evs, st.2 = w0 ++ evs ∧ evs ≡ₚ concat blocks)
    ∧ ∀ k, match st.1 !! k with
           | Some (Some r) =>
               ∃ file b, batch !! k = Some file ∧ blocks !! k = Some b ∧ task_block file b
           | Some None => blocks !! k = Some []
           | None => True
           end.

(** Collaborators that answer by their arguments alone: working extractors
    and storage, the clock stopped, and a model that answers [response]. *)
Definition steady (response : except string) : Env :=
  {| pdf_extract_text := λ _ _, Return "Jane Doe, MSc, Python and SQL";
     docx_paragraphs := λ _ _, Return ["Jane Doe"; "MSc, Python and SQL"];
     generate_content := λ _ _, response;
     json_loads := Sample.decode;
     strftime := λ _, "2024-05-17 09:30:00";
     named_temporary_file := λ _ _, Return "/srv/app/temp_files/tmpk3v9x_2a" |}.

(** Does the file name of the path [p], the part after its last separator,
    hold a character other than the dot?  The names [tempfile] makes do:
    they start with [tmp]. *)
Definition names_a_file (p : string) : bool :=
  let l := list_ascii_of_string p in
  Py.has_stem (drop (Z.to_nat (Py.rfind "/" l + 1)) l).

(** ** utils/output_handler.py, continued *)

(** The ["success_rate"] of [OutputHandler.generate_summary_stats]: a float,
    or the integer 0 when there are no results. *)
Definition success_rate (results : list dict) : json :=
  match results with
  | [] => JInt 0
  | _ :: _ =>
      JFloat (Float64.mul
                (Float64.truediv (Z.of_nat (length (successful_results results)))
                                 (Z.of_nat (length results)))
                100)
  end.

(** The dictionary [OutputHandler.save_to_json] dumps; [generated_at] is
    [datetime.now().isoformat()]. *)
Definition output_data (results : list dict) (generated_at : string) : dict :=
  {[ "metadata" :=
       JDict {[ "total_resumes" := JInt (Z.of_nat (length results));
                "successful_analyses" :=
                  JInt (Z.of_nat (length (filter (λ r, has_error r = false) results)));
                "failed_analyses" :=
                  JInt (Z.of_nat (length (filter (λ r, has_error r = true) results)));
                "generated_at" := JStr generated_at;
                "version" := JStr "1.0" ]};
     "results" := JList (JDict <$> results) ]}.

(** The items of [", ".join(items)] must all be strings: the first that is
    not, at position [i] or after, is refused. *)
Fixpoint str_items (i : nat) (items : list json) : except (list string) :=
  match items with
  | [] => Return []
  | JStr s :: rest =>
      match str_items (S i) rest with
      | Return l => Return (s :: l)
      | Raise e => Raise e
      end
  | v :: _ =>
      Raise (Exception ("sequence item " +:+ NilZero.string_of_uint (Nat.to_uint i)
                        +:+ ": expected str instance, " +:+ type_name v +:+ " found"))
  end.

(** A byte 10xxxxxx, which continues a character of more than one byte. *)
Definition is_continuation (c : ascii) : bool :=
  let n := N_of_ascii c in ((128 <=? n) && (n <? 192))%N.

(** The characters of a string, as [for c in s] yields them: each a byte
    that is no continuation, with the continuations that follow it. *)
Definition characters (s : string) : list string :=
  let '(pending, chars) :=
    foldr (λ c '(pending, chars),
             if is_continuation c then (String c pending, chars)
             else (EmptyString, String c pending :: chars))
          (EmptyString, []) (list_ascii_of_string s) in
  match pending with
  | EmptyString => chars
  | _ => pending :: chars
  end.

Section Flatten.

(** The order in which a dictionary yields its keys, which a [gmap] does
    not record, and the reading of the clock when the row at a given index
    is built. *)
Context (keys_in_order : dict → list string) (now : nat → string).

(** [", ".join(v)]: a list of strings is joined; a string is taken for the
    sequence of its characters and a dictionary for that of its keys; the
    other values cannot be iterated. *)
Definition join_value (v : json) : except string :=
  match v with
  | JList items =>
      match str_items 0 items with
      | Return l => Return (Py.join ", " l)
      | Raise e => Raise e
      end
  | JStr s => Return (Py.join ", " (characters s))
  | JDict d => Return (Py.join ", " (keys_in_order d))
  | _ => Raise (Exception "can only join an iterable")
  end.

(** [", ".join(section.get(key, []))] *)
Definition join_field (section : json) (key : string) : except json :=
  (items <- get section key (JList []);;
   joined <- join_value items;;
   Return (JStr joined))%except.

(** The row of a result that holds ["error"]. *)
Definition error_row (i : nat) (result : dict) (error : json) : dict :=
  list_to_map
    [("file_name", from_option id (JStr "Unknown") (result !! "file_name"));
     ("status", JStr "Error");
     ("error_message", error);
     ("name", JStr "");
     ("email", JStr "");
     ("phone", JStr "");
     ("university", JStr "");
     ("course", JStr "");
     ("cgpa_percentage", JStr "");
     ("technical_skills", JStr "");
     ("ai_ml_experience", JStr "");
     ("gen_ai_experience", JStr "");
     ("overall_experience", JStr "");
     ("certifications", JStr "");
     ("projects", JStr "");
     ("processing_timestamp", JStr (now i))].

(** The row of a result without ["error"]: the values of the dictionary
    display, evaluated in their order. *)
Definition success_row (result : dict) : except dict :=
  let name := from_option id (JStr "") (result !! "name") in
  let contact_details := from_option id (JDict ∅) (result !! "contact_details") in
  let education := from_option id (JDict ∅) (result !! "education") in
  let skills := from_option id (JDict ∅) (result !! "skills") in
  let experience_scores := from_option id (JDict ∅) (result !! "experience_scores") in
  let supporting_info := from_option id (JDict ∅) (result !! "supporting_information") in
  let metadata := from_option id (JDict ∅) (result !! "analysis_metadata") in
  (file_name <- get metadata "file_name" (JStr "");;
   email <- get contact_details "email" (JStr "");;
   phone <- get contact_details "phone" (JStr "");;
   location <- get contact_details "location" (JStr "");;
   university <- get education "university" (JStr "");;
   year_of_study <- get education "year_of_study" (JStr "");;
   course <- get education "course" (JStr "");;
   discipline <- get education "discipline" (JStr "");;
   cgpa_percentage <- get education "cgpa_percentage" (JStr "");;
   technical_skills <- join_field skills "technical_skills";;
   soft_skills <- join_field skills "soft_skills";;
   programming_languages <- join_field skills "programming_languages";;
   tools_technologies <- join_field skills "tools_technologies";;
   ai_ml_experience <- get experience_scores "ai_ml_experience" (JStr "");;
   gen_ai_experience <- get experience_scores "gen_ai_experience" (JStr "");;
   overall_experience <- get experience_scores "overall_experience" (JStr "");;
   certifications <- join_field supporting_info "certifications";;
   internships <- join_field supporting_info "internships";;
   projects <- join_field supporting_info "projects";;
   achievements <- join_field supporting_info "achievements";;
   confidence_score <- get metadata "confidence_score" (JStr "");;
   processing_timestamp <- get metadata "processing_timestamp" (JStr "");;
   Return (list_to_map
     [("file_name", file_name);
      ("status", JStr "Success");
      ("error_message", JStr "");
      ("name", name);
      ("email", email);
      ("phone", phone);
      ("location", location);
      ("university", university);
      ("year_of_study", year_of_study);
      ("course", course);
      ("discipline", discipline);
      ("cgpa_percentage", cgpa_percentage);
      ("technical_skills", technical_skills);
      ("soft_skills", soft_skills);
      ("programming_languages", programming_languages);
      ("tools_technologies", tools_technologies);
      ("ai_ml_experience", ai_ml_experience);
      ("gen_ai_experience", gen_ai_experience);
      ("overall_experience", overall_experience);
      ("certifications", certifications);
      ("internships", internships);
      ("projects", projects);
      ("achievements", achievements);
      ("confidence_score", confidence_score);
      ("processing_timestamp", processing_timestamp)] : dict))%except.

(** The body of the loop of [flatten_resume_data] for the result at index
    [i]. *)
Definition flatten_row (i : nat) (result : dict) : except dict :=
  match result !! "error" with
  | Some error => Return (error_row i result error)
  | None => success_row result
  end.

(** The loop of [flatten_resume_data] from index [i] on. *)
Fixpoint flatten_from (i : nat) (results : list dict) : except (list dict) :=
  match results with
  | [] => Return []
  | result :: rest =>
      (row <- flatten_row i result;;
       rows <- flatten_from (S i) rest;;
       Return (row :: rows))%except
  end.

(** [OutputHandler.flatten_resume_data] *)
Definition flatten_resume_data (results : list dict) : except (list dict) :=
  flatten_from 0 results.

End Flatten.

(** A value that [", ".join] accepts. *)
Definition joinable (v : json) : Prop :=
  match v with
  | JList items => Forall (λ x, ∃ s, x = JStr s) items
  | JStr _ | JDict _ => True
  | _ => False
  end.

(** The section [key] of a result is a dictionary, if the result has it. *)
Definition section_is_dict (result : dict) (key : string) : Prop :=
  match result !! key with
  | None | Some (JDict _) => True
  | Some _ => False
  end.

(** The entry [key] of the section [sec] can be joined, if the section has
    it. *)
Definition entry_is_joinable (result : dict) (sec key : string) : Prop :=
  match result !! sec with
  | Some (JDict section) =>
      match section !! key with
      | Some v => joinable v
      | None => True
      end
  | _ => True
  end.

(** The shape [flatten_resume_data] takes for granted in a result without
    ["error"]: its six sections are dictionaries and its eight lists can
    be joined. *)
Definition flattenable (result : dict) : Prop :=
  Forall (section_is_dict result)
    ["analysis_metadata"; "contact_details"; "education"; "skills";
     "experience_scores"; "supporting_information"]
  ∧ Forall (entry_is_joinable result "skills")
      ["technical_skills"; "soft_skills"; "programming_languages"; "tools_technologies"]
  ∧ Forall (entry_is_joinable result "supporting_information")
      ["certifications"; "internships"; "projects"; "achievements"].

(** For the examples: dictionaries that yield their keys in the order of
    the map, a clock that stands still, and three results: a rejected
    file, an analysis, and an analysis whose skills are a string. *)
Definition keys_of_map (d : dict) : list string := (map_to_list d).*1.

Definition noon (i : nat) : string := "2024-05-17 12:00:00".

Definition rejected_record : dict :=
  {[ "error" := JStr (ERROR_MESSAGES "file_too_large"); "file_name" := JStr "scan.pdf" ]}.

Definition analysed_record : dict :=
  {[ "name" := JStr "Jane Doe";
     "skills" := JDict {[ "technical_skills" := JList [JStr "Python"; JStr "SQL"];
                          "soft_skills" := JStr "SQL" ]};
     "analysis_metadata" := JDict {[ "file_name" := JStr "ana.pdf";
                                     "processing_timestamp" := JStr "2024-05-17 09:30:00" ]} ]}.

Definition misshapen_record : dict :=
  {[ "name" := JStr "Bo Li"; "skills" := JStr "Python, SQL";
     "analysis_metadata" := JDict {[ "file_name" := JStr "bo.pdf" ]} ]}.

(** An analysis whose scores are a string. *)
Definition unscored_record : dict :=
  {[ "name" := JStr "Chen Wu"; "experience_scores" := JStr "8 out of 10";
     "analysis_metadata" := JDict {[ "file_name" := JStr "CHEN.PDF" ]} ]}.

(** The rows of the first two. *)
Definition exported_rows : list dict :=
  Eval vm_compute in
  match flatten_resume_data keys_of_map noon [rejected_record; analysed_record] with
  | Return rows => rows
  | Raise _ => []
  end.

(* ===================================================================== *)
(** * Part II: properties *)
(* ===================================================================== *)

(** ** Rounding to a float is monotone *)

Section Rounding.
Import Float64.
Local Open Scope Z_scope.

Lemma round_half_even_mono n1 m1 n2 m2 :
  0 < m1 → 0 < m2 → n1 * m2 ≤ n2 * m1 →
  round_half_even n1 m1 ≤ round_half_even n2 m2.
Proof.
  intros Hm1 Hm2 Hle. unfold round_half_even.
  pose proof (Z.div_mod n1 m1 ltac:(lia)) as E1.
  pose proof (Z.div_mod n2 m2 ltac:(lia)) as E2.
  pose proof (Z.mod_pos_bound n1 m1 Hm1) as B1.
  pose proof (Z.mod_pos_bound n2 m2 Hm2) as B2.
  set (q1 := n1 / m1) in *. set (r1 := n1 mod m1) in *.
  set (q2 := n2 / m2) in *. set (r2 := n2 mod m2) in *.
  assert (Hq : q1 ≤ q2).
  { destruct (Z_lt_le_dec q2 q1) as [Hlt|]; [|done]. exfalso.
    assert (n2 * m1 < (q2 + 1) * m2 * m1) by nia.
    assert ((q2 + 1) * m2 * m1 ≤ q1 * m1 * m2) by nia.
    nia. }
  destruct (Z.eq_dec q1 q2) as [Heq|Hne].
  - assert (Hr : r1 * m2 ≤ r2 * m1) by nia.
    rewrite <- Heq.
    repeat match goal with |- context [(?a <? ?b)] => destruct (Z.ltb_spec a b) end;
      destruct (Z.even q1); try lia; nia.
  - repeat match goal with |- context [(?a <? ?b)] => destruct (Z.ltb_spec a b) end;
      destruct (Z.even q1), (Z.even q2); lia.
Qed.

Lemma rneQ_mono x y : (x <= y)%Q → rneQ x ≤ rneQ y.
Proof. intros H. apply round_half_even_mono; [lia..|exact H]. Qed.

Lemma rneQ_inject_Z k : rneQ (inject_Z k) = k.
Proof.
  unfold rneQ, round_half_even. simpl. rewrite Z.div_1_r, Z.mod_1_r. reflexivity.
Qed.


Local Open Scope Q_scope.

Lemma pow2_pos e : 0 < 2 ^ e.
Proof. by apply Qpower_0_lt. Qed.

Lemma pow2_add a b : 2 ^ (a + b) == 2 ^ a * 2 ^ b.
Proof. by apply Qpower_plus. Qed.

Lemma pow2_le a b : (a ≤ b)%Z → 2 ^ a <= 2 ^ b.
Proof. intros H. by apply Qpower_le_compat_l. Qed.

Lemma pow2_inject n : (0 ≤ n)%Z → inject_Z (2 ^ n) == 2 ^ n.
Proof. intros H. by rewrite Zpower_Qpower. Qed.

Lemma log2_bounds_Q a :
  (0 < a)%Z → 2 ^ Z.log2 a <= inject_Z a ∧ inject_Z a < 2 ^ (Z.log2 a + 1).
Proof.
  intros Ha. destruct (Z.log2_spec a Ha) as [Hl Hu].
  pose proof (Z.log2_nonneg a) as Hn. split.
  - rewrite <- pow2_inject by done. by rewrite <- Zle_Qle.
  - rewrite <- pow2_inject by lia. rewrite <- Zlt_Qlt. exact Hu.
Qed.

(** [ilog2] is the binade of its argument. *)
Lemma ilog2_spec x : 0 < x → 2 ^ ilog2 x <= x ∧ x < 2 ^ (ilog2 x + 1).
Proof.
  destruct x as [a b]. intros Hx.
  assert (Ha : (0 < a)%Z) by (unfold Qlt in Hx; simpl in Hx; lia).
  destruct (log2_bounds_Q a Ha) as [Hal Hau].
  destruct (log2_bounds_Q (Zpos b) ltac:(lia)) as [Hbl Hbu].
  assert (HB : 0 < inject_Z (Zpos b)) by (rewrite <- (Zlt_Qlt 0); lia).
  unfold ilog2. cbn [Qnum Qden].
  set (la := Z.log2 a) in *. set (lb := Z.log2 (Zpos b)) in *.
  assert (Hup : a # b < 2 ^ (la - lb + 1)).
  { rewrite (Qmake_Qdiv a b). apply Qlt_shift_div_r; [done|].
    eapply Qlt_le_trans; [exact Hau|].
    replace (la + 1)%Z with ((la - lb + 1) + lb)%Z by lia.
    rewrite pow2_add. apply Qmult_le_l; [apply pow2_pos|done]. }
  assert (Hlo : 2 ^ (la - lb - 1) <= a # b).
  { rewrite (Qmake_Qdiv a b). apply Qle_shift_div_l; [done|].
    eapply Qle_trans; [|exact Hal].
    replace la with ((la - lb - 1) + (lb + 1))%Z at 2 by lia.
    rewrite pow2_add. apply Qmult_le_l; [apply pow2_pos|].
    by apply Qlt_le_weak. }
  destruct (Qle_bool (2 ^ (la - lb)) (a # b)) eqn:Hb.
  - apply Qle_bool_iff in Hb. by split.
  - split; [done|].
    replace (la - lb - 1 + 1)%Z with (la - lb)%Z by lia.
    apply Qnot_le_lt. intros Hc. apply Qle_bool_iff in Hc. congruence.
Qed.

Lemma ilog2_mono x y : 0 < x → x <= y → (ilog2 x ≤ ilog2 y)%Z.
Proof.
  intros Hx Hxy.
  assert (Hy : 0 < y) by (eapply Qlt_le_trans; done).
  destruct (ilog2_spec x Hx) as [Hxl _], (ilog2_spec y Hy) as [_ Hyu].
  destruct (Z_lt_le_dec (ilog2 y) (ilog2 x)) as [Hlt|]; [exfalso|done].
  apply (Qlt_irrefl y). eapply Qlt_le_trans; [exact Hyu|].
  eapply Qle_trans; [|exact Hxy]. eapply Qle_trans; [|exact Hxl].
  apply pow2_le. lia.
Qed.

(** Scaled by its binade, a positive number lies in [2^52, 2^53). *)
Lemma scaled_bounds x :
  0 < x → 2 ^ 52 <= x / 2 ^ (ilog2 x - 52) ∧ x / 2 ^ (ilog2 x - 52) < 2 ^ 53.
Proof.
  intros Hx. destruct (ilog2_spec x Hx) as [Hl Hu]. split.
  - apply Qle_shift_div_l; [apply pow2_pos|].
    rewrite <- pow2_add. by replace (52 + (ilog2 x - 52))%Z with (ilog2 x) by lia.
  - apply Qlt_shift_div_r; [apply pow2_pos|].
    rewrite <- pow2_add. by replace (53 + (ilog2 x - 52))%Z with (ilog2 x + 1)%Z by lia.
Qed.

Lemma significand_bounds x :
  0 < x → (2 ^ 52 ≤ rneQ (x / 2 ^ (ilog2 x - 52)) ≤ 2 ^ 53)%Z.
Proof.
  intros Hx. destruct (scaled_bounds x Hx) as [Hl Hu]. split.
  - rewrite <- (rneQ_inject_Z (2 ^ 52)). apply rneQ_mono.
    by rewrite pow2_inject.
  - rewrite <- (rneQ_inject_Z (2 ^ 53)). apply rneQ_mono.
    rewrite pow2_inject by done. by apply Qlt_le_weak.
Qed.

Lemma round_pos_mono x y : 0 < x → x <= y → round_pos x <= round_pos y.
Proof.
  intros Hx Hxy.
  assert (Hy : 0 < y) by (eapply Qlt_le_trans; done).
  pose proof (ilog2_mono x y Hx Hxy) as HL. unfold round_pos.
  destruct (Z.eq_dec (ilog2 x) (ilog2 y)) as [Heq|Hne].
  - rewrite Heq. apply Qmult_le_compat_r; [|apply Qlt_le_weak, pow2_pos].
    rewrite <- Zle_Qle. apply rneQ_mono.
    apply Qmult_le_compat_r; [done|]. apply Qlt_le_weak, Qinv_lt_0_compat, pow2_pos.
  - destruct (significand_bounds x Hx) as [_ Hux].
    destruct (significand_bounds y Hy) as [Hly _].
    apply Qle_trans with (2 ^ 53 * 2 ^ (ilog2 x - 52)).
    { apply Qmult_le_compat_r; [|apply Qlt_le_weak, pow2_pos].
      rewrite <- (pow2_inject 53) by done. by rewrite <- Zle_Qle. }
    apply Qle_trans with (2 ^ 52 * 2 ^ (ilog2 y - 52)).
    { rewrite <- !pow2_add. apply pow2_le. lia. }
    apply Qmult_le_compat_r; [|apply Qlt_le_weak, pow2_pos].
    rewrite <- (pow2_inject 52) by done. by rewrite <- Zle_Qle.
Qed.

Lemma round_pos_nonneg x : 0 < x → 0 <= round_pos x.
Proof.
  intros Hx. destruct (significand_bounds x Hx) as [Hl _]. unfold round_pos.
  apply Qmult_le_0_compat; [|apply Qlt_le_weak, pow2_pos].
  rewrite <- (Zle_Qle 0). lia.
Qed.

Lemma Qnum_sign x : (0 < Qnum x)%Z ↔ 0 < x.
Proof. unfold Qlt. simpl. lia. Qed.

(** Rounding to the nearest float never reverses an order. *)
Lemma round64_mono x y : x <= y → round64 x <= round64 y.
Proof.
  intros Hxy. unfold round64. rewrite !Qred_correct.
  assert (Hs : (Qnum x * Zpos (Qden y) ≤ Qnum y * Zpos (Qden x))%Z) by exact Hxy.
  destruct (Qnum x) as [|a|a] eqn:Ex, (Qnum y) as [|b|b] eqn:Ey; try lia.
  - apply Qle_refl.
  - apply round_pos_nonneg, Qnum_sign. lia.
  - apply round_pos_mono; [apply Qnum_sign; lia|done].
  - apply (Qopp_le_compat 0), round_pos_nonneg, Qnum_sign. simpl. lia.
  - apply Qle_trans with 0.
    + apply (Qopp_le_compat 0), round_pos_nonneg, Qnum_sign. simpl. lia.
    + apply round_pos_nonneg, Qnum_sign. lia.
  - apply Qopp_le_compat, round_pos_mono; [apply Qnum_sign; simpl; lia|].
    by apply Qopp_le_compat.
Qed.

(** The float of a rational does not depend on how the rational is
    written. *)
Lemma round64_proper x y : x == y → round64 x = round64 y.
Proof.
  intros H.
  assert (E : round64 x == round64 y)
    by (apply Qle_antisym; apply round64_mono; rewrite H; apply Qle_refl).
  unfold round64 in *. rewrite !Qred_correct in E. by apply Qred_complete.
Qed.

(** *** Rounding moves a number by at most one part in 2^53 *)






End Rounding.

(** ** The progress percentage *)

Section Progress.
Local Open Scope Q_scope.

Lemma truediv_mono p q n :
  (0 < n)%Z → (p ≤ q)%Z → Float64.truediv p n <= Float64.truediv q n.
Proof.
  intros Hn Hpq. apply round64_mono.
  apply Qmult_le_compat_r; [by rewrite <- Zle_Qle|].
  apply Qlt_le_weak, Qinv_lt_0_compat. rewrite <- (Zlt_Qlt 0). exact Hn.
Qed.

Lemma truediv_same n : (0 < n)%Z → Float64.truediv n n = 1.
Proof.
  intros Hn. unfold Float64.truediv.
  rewrite (round64_proper _ 1); [reflexivity|].
  apply Qmult_inv_r. intros H. unfold Qeq in H. simpl in H. lia.
Qed.

Lemma float_min_mono x y c : x <= y → Float64.min x c <= Float64.min y c.
Proof.
  intros Hxy. unfold Float64.min.
  destruct (Qle_bool x c) eqn:Hx, (Qle_bool y c) eqn:Hy.
  - done.
  - by apply Qle_bool_iff.
  - apply Qle_bool_iff in Hy. exfalso.
    assert (Qle_bool x c = true) by (apply Qle_bool_iff; by eapply Qle_trans).
    congruence.
  - apply Qle_refl.
Qed.

(** More files processed never lowers the percentage. *)
Lemma progress_mono p q n :
  (0 < n)%Z → (p ≤ q)%Z → progress p n <= progress q n.
Proof.
  intros Hn Hpq. unfold progress, Float64.mul.
  apply float_min_mono, round64_mono.
  apply Qmult_le_compat_r; [by apply truediv_mono|done].
Qed.

(** All files processed is 100 exactly. *)
Lemma progress_full n : (0 < n)%Z → progress n n = 100.
Proof. intros Hn. unfold progress. by rewrite truediv_same. Qed.

Lemma percent_le_100 s n :
  (0 < n)%Z → (s ≤ n)%Z → Float64.mul (Float64.truediv s n) 100 <= 100.
Proof.
  intros Hn Hs.
  replace (100 : Q) with (Float64.mul (Float64.truediv n n) 100) at 2
    by (by rewrite truediv_same).
  apply round64_mono. apply Qmult_le_compat_r; [by apply truediv_mono|done].
Qed.


End Progress.

(** ** White space *)

Section Strip.
Import Py.

Lemma list_ascii_app s1 s2 :
  list_ascii_of_string (s1 +:+ s2) = list_ascii_of_string s1 ++ list_ascii_of_string s2.
Proof. induction s1 as [|c s1 IH]; [done|]. simpl. by rewrite IH. Qed.

Lemma string_of_list_app l1 l2 :
  string_of_list_ascii (l1 ++ l2) = string_of_list_ascii l1 +:+ string_of_list_ascii l2.
Proof. induction l1 as [|c l1 IH]; [done|]. simpl. by rewrite IH. Qed.

Lemma whitespace_nonempty ws : ws ∈ whitespace → 0 < length ws.
Proof.
  intros Hws. assert (H : Forall (λ ws, 0 < length ws) whitespace).
  { unfold whitespace. repeat constructor. }
  by apply (proj1 (Forall_forall _ _) H).
Qed.

(** What a line starts with: a white space character of the width
    [leading_space] says, or none when it says 0. *)
Lemma leading_space_spec l :
  match leading_space l with
  | O => ∀ ws, ws ∈ whitespace → take (length ws) l ≠ ws
  | k => ∃ ws, ws ∈ whitespace ∧ length ws = k ∧ l = ws ++ drop k l
  end.
Proof.
  unfold leading_space.
  destruct (List.find _ whitespace) as [ws|] eqn:Hfind; cbn [from_option].
  - apply find_some in Hfind as [Hin Htake].
    apply list_elem_of_In in Hin. apply bool_decide_eq_true in Htake.
    pose proof (whitespace_nonempty ws Hin) as Hpos.
    destruct (length ws) as [|k] eqn:Hlen; [lia|].
    exists ws. split; [done|]. split; [done|].
    pose proof (take_drop (S k) l) as Hl. by rewrite Htake in Hl.
  - intros ws Hin. apply list_elem_of_In in Hin.
    pose proof (find_none _ _ Hfind ws Hin) as Hno. cbn beta in Hno.
    by apply bool_decide_eq_false in Hno.
Qed.

Lemma trailing_space_spec l :
  match trailing_space l with
  | O => ∀ ws, ws ∈ whitespace → drop (length l - length ws) l ≠ ws
  | k => ∃ ws, ws ∈ whitespace ∧ length ws = k ∧ l = take (length l - k) l ++ ws
  end.
Proof.
  unfold trailing_space.
  destruct (List.find _ whitespace) as [ws|] eqn:Hfind; cbn [from_option].
  - apply find_some in Hfind as [Hin Hdrop].
    apply list_elem_of_In in Hin. apply bool_decide_eq_true in Hdrop.
    pose proof (whitespace_nonempty ws Hin) as Hpos.
    destruct (length ws) as [|k] eqn:Hlen; [lia|].
    exists ws. split; [done|]. split; [done|].
    pose proof (take_drop (length l - S k) l) as Hl. by rewrite Hdrop in Hl.
  - intros ws Hin. apply list_elem_of_In in Hin.
    pose proof (find_none _ _ Hfind ws Hin) as Hno. cbn beta in Hno.
    by apply bool_decide_eq_false in Hno.
Qed.

Lemma lstrip_from_spec fuel l :
  ∃ chars, Forall (λ ws, ws ∈ whitespace) chars
           ∧ l = concat chars ++ lstrip_from fuel l
           ∧ (length l ≤ fuel → leading_space (lstrip_from fuel l) = 0).
Proof.
  revert l. induction fuel as [|fuel IH]; intros l.
  { exists []. split; [done|]. split; [done|]. intros Hl.
    by destruct l; [|simpl in Hl; lia]. }
  cbn [lstrip_from]. pose proof (leading_space_spec l) as Hspec.
  destruct (leading_space l) as [|k] eqn:Hk.
  { exists []. by repeat split. }
  destruct Hspec as (ws & Hin & Hlen & Hl).
  destruct (IH (drop (S k) l)) as (chars & Hchars & Hrest & Hdone).
  exists (ws :: chars). split; [by constructor|]. split.
  - cbn [concat]. rewrite <- app_assoc, <- Hrest. exact Hl.
  - intros Hfuel. apply Hdone. rewrite length_drop. lia.
Qed.

Lemma rstrip_from_spec fuel l :
  ∃ chars, Forall (λ ws, ws ∈ whitespace) chars
           ∧ l = rstrip_from fuel l ++ concat chars
           ∧ (length l ≤ fuel → trailing_space (rstrip_from fuel l) = 0).
Proof.
  revert l. induction fuel as [|fuel IH]; intros l.
  { exists []. split; [done|]. split; [by rewrite app_nil_r|]. intros Hl.
    by destruct l; [|simpl in Hl; lia]. }
  cbn [rstrip_from]. pose proof (trailing_space_spec l) as Hspec.
  destruct (trailing_space l) as [|k] eqn:Hk.
  { exists []. split; [done|]. split; [by rewrite app_nil_r|done]. }
  destruct Hspec as (ws & Hin & Hlen & Hl).
  destruct (IH (take (length l - S k) l)) as (chars & Hchars & Hrest & Hdone).
  exists (chars ++ [ws]).
  split; [apply Forall_app; split; [done|by constructor]|]. split.
  - rewrite concat_app. cbn [concat]. rewrite app_nil_r, app_assoc, <- Hrest. exact Hl.
  - intros Hfuel. apply Hdone. rewrite length_take. lia.
Qed.

(** The end of a suffix is the end of the whole. *)
Lemma trailing_space_suffix pre l :
  trailing_space (pre ++ l) = 0 → trailing_space l = 0.
Proof.
  intros Hwhole. pose proof (trailing_space_spec (pre ++ l)) as Hno.
  rewrite Hwhole in Hno.
  pose proof (trailing_space_spec l) as Hspec.
  destruct (trailing_space l) as [|k]; [done|]. exfalso.
  destruct Hspec as (ws & Hin & Hlen & Hl).
  apply (Hno ws Hin). rewrite Hl at 2. rewrite app_assoc.
  rewrite length_app, Hlen.
  assert (Hk : S k ≤ length l).
  { rewrite Hl, length_app. lia. }
  replace (length pre + length l - S k)
    with (length (pre ++ take (length l - S k) l))
    by (rewrite length_app, length_take; lia).
  apply drop_app_length.
Qed.

(** [strip] takes white space, and nothing else, off both ends, and
    leaves none at either end. *)
Lemma strip_spec (s : string) :
  ∃ before after,
    s = before +:+ strip s +:+ after
    ∧ spaces before ∧ spaces after
    ∧ leading_space (list_ascii_of_string (strip s)) = 0
    ∧ trailing_space (list_ascii_of_string (strip s)) = 0.
Proof.
  unfold strip, lstrip, rstrip. cbv zeta.
  set (l := list_ascii_of_string s).
  rewrite !list_ascii_of_string_of_list_ascii.
  destruct (rstrip_from_spec (length l) l) as (post & Hpost & Hl & Hend).
  set (r := rstrip_from (length l) l) in *.
  destruct (lstrip_from_spec (length r) r) as (pre & Hpre & Hr & Hstart).
  set (t := lstrip_from (length r) r) in *.
  exists (string_of_list_ascii (concat pre)), (string_of_list_ascii (concat post)).
  split; [|split; [|split; [|split]]].
  - rewrite <- !string_of_list_app, app_assoc, <- Hr, <- Hl. unfold l.
    by rewrite string_of_list_ascii_of_string.
  - exists pre. by rewrite list_ascii_of_string_of_list_ascii.
  - exists post. by rewrite list_ascii_of_string_of_list_ascii.
  - by apply Hstart.
  - apply (trailing_space_suffix (concat pre)). rewrite <- Hr. by apply Hend.
Qed.

End Strip.

(** ** Traces *)

Section Traces.

Lemma orchestration_app w1 w2 :
  orchestration (w1 ++ w2) = orchestration w1 ++ orchestration w2.
Proof. apply List.filter_app. Qed.

Lemma orchestration_tasks evs : Forall task_event evs → orchestration evs = [].
Proof.
  induction 1 as [|e evs He _ IH]; [done|].
  unfold orchestration in *. simpl. by rewrite He.
Qed.

Lemma progress_values_app w1 w2 :
  progress_values (w1 ++ w2) = progress_values w1 ++ progress_values w2.
Proof. apply omap_app. Qed.


Lemma progress_values_orchestration w :
  progress_values (orchestration w) = progress_values w.
Proof.
  induction w as [|e w IH]; [done|].
  destruct e; simpl; rewrite ?IH; try done; unfold progress_values in *; simpl; by rewrite IH.
Qed.


Lemma model_calls_app w1 w2 : model_calls (w1 ++ w2) = model_calls w1 ++ model_calls w2.
Proof. apply omap_app. Qed.

Lemma extractions_app w1 w2 : extractions (w1 ++ w2) = extractions w1 ++ extractions w2.
Proof. apply omap_app. Qed.

Context (cfg : Config) (env : Env).

(** The [try] block performs one extraction, then at most one model call,
    and nothing else. *)
Lemma analyze_try_trace file_path file_name w :
  ∃ evs, (analyze_try env file_path file_name w).2 = w ++ evs
         ∧ Forall task_event evs.
Proof.
  unfold analyze_try.
  destruct (extract_text_from_file env w file_path) as [text|e].
  - destruct (generate_content env _ _) as [raw|e];
      [destruct (json_loads env _)|];
      (eexists [_; _]; split; [by rewrite <- app_assoc|by repeat constructor]).
  - eexists [_]. split; [done|by repeat constructor].
Qed.

Lemma analyze_single_resume_trace file_path file_name w :
  (analyze_single_resume env file_path file_name w).2
  = (analyze_try env file_path file_name w).2.
Proof.
  unfold analyze_single_resume.
  destruct (analyze_try env file_path file_name w) as [[response [d|[msg|msg]]] w']; done.
Qed.

(** A task only adds events of its own to the trace. *)
Lemma process_file_trace file w :
  ∃ evs, (process_file env file w).2 = w ++ evs ∧ Forall task_event evs.
Proof.
  unfold process_file. destruct (validate_file file) as [[] error_msg]; simpl.
  - destruct (save_uploaded_file env w file) as [path|e].
    + destruct (analyze_try_trace path (uf_name file) (w ++ [EvSave (uf_name file)]))
        as (evs & Hevs & Htask).
      rewrite <- analyze_single_resume_trace in Hevs.
      destruct (analyze_single_resume env path _ _) as [result w2]. simpl in *. subst w2.
      exists ([EvSave (uf_name file)] ++ evs ++ [EvCleanup path]). split.
      * by rewrite <- !app_assoc.
      * repeat first [apply Forall_app; split | apply Forall_cons; split
                     | apply Forall_nil | done].
    + exists [EvSave (uf_name file)]. split; [done|by repeat constructor].
  - exists []. split; [by rewrite app_nil_r|constructor].
Qed.

End Traces.

(** ** One chunk: [asyncio.gather] *)

Section Gather.
Context (cfg : Config) (env : Env).

Lemma produced_weaken w1 w2 w1' w2' file d :
  w1' `prefix_of` w1 → w2 `prefix_of` w2' →
  produced env w1 w2 file d → produced env w1' w2' file d.
Proof.
  intros H1 H2 (w_k & Ha & Hb & Hd). exists w_k.
  split; [by etrans|]. split; [by etrans|done].
Qed.

Lemma run_task_inv batch w0 st k :
  gather_inv env batch w0 st → gather_inv env batch w0 (run_task env batch st k).
Proof.
  intros Hinv. pose proof Hinv as (Hlen & (evs & Hevs & Htask) & Hslots).
  unfold run_task.
  destruct (batch !! k) as [file|] eqn:Hfile; [|done].
  destruct (st.1 !! k) as [[r|]|] eqn:Hk; try done.
  destruct (process_file_trace env file st.2) as (evs' & Hevs' & Htask').
  destruct (process_file env file st.2) as [r w'] eqn:Hrun. simpl in Hevs'.
  unfold gather_inv. cbn [fst snd].
  split; [by rewrite length_insert|]. split.
  - exists (evs ++ evs'). rewrite Hevs', Hevs, <- app_assoc.
    split; [done|by apply Forall_app].
  - intros k' r' Hk'.
    destruct (decide (k = k')) as [<-|Hne].
    + rewrite list_lookup_insert_eq in Hk' by (by eapply lookup_lt_Some).
      injection Hk' as <-. exists file, st.2. rewrite Hrun. cbn [fst snd].
      split; [done|]. split; [rewrite Hevs; by apply prefix_app_r|done].
    + rewrite list_lookup_insert_ne in Hk' by done.
      destruct (Hslots k' r' Hk') as (file' & w_k & Hf & Hpre & Hpost & Hr).
      exists file', w_k. split; [done|]. split; [done|]. split; [|done].
      etrans; [exact Hpost|]. rewrite Hevs'. by apply prefix_app_r.
Qed.

Lemma run_task_filled batch st k k' r :
  st.1 !! k' = Some (Some r) → ∃ r', (run_task env batch st k).1 !! k' = Some (Some r').
Proof.
  intros Hk'. unfold run_task.
  destruct (batch !! k) as [file|]; [|by eauto].
  destruct (st.1 !! k) as [[r0|]|] eqn:Hk; try by eauto.
  destruct (process_file env file st.2) as [r1 w']. cbn [fst].
  destruct (decide (k = k')) as [<-|Hne]; [congruence|].
  rewrite list_lookup_insert_ne by done. eauto.
Qed.

Lemma run_task_fills batch st k :
  length st.1 = length batch → k < length batch →
  ∃ r, (run_task env batch st k).1 !! k = Some (Some r).
Proof.
  intros Hlen Hk. unfold run_task.
  destruct (lookup_lt_is_Some_2 batch k Hk) as [file ->].
  destruct (lookup_lt_is_Some_2 st.1 k ltac:(lia)) as [[r|] Hs]; rewrite Hs; [by eauto|].
  destruct (process_file env file st.2) as [r w']. cbn [fst].
  exists r. apply list_lookup_insert_eq. lia.
Qed.

Lemma foldl_run_task_inv batch w0 order st :
  gather_inv env batch w0 st → gather_inv env batch w0 (foldl (run_task env batch) st order).
Proof.
  revert st. induction order as [|k order IH]; intros st Hst; [done|].
  simpl. apply IH. by apply run_task_inv.
Qed.

Lemma foldl_run_task_filled batch order st k :
  length st.1 = length batch → k < length batch →
  (k ∈ order ∨ ∃ r, st.1 !! k = Some (Some r)) →
  ∃ r, (foldl (run_task env batch) st order).1 !! k = Some (Some r).
Proof.
  revert st. induction order as [|k0 order IH]; intros st Hlen Hk Hin.
  - destruct Hin as [Hin|Hin]; [by apply elem_of_nil in Hin|done].
  - simpl. apply IH; [|done|].
    + unfold run_task. destruct (batch !! k0); [|done].
      destruct (st.1 !! k0) as [[|]|]; try done.
      destruct (process_file env _ _). cbn [fst]. by rewrite length_insert.
    + destruct Hin as [Hin|[r Hr]].
      * apply elem_of_cons in Hin as [->|Hin]; [|by left].
        right. by apply run_task_fills.
      * right. by eapply run_task_filled.
Qed.

(** With capacity in the semaphore and every task run, the gather
    completes; its results stand in the order of the tasks, each the
    result of its own task. *)
Lemma gather_spec order batch w :
  (0 < MAX_CONCURRENT_REQUESTS cfg)%Z →
  (∀ k, k < length batch → k ∈ order) →
  ∃ batch_results evs,
    gather cfg env order batch w
    = (Some batch_results, w ++ [EvGather (length batch)] ++ evs)
    ∧ Forall task_event evs
    ∧ Forall2 (produced env w (w ++ [EvGather (length batch)] ++ evs))
              batch (zip_with settle batch batch_results)
    ∧ length batch_results = length batch.
Proof.
  intros Hcap Hfair. unfold gather.
  destruct (Z.leb_spec (MAX_CONCURRENT_REQUESTS cfg) 0) as [|_]; [lia|].
  set (w0 := w ++ [EvGather (length batch)]).
  set (st0 := (replicate (length batch) None, w0) : list (option (except dict)) * trace).
  assert (Hinv0 : gather_inv env batch w0 st0).
  { unfold gather_inv, st0. cbn [fst snd].
    split; [by rewrite length_replicate|]. split.
    - exists []. by rewrite app_nil_r.
    - intros k r Hk. apply lookup_replicate in Hk as [? _]. done. }
  pose proof (foldl_run_task_inv batch w0 order st0 Hinv0) as (Hlen & (evs & Hevs & Htask) & Hslots).
  assert (Hfilled : ∀ k, k < length batch →
            ∃ r, (foldl (run_task env batch) st0 order).1 !! k = Some (Some r)).
  { intros k Hk. apply foldl_run_task_filled; [|done|left; by apply Hfair].
    unfold st0. cbn [fst]. by rewrite length_replicate. }
  destruct (foldl (run_task env batch) st0 order) as [slots w'] eqn:Hfold.
  cbn [fst snd] in *. subst w'.
  assert (HSome : is_Some (mapM id slots)).
  { apply mapM_is_Some, Forall_lookup. intros k o Hk.
    destruct (Hfilled k) as [r Hr]; [rewrite <- Hlen; by eapply lookup_lt_Some|].
    rewrite Hk in Hr. injection Hr as ->. by eexists. }
  destruct HSome as [rs Hrs]. rewrite Hrs.
  apply mapM_Some in Hrs.
  assert (Hlen_rs : length rs = length batch)
    by (rewrite <- Hlen; symmetry; by eapply Forall2_length).
  exists rs, evs. unfold w0. rewrite <- !app_assoc. simpl.
  split; [done|]. split; [done|]. split; [|done].
  apply Forall2_same_length_lookup. split.
  { rewrite length_zip_with. lia. }
  intros k file d Hfile Hd.
  apply lookup_zip_with_Some in Hd as (file' & r & -> & Hfile' & Hr).
  assert (file' = file) as -> by congruence.
  assert (Hslot : slots !! k = Some (Some r)).
  { destruct (Forall2_lookup_r _ _ _ _ _ Hrs Hr) as (o & Ho & Hid). simpl in Hid. by subst o. }
  destruct (Hslots k r Hslot) as (file'' & w_k & Hf & Hpre & Hpost & ->).
  assert (file'' = file) as -> by congruence.
  exists w_k. split; [|split; [|done]].
  - etrans; [|exact Hpre]. by apply prefix_app_r.
  - unfold w0 in Hpost. by rewrite <- app_assoc in Hpost.
Qed.

End Gather.

(** ** The loop over the chunks *)

Section Loop.
Context (cfg : Config) (env : Env) (sched : scheduler).
Context (files : list UploadedFile) (progress_callback : bool).

Lemma chunk_events_orchestration i :
  orchestration (chunk_events cfg files progress_callback i)
  = chunk_events cfg files progress_callback i.
Proof.
  unfold chunk_events. destruct progress_callback, (_ <? _)%Z; reflexivity.
Qed.

(** The loop completes.  It appends one outcome per file of each chunk, in
    the order of the files, and performs the orchestrator's events chunk
    after chunk. *)
Lemma batch_loop_spec starts results w :
  (0 < MAX_CONCURRENT_REQUESTS cfg)%Z → fair sched →
  ∃ rest evs,
    batch_loop cfg env sched files progress_callback starts results w
    = Done (results ++ rest, w ++ evs)
    ∧ Forall2 (produced env w (w ++ evs)) (starts ≫= chunk cfg files) rest
    ∧ orchestration evs = starts ≫= chunk_events cfg files progress_callback.
Proof.
  intros Hcap Hfair. revert results w.
  induction starts as [|i starts IH]; intros results w.
  { exists [], []. rewrite !app_nil_r. by repeat split. }
  cbn [batch_loop].
  destruct (gather_spec cfg env (sched i (length (chunk cfg files i)))
              (chunk cfg files i) w Hcap ltac:(intros; by apply Hfair))
    as (rs & evs1 & -> & Htask & Hprod & Hlen).
  set (evs2 := if progress_callback
               then [EvProgress (progress (i + Z.of_nat (length (chunk cfg files i)))
                                          (Z.of_nat (length files)))]
               else []).
  set (evs3 := if (i + BATCH_SIZE cfg <? Z.of_nat (length files))%Z
               then [EvSleep (RATE_LIMIT_DELAY cfg)] else []).
  set (here := [EvGather (length (chunk cfg files i))] ++ evs1 ++ evs2 ++ evs3).
  match goal with
  | |- ∃ _ _, batch_loop _ _ _ _ _ _ ?res ?w3 = _ ∧ _ =>
      assert (Hw3 : w3 = w ++ here);
      [|rewrite Hw3; destruct (IH res (w ++ here)) as (rest & evs & -> & Hrest & Horch)]
  end.
  { unfold here, evs2, evs3.
    destruct progress_callback, (_ <? _)%Z; by rewrite <- ?app_assoc, ?app_nil_r. }
  exists (zip_with settle (chunk cfg files i) rs ++ rest), (here ++ evs).
  rewrite <- !app_assoc. split; [done|]. split.
  - cbn [mbind list_bind]. apply Forall2_app.
    + eapply Forall2_impl; [exact Hprod|]. intros file d.
      apply produced_weaken; [done|].
      exists (evs2 ++ evs3 ++ evs). unfold here. by rewrite <- !app_assoc.
    + eapply Forall2_impl; [exact Hrest|]. intros file d.
      apply produced_weaken; [by apply prefix_app_r|by rewrite <- !app_assoc].
  - rewrite orchestration_app, Horch. cbn [mbind list_bind]. f_equal.
    unfold here. rewrite !orchestration_app, (orchestration_tasks evs1 Htask).
    rewrite <- (chunk_events_orchestration i). unfold chunk_events.
    by rewrite !orchestration_app.
Qed.

End Loop.

(** ** The chunks cover the input *)

Section Chunks.
Context (cfg : Config) (files : list UploadedFile).

Hypothesis size_positive : (0 < BATCH_SIZE cfg)%Z.

Lemma range_chunks :
  Py.range (Z.of_nat (length files)) (BATCH_SIZE cfg)
  = Some (chunk_start cfg <$> seq 0 (chunk_count cfg files)).
Proof.
  unfold Py.range.
  destruct (Z.eqb_spec (BATCH_SIZE cfg) 0); [lia|].
  destruct (Z.ltb_spec (BATCH_SIZE cfg) 0); [lia|reflexivity].
Qed.

Lemma chunk_at k :
  chunk cfg files (chunk_start cfg k)
  = take (Z.to_nat (BATCH_SIZE cfg)) (drop (k * Z.to_nat (BATCH_SIZE cfg)) files).
Proof. unfold chunk, chunk_start. do 2 f_equal. nia. Qed.

Lemma chunks_take m a :
  (chunk_start cfg <$> seq a m) ≫= chunk cfg files
  = take (m * Z.to_nat (BATCH_SIZE cfg)) (drop (a * Z.to_nat (BATCH_SIZE cfg)) files).
Proof.
  revert a. induction m as [|m IH]; intros a; [done|].
  cbn [seq fmap list_fmap mbind list_bind].
  change (foldr _ _ _) with ((chunk_start cfg <$> seq (S a) m) ≫= chunk cfg files).
  rewrite IH, chunk_at.
  replace (S a * Z.to_nat (BATCH_SIZE cfg))
    with (a * Z.to_nat (BATCH_SIZE cfg) + Z.to_nat (BATCH_SIZE cfg)) by lia.
  rewrite <- drop_drop, take_take_drop. done.
Qed.

Lemma chunk_count_covers :
  length files ≤ chunk_count cfg files * Z.to_nat (BATCH_SIZE cfg).
Proof.
  unfold chunk_count.
  set (n := Z.of_nat (length files)). set (B := BATCH_SIZE cfg) in *.
  pose proof (Z.mul_succ_div_gt (n + B - 1) B size_positive) as Hgt.
  assert (0 ≤ (n + B - 1) / B)%Z by (apply Z.div_pos; lia).
  nia.
Qed.

Lemma chunk_count_positive : 0 < chunk_count cfg files → 0 < length files.
Proof.
  unfold chunk_count. destruct files; [|simpl; lia].
  simpl. rewrite Z.div_small by lia. lia.
Qed.

(** Concatenated in order, the chunks are the input. *)
Lemma chunks_cover :
  (chunk_start cfg <$> seq 0 (chunk_count cfg files)) ≫= chunk cfg files = files.
Proof.
  rewrite chunks_take. simpl. apply take_ge, chunk_count_covers.
Qed.

(** A chunk is followed by another one exactly when the loop sleeps
    after it. *)
Lemma sleeps_iff_not_last k :
  (chunk_start cfg k + BATCH_SIZE cfg <? Z.of_nat (length files))%Z
  = bool_decide (S k < chunk_count cfg files).
Proof.
  unfold chunk_start, chunk_count.
  set (n := Z.of_nat (length files)). set (B := BATCH_SIZE cfg) in *.
  assert (Hq : (0 ≤ (n + B - 1) / B)%Z) by (apply Z.div_pos; lia).
  pose proof (Z.mul_succ_div_gt (n + B - 1) B size_positive) as Hgt.
  pose proof (Z.mul_div_le (n + B - 1) B size_positive) as Hle.
  destruct (Z.ltb_spec (Z.of_nat k * B + B) n); case_bool_decide; try done; nia.
Qed.

(** The files processed once chunk [k] is done: [min((k + 1) * size, n)]. *)
Lemma processed_after k :
  k < chunk_count cfg files →
  (chunk_start cfg k + Z.of_nat (length (chunk cfg files (chunk_start cfg k))))%Z
  = Z.min (Z.of_nat (S k) * BATCH_SIZE cfg) (Z.of_nat (length files)).
Proof.
  intros Hk. rewrite chunk_at, length_take, length_drop. unfold chunk_start, chunk_count in *.
  set (n := length files) in *. set (B := BATCH_SIZE cfg) in *.
  assert (Hq : (0 ≤ (Z.of_nat n + B - 1) / B)%Z) by (apply Z.div_pos; lia).
  pose proof (Z.mul_div_le (Z.of_nat n + B - 1) B size_positive) as Hle.
  nia.
Qed.

Lemma chunk_length k :
  length (chunk cfg files (chunk_start cfg k))
  = Nat.min (Z.to_nat (BATCH_SIZE cfg)) (length files - k * Z.to_nat (BATCH_SIZE cfg)).
Proof. by rewrite chunk_at, length_take, length_drop. Qed.

End Chunks.

(** ** The batch run *)

Section BatchRun.
Context (cfg : Config) (env : Env) (sched : scheduler).
Context (files : list UploadedFile) (progress_callback : bool).

(** The run completes with one outcome per file, each produced by the task
    of the file at the same index, and performs the orchestrator's events
    chunk after chunk. *)
Lemma process_batch_spec w :
  (0 < BATCH_SIZE cfg)%Z → (0 < MAX_CONCURRENT_REQUESTS cfg)%Z → fair sched →
  ∃ results evs,
    process_batch cfg env sched files progress_callback w = Done (results, w ++ evs)
    ∧ Forall2 (produced env w (w ++ evs)) files results
    ∧ orchestration evs
      = seq 0 (chunk_count cfg files)
        ≫= (λ k, chunk_events cfg files progress_callback (chunk_start cfg k)).
Proof.
  intros Hsize Hcap Hfair. unfold process_batch.
  destruct (Z.ltb_spec (MAX_CONCURRENT_REQUESTS cfg) 0); [lia|].
  rewrite range_chunks by done.
  destruct (batch_loop_spec cfg env sched files progress_callback
              (chunk_start cfg <$> seq 0 (chunk_count cfg files)) [] w Hcap Hfair)
    as (results & evs & Hrun & Hprod & Horch).
  exists results, evs. split; [done|]. split.
  - by rewrite chunks_cover in Hprod.
  - rewrite Horch. generalize (seq 0 (chunk_count cfg files)).
    induction l as [|k l IH]; [done|]. cbn [fmap list_fmap mbind list_bind].
    f_equal. exact IH.
Qed.

End BatchRun.

(** Observations of a trace made chunk by chunk. *)
Lemma observe_chunks {A} (obs : trace → list A) (f : nat → trace) (g : nat → list A)
    (l : list nat) :
  (∀ a b, obs (a ++ b) = obs a ++ obs b) → obs [] = [] →
  (∀ k, k ∈ l → obs (f k) = g k) →
  obs (l ≫= f) = l ≫= g.
Proof.
  intros Happ Hnil. induction l as [|k l IH]; intros Hfg; [done|].
  cbn [mbind list_bind]. rewrite Happ, Hfg by (by left).
  f_equal. apply IH. intros k' Hk'. apply Hfg. by right.
Qed.

Lemma bind_singleton {A B} (f : A → B) (l : list A) : l ≫= (λ x, [f x]) = f <$> l.
Proof. induction l as [|x l IH]; [done|]. simpl. by f_equal. Qed.


Lemma fifo_fair : fair Sample.fifo.
Proof. intros i n k Hk. apply elem_of_seq. lia. Qed.

Lemma lifo_fair : fair Sample.lifo.
Proof.
  intros i n k Hk. unfold Sample.lifo.
  apply list_elem_of_In. rewrite <- in_rev. apply in_seq. lia.
Qed.

(** ** Claims about the batch run *)

Section BatchClaims.
Context (cfg : Config) (env : Env) (sched : scheduler).

(** C1. For every input sequence of files, [process_batch] returns exactly
    one outcome per input item: the returned list is as long as the input
    list, and the outcome at index [i] is the one that the task of the file
    at index [i] produced during the run, whatever the order in which the
    event loop ran the tasks of a chunk. *)
Theorem process_batch_preserves_order files progress_callback w :
  (0 < BATCH_SIZE cfg)%Z → (0 < MAX_CONCURRENT_REQUESTS cfg)%Z → fair sched →
  ∃ results w',
    process_batch cfg env sched files progress_callback w = Done (results, w')
    ∧ length results = length files
    ∧ ∀ i file, files !! i = Some file →
        ∃ w_i, w `prefix_of` w_i
               ∧ (process_file env file w_i).2 `prefix_of` w'
               ∧ results !! i = Some (settle file (process_file env file w_i).1).
Proof.
  intros Hsize Hcap Hfair.
  destruct (process_batch_spec cfg env sched files progress_callback w Hsize Hcap Hfair)
    as (results & evs & Hrun & Hprod & _).
  exists results, (w ++ evs). split; [done|].
  split; [symmetry; by eapply Forall2_length|].
  intros i file Hfile.
  destruct (Forall2_lookup_l _ _ _ _ _ Hprod Hfile) as (d & Hd & w_i & Hpre & Hpost & ->).
  by exists w_i.
Qed.

(** C2. A task that raises does not abort the run: [process_batch]
    completes, and at the index of every file whose task raised stands a
    failure record made of the text of the exception and of the name of
    that file, while the files whose task returned keep what it returned. *)
Theorem process_batch_isolates_failures files progress_callback w :
  (0 < BATCH_SIZE cfg)%Z → (0 < MAX_CONCURRENT_REQUESTS cfg)%Z → fair sched →
  ∃ results w',
    process_batch cfg env sched files progress_callback w = Done (results, w')
    ∧ ∀ i file, files !! i = Some file →
        ∃ w_i, w `prefix_of` w_i
               ∧ (process_file env file w_i).2 `prefix_of` w'
               ∧ match (process_file env file w_i).1 with
                 | Raise e =>
                     results !! i
                     = Some {[ "error" := JStr ("Processing error: " +:+ str e);
                               "file_name" := JStr (uf_name file) ]}
                     ∧ ∀ d, results !! i = Some d → has_error d = true
                 | Return d => results !! i = Some d
                 end.
Proof.
  intros Hsize Hcap Hfair.
  destruct (process_batch_spec cfg env sched files progress_callback w Hsize Hcap Hfair)
    as (results & evs & Hrun & Hprod & _).
  exists results, (w ++ evs). split; [done|].
  intros i file Hfile.
  destruct (Forall2_lookup_l _ _ _ _ _ Hprod Hfile) as (d & Hd & w_i & Hpre & Hpost & ->).
  exists w_i. split; [done|]. split; [done|].
  destruct (process_file env file w_i).1 as [d|e]; [done|].
  split; [done|]. intros d. rewrite Hd. intros [= <-]. done.
Qed.

End BatchClaims.

Section ProgressClaims.
Context (cfg : Config) (env : Env) (sched : scheduler).

(** The orchestrator's events of a whole run, chunk by chunk. *)
Lemma process_batch_orchestration files progress_callback w :
  (0 < BATCH_SIZE cfg)%Z → (0 < MAX_CONCURRENT_REQUESTS cfg)%Z → fair sched →
  ∃ results evs,
    process_batch cfg env sched files progress_callback w = Done (results, w ++ evs)
    ∧ length results = length files
    ∧ orchestration evs
      = seq 0 (chunk_count cfg files) ≫= (λ k,
          [EvGather (Nat.min (Z.to_nat (BATCH_SIZE cfg))
                             (length files - k * Z.to_nat (BATCH_SIZE cfg)))]
          ++ (if progress_callback
              then [EvProgress (progress (Z.min (Z.of_nat (S k) * BATCH_SIZE cfg)
                                                (Z.of_nat (length files)))
                                         (Z.of_nat (length files)))]
              else [])
          ++ (if bool_decide (S k < chunk_count cfg files)
              then [EvSleep (RATE_LIMIT_DELAY cfg)]
              else [])).
Proof.
  intros Hsize Hcap Hfair.
  destruct (process_batch_spec cfg env sched files progress_callback w Hsize Hcap Hfair)
    as (results & evs & Hrun & Hprod & Horch).
  exists results, evs. split; [done|].
  split; [symmetry; by eapply Forall2_length|].
  rewrite Horch.
  apply (observe_chunks (λ t, t)); [done..|].
  intros k Hk. apply elem_of_seq in Hk. unfold chunk_events.
  rewrite processed_after, chunk_length, sleeps_iff_not_last by (done || lia).
  done.
Qed.



End ProgressClaims.

(** ** One resume: [analyze_single_resume] *)

Section Analysis.
Context (env : Env).

Lemma add_metadata_stamps d md file_name now :
  d !! "analysis_metadata" = Some (JDict md) →
  add_metadata (JDict d) file_name now
  = Return (<["analysis_metadata" :=
               JDict (<["processing_timestamp" := JStr now]>
                     (<["file_name" := JStr file_name]> md))]> d).
Proof.
  intros Hmd. unfold add_metadata, setitem_in, getitem. rewrite Hmd. cbn [setitem].
  rewrite lookup_insert_eq. cbn [setitem]. by rewrite insert_insert_eq.
Qed.

Lemma add_metadata_raises v file_name now :
  stampable v = false → ∃ msg, add_metadata v file_name now = Raise (Exception msg).
Proof.
  intros Hv. unfold add_metadata, setitem_in, getitem.
  destruct v as [| | | | | |d]; try by eexists.
  simpl in Hv.
  destruct (d !! "analysis_metadata") as [[| | | | | |md]|]; try done; by eexists.
Qed.

Lemma add_metadata_returns v file_name now d :
  add_metadata v file_name now = Return d →
  ∃ d0 md0, v = JDict d0 ∧ d0 !! "analysis_metadata" = Some (JDict md0)
    ∧ d = <["analysis_metadata" :=
             JDict (<["processing_timestamp" := JStr now]>
                   (<["file_name" := JStr file_name]> md0))]> d0.
Proof.
  intros Hret. destruct (stampable v) eqn:Hv.
  - destruct v as [| | | | | |d0]; try done. simpl in Hv.
    destruct (d0 !! "analysis_metadata") as [[| | | | | |md0]|] eqn:Hmd; try done.
    rewrite (add_metadata_stamps d0 md0 _ _ Hmd) in Hret. injection Hret as <-.
    by exists d0, md0.
  - destruct (add_metadata_raises v file_name now Hv) as [msg Hmsg]. congruence.
Qed.

(** An extraction raises when its [try] block does, and then a plain
    exception whose text is the prefix of [extract_text_from_file] followed
    by the text of the cause. *)
Lemma extract_text_raises w file_path e :
  extract_text_from_file env w file_path = Raise e
  ↔ ∃ cause, extract_text_attempt env w file_path = Raise cause
             ∧ e = Exception ("Error extracting text from file: " +:+ str cause).
Proof.
  unfold extract_text_from_file.
  destruct (extract_text_attempt env w file_path) as [text|cause]; split.
  - done.
  - by intros (cause & ? & _).
  - intros [= <-]. by exists cause.
  - by intros (cause' & [= <-] & ->).
Qed.

Lemma analyze_extraction_fails file_path file_name w msg :
  extract_text_from_file env w file_path = Raise (Exception msg) →
  analyze_single_resume env file_path file_name w
  = ({[ "error" := JStr ("Error analyzing resume: " +:+ msg);
        "file_name" := JStr file_name ]},
     w ++ [EvExtract file_path]).
Proof. intros H. unfold analyze_single_resume, analyze_try. by rewrite H. Qed.

Lemma analyze_client_fails file_path file_name w text msg :
  extract_text_from_file env w file_path = Return text →
  generate_content env (w ++ [EvExtract file_path]) (create_analysis_prompt text)
  = Raise (Exception msg) →
  analyze_single_resume env file_path file_name w
  = ({[ "error" := JStr ("Error analyzing resume: " +:+ msg);
        "file_name" := JStr file_name ]},
     (w ++ [EvExtract file_path]) ++ [EvGenerate (create_analysis_prompt text)]).
Proof. intros H1 H2. unfold analyze_single_resume, analyze_try. by rewrite H1, H2. Qed.

Lemma analyze_try_responded file_path file_name w text raw :
  extract_text_from_file env w file_path = Return text →
  generate_content env (w ++ [EvExtract file_path]) (create_analysis_prompt text)
  = Return raw →
  analyze_try env file_path file_name w
  = (Some raw,
     match json_loads env (Py.strip raw) with
     | Raise e => Raise e
     | Return v =>
         add_metadata v file_name
           (strftime env ((w ++ [EvExtract file_path])
                          ++ [EvGenerate (create_analysis_prompt text)]))
     end,
     (w ++ [EvExtract file_path]) ++ [EvGenerate (create_analysis_prompt text)]).
Proof.
  intros H1 H2. unfold analyze_try. rewrite H1, H2. by destruct (json_loads env _).
Qed.

(** A value comes out of the [try] block only after the extraction, the
    model call and the decoding all succeeded. *)
Lemma analyze_try_returns file_path file_name w d :
  (analyze_try env file_path file_name w).1.2 = Return d →
  ∃ text raw v,
    extract_text_from_file env w file_path = Return text
    ∧ generate_content env (w ++ [EvExtract file_path]) (create_analysis_prompt text)
      = Return raw
    ∧ json_loads env (Py.strip raw) = Return v
    ∧ add_metadata v file_name (strftime env (analyze_try env file_path file_name w).2)
      = Return d.
Proof.
  unfold analyze_try.
  destruct (extract_text_from_file env w file_path) as [text|e] eqn:H1; [|done].
  destruct (generate_content env _ _) as [raw|e] eqn:H2; [|done].
  destruct (json_loads env _) as [v|e] eqn:H3; [|done].
  cbn [fst snd]. intros Hd. by exists text, raw, v.
Qed.

End Analysis.

(** ** Claims about one file *)

Section FileClaims.
Context (env : Env).

Lemma oversized size :
  (MAX_FILE_SIZE_MB * 1024 * 1024 < size)%Z →
  Float64.gt (Float64.truediv size (1024 * 1024)) (inject_Z MAX_FILE_SIZE_MB) = true.
Proof.
  unfold MAX_FILE_SIZE_MB. intros Hsize. unfold Float64.gt.
  destruct (Qle_bool _ _) eqn:Hle; [exfalso|done].
  apply Qle_bool_iff in Hle.
  assert (Hlow : (Float64.truediv 10485761 (1024 * 1024)
                  <= Float64.truediv size (1024 * 1024))%Q)
    by (apply truediv_mono; lia).
  assert (Hgap : (inject_Z 10 < Float64.truediv 10485761 (1024 * 1024))%Q)
    by (by vm_compute).
  eapply Qlt_irrefl, Qlt_le_trans; [exact Hgap|]. by eapply Qle_trans.
Qed.

(** The task of a file that passes validation and is saved at
    [temp_file_path] returns what [analyze_single_resume] returns for that
    path and the name of the file, with the file information added. *)
Lemma process_file_analyzes file w temp_file_path :
  (validate_file file).1 = true →
  save_uploaded_file env w file = Return temp_file_path →
  process_file env file w
  = (Return (<["file_info" := get_file_info file]>
              (analyze_single_resume env temp_file_path (uf_name file)
                 (w ++ [EvSave (uf_name file)])).1),
     (analyze_single_resume env temp_file_path (uf_name file)
        (w ++ [EvSave (uf_name file)])).2 ++ [EvCleanup temp_file_path]).
Proof.
  intros Hvalid Hsave. unfold process_file.
  destruct (validate_file file) as [is_valid error_msg]. simpl in Hvalid. subst is_valid.
  cbn [negb]. rewrite Hsave. by destruct (analyze_single_resume env _ _ _).
Qed.

(** A task raises only when the upload cannot be saved. *)
Lemma process_file_raises file w e :
  (process_file env file w).1 = Raise e
  ↔ (validate_file file).1 = true ∧ save_uploaded_file env w file = Raise e.
Proof.
  unfold process_file.
  destruct (validate_file file) as [[] error_msg]; cbn [negb fst].
  - destruct (save_uploaded_file env w file) as [path|e'].
    + destruct (analyze_single_resume env _ _ _). split; [done|by intros [_ ?]].
    + cbn [fst]. split; [intros [= ->]; split; reflexivity|intros [_ [= ->]]; reflexivity].
  - split; [done|by intros [? _]].
Qed.

(** C4. A file whose extension is not one of [.pdf] and [.docx], or whose
    size exceeds 10 MB, is rejected with the message of the failed check
    before any other work: the task returns at once, the trace is as it
    was, so no text was extracted and the model was not called. *)
Theorem invalid_input_rejected file w :
  file_extension (uf_name file) ∉ SUPPORTED_FORMATS
  ∨ (MAX_FILE_SIZE_MB * 1024 * 1024 < uf_size file)%Z →
  ∃ error_msg,
    process_file env file w
    = (Return {[ "error" := JStr error_msg; "file_name" := JStr (uf_name file) ]}, w)
    ∧ (error_msg = ERROR_MESSAGES "unsupported_format"
       ∨ error_msg = ERROR_MESSAGES "file_too_large")
    ∧ extractions (process_file env file w).2 = extractions w
    ∧ model_calls (process_file env file w).2 = model_calls w.
Proof.
  intros Hbad. unfold process_file, validate_file.
  case_bool_decide as Hext; cbn [negb].
  - destruct Hbad as [Hbad|Hbad]; [done|]. rewrite (oversized _ Hbad). cbn [negb].
    eexists. split; [done|]. split; [by right|done].
  - eexists. split; [done|]. split; [by left|done].
Qed.

(** C5, as the code has it.  The response of the model is decoded with
    [json.loads] after [strip], which takes the white space off its two
    ends.  The outcome is the parse failure record, with the message of
    the decoder and the response as it was received, white space and all,
    exactly when the decoder raises [JSONDecodeError]; when it raises
    anything else the outcome is the generic failure record, without the
    response. *)
Theorem parse_failure_keeps_raw_response file_path file_name w text raw :
  extract_text_from_file env w file_path = Return text →
  generate_content env (w ++ [EvExtract file_path]) (create_analysis_prompt text)
  = Return raw →
  (∃ before after,
     raw = before +:+ Py.strip raw +:+ after
     ∧ Py.spaces before ∧ Py.spaces after
     ∧ Py.leading_space (list_ascii_of_string (Py.strip raw)) = 0
     ∧ Py.trailing_space (list_ascii_of_string (Py.strip raw)) = 0)
  ∧ (∀ msg,
       json_loads env (Py.strip raw) = Raise (JSONDecodeError msg)
       ↔ (analyze_single_resume env file_path file_name w).1
         = {[ "error" := JStr ("Failed to parse AI response as JSON: " +:+ msg);
              "file_name" := JStr file_name;
              "raw_response" := JStr raw ]})
  ∧ (∀ msg,
       json_loads env (Py.strip raw) = Raise (Exception msg) →
       (analyze_single_resume env file_path file_name w).1
       = {[ "error" := JStr ("Error analyzing resume: " +:+ msg);
            "file_name" := JStr file_name ]}).
Proof.
  intros Htext Hraw. split; [apply strip_spec|].
  unfold analyze_single_resume.
  rewrite (analyze_try_responded env _ file_name _ _ _ Htext Hraw).
  destruct (json_loads env (Py.strip raw)) as [v|[msg'|msg']]; cbn [fst].
  - split; [|done]. intros msg. split; [done|]. intros Heq. exfalso.
    destruct (stampable v) eqn:Hv.
    + destruct v as [| | | | | |d0]; try done. simpl in Hv.
      destruct (d0 !! "analysis_metadata") as [[| | | | | |md0]|] eqn:Hmd; try done.
      rewrite (add_metadata_stamps d0 md0 _ _ Hmd) in Heq. cbn [fst] in Heq.
      apply (f_equal (λ m : dict, m !! "analysis_metadata")) in Heq.
      by rewrite lookup_insert_eq in Heq.
    + destruct (add_metadata_raises v file_name
                  (strftime env ((w ++ [EvExtract file_path])
                                 ++ [EvGenerate (create_analysis_prompt text)])) Hv)
        as [msg' Hmsg].
      rewrite Hmsg in Heq. cbn [fst] in Heq.
      apply (f_equal (λ m : dict, m !! "raw_response")) in Heq. done.
  - split; [|done]. intros msg. split.
    + by intros [= ->].
    + intros Heq. apply (f_equal (λ m : dict, m !! "error")) in Heq.
      vm_compute in Heq. by injection Heq as ->.
  - split; [|by intros msg [= ->]]. intros msg. split; [done|].
    intros Heq. apply (f_equal (λ m : dict, m !! "raw_response")) in Heq. done.
Qed.

(** C8. What the [try] block returns carries, under ["analysis_metadata"],
    the name given by the caller and the time read after the model
    answered; whatever the decoded response held under ["file_name"] and
    ["processing_timestamp"] is overwritten, and the outcome does not
    depend on it. *)
Theorem metadata_is_stamped file_path file_name w d :
  (analyze_try env file_path file_name w).1.2 = Return d →
  (analyze_single_resume env file_path file_name w).1 = d
  ∧ ∃ d0 md0 md,
      d = <["analysis_metadata" := JDict md]> d0
      ∧ d0 !! "analysis_metadata" = Some (JDict md0)
      ∧ md = <["processing_timestamp" :=
                 JStr (strftime env (analyze_try env file_path file_name w).2)]>
             (<["file_name" := JStr file_name]> md0)
      ∧ md !! "file_name" = Some (JStr file_name)
      ∧ md !! "processing_timestamp"
        = Some (JStr (strftime env (analyze_try env file_path file_name w).2))
      ∧ ∀ reported_name reported_time now,
          add_metadata
            (JDict (<["analysis_metadata" :=
                       JDict (<["file_name" := reported_name]>
                             (<["processing_timestamp" := reported_time]> md0))]> d0))
            file_name now
          = add_metadata (JDict d0) file_name now.
Proof.
  intros Hret. split.
  { unfold analyze_single_resume.
    destruct (analyze_try env file_path file_name w) as [[response outcome] w'].
    cbn [fst snd] in Hret. by subst outcome. }
  destruct (analyze_try_returns env _ _ _ _ Hret) as (text & raw & v & _ & _ & _ & Hadd).
  destruct (add_metadata_returns _ _ _ _ Hadd) as (d0 & md0 & -> & Hmd & ->).
  eexists d0, md0, _. split; [done|]. split; [done|]. split; [done|].
  split; [by rewrite lookup_insert_ne, lookup_insert_eq|].
  split; [by rewrite lookup_insert_eq|].
  intros reported_name reported_time now.
  rewrite (add_metadata_stamps d0 md0 _ _ Hmd).
  rewrite (add_metadata_stamps _ (<["file_name" := reported_name]>
                                  (<["processing_timestamp" := reported_time]> md0)))
    by apply lookup_insert_eq.
  rewrite (insert_insert_eq d0 "analysis_metadata"). do 3 f_equal.
  rewrite (insert_insert_eq _ "file_name").
  rewrite (insert_insert_ne _ "file_name" "processing_timestamp") by done.
  by rewrite (insert_insert_eq _ "processing_timestamp").
Qed.

(** C9, as the code has it.  An extraction that fails and a model call
    that fails both end in the same kind of record: the text
    [Error analyzing resume: ] followed by the text of the exception, and
    the file name.  For a failed extraction the text of the exception is
    [Error extracting text from file: ] followed by the text of the cause;
    for a failed model call it is the text of the client's exception.  The
    record has no field that names the kind.  A client exception that is
    itself a [JSONDecodeError] goes to the first handler, which finds no
    [response] among the locals. *)
Theorem extraction_and_api_failures file_path file_name w :
  (∀ cause, extract_text_attempt env w file_path = Raise cause →
     (analyze_single_resume env file_path file_name w).1
     = {[ "error" := JStr ("Error analyzing resume: "
                           +:+ "Error extracting text from file: " +:+ str cause);
          "file_name" := JStr file_name ]})
  ∧ (∀ text msg,
       extract_text_from_file env w file_path = Return text →
       generate_content env (w ++ [EvExtract file_path]) (create_analysis_prompt text)
       = Raise (Exception msg) →
       (analyze_single_resume env file_path file_name w).1
       = {[ "error" := JStr ("Error analyzing resume: " +:+ msg);
            "file_name" := JStr file_name ]})
  ∧ (∀ text msg,
       extract_text_from_file env w file_path = Return text →
       generate_content env (w ++ [EvExtract file_path]) (create_analysis_prompt text)
       = Raise (JSONDecodeError msg) →
       (analyze_single_resume env file_path file_name w).1
       = {[ "error" := JStr ("Failed to parse AI response as JSON: " +:+ msg);
            "file_name" := JStr file_name;
            "raw_response" := JStr "No response" ]}).
Proof.
  split; [|split].
  - intros cause Hcause.
    assert (He : extract_text_from_file env w file_path
                 = Raise (Exception ("Error extracting text from file: " +:+ str cause)))
      by (apply extract_text_raises; by exists cause).
    by rewrite (analyze_extraction_fails env _ _ _ _ He).
  - intros text msg Htext Hgen.
    by rewrite (analyze_client_fails env _ _ _ _ _ Htext Hgen).
  - intros text msg Htext Hgen.
    unfold analyze_single_resume, analyze_try. by rewrite Htext, Hgen.
Qed.

(** C10. A response that decodes to a value without a dictionary under
    ["analysis_metadata"] ends in the generic failure record, which holds
    the file name; the [try] block returns a value only when the decoded
    response holds such a dictionary. *)
Theorem missing_metadata_is_a_failure file_path file_name w text raw v :
  extract_text_from_file env w file_path = Return text →
  generate_content env (w ++ [EvExtract file_path]) (create_analysis_prompt text)
  = Return raw →
  json_loads env (Py.strip raw) = Return v →
  (stampable v = false →
     ∃ msg,
       (analyze_single_resume env file_path file_name w).1
       = {[ "error" := JStr ("Error analyzing resume: " +:+ msg);
            "file_name" := JStr file_name ]}
       ∧ has_error (analyze_single_resume env file_path file_name w).1 = true)
  ∧ (∀ d, (analyze_try env file_path file_name w).1.2 = Return d → stampable v = true).
Proof.
  intros Htext Hraw Hv. unfold analyze_single_resume.
  rewrite (analyze_try_responded env _ file_name _ _ _ Htext Hraw), Hv. cbn [fst snd].
  split.
  - intros Hno.
    destruct (add_metadata_raises v file_name
                (strftime env ((w ++ [EvExtract file_path])
                               ++ [EvGenerate (create_analysis_prompt text)])) Hno)
      as [msg ->].
    by exists msg.
  - intros d Hd. destruct (add_metadata_returns _ _ _ _ Hd) as (d0 & md0 & -> & Hmd & _).
    simpl. by rewrite Hmd.
Qed.

End FileClaims.

(** ** Claims about the classification of outcomes *)

Section Classification.
Context (env : Env).

Lemma results_split (results : list dict) :
  length (successful_results results) + length (failed_results results) = length results.
Proof.
  unfold successful_results, failed_results.
  induction results as [|r results IH]; [done|].
  rewrite !filter_cons. destruct (has_error r) eqn:Hr.
  - rewrite decide_False, decide_True by done. simpl. lia.
  - rewrite decide_True, decide_False by done. simpl. lia.
Qed.

(** C3, as the code has it.  The aggregator tells a failure from a success
    by the key ["error"] alone, so every outcome is exactly one of the two.
    The records built where the code gives up (a rejected file, the two
    handlers of [analyze_single_resume], a task that raised) all carry the
    key.  A record returned by the [try] block is what the model answered,
    decoded, with its metadata stamped, so it carries the key exactly when
    the answer of the model did. *)
Theorem outcomes_are_told_apart_by_the_error_key
    (results : list dict) (file : UploadedFile) (file_path file_name : string)
    (w : trace) (e : exn) :
  (length (successful_results results) + length (failed_results results) = length results
   ∧ ∀ r, r ∈ results →
       (r ∈ successful_results results ↔ r ∉ failed_results results)
       ∧ (r ∈ failed_results results ↔ has_error r = true))
  ∧ has_error (settle file (Raise e)) = true
  ∧ ((validate_file file).1 = false →
     ∃ d, (process_file env file w).1 = Return d ∧ has_error d = true)
  ∧ (∀ e', (analyze_try env file_path file_name w).1.2 = Raise e' →
       has_error (analyze_single_resume env file_path file_name w).1 = true)
  ∧ (∀ d, (analyze_try env file_path file_name w).1.2 = Return d →
       ∃ text raw d0 md0,
         extract_text_from_file env w file_path = Return text
         ∧ generate_content env (w ++ [EvExtract file_path]) (create_analysis_prompt text)
           = Return raw
         ∧ json_loads env (Py.strip raw) = Return (JDict d0)
         ∧ d0 !! "analysis_metadata" = Some (JDict md0)
         ∧ (analyze_single_resume env file_path file_name w).1 = d
         ∧ (∃ now, d = <["analysis_metadata" :=
                          JDict (<["processing_timestamp" := JStr now]>
                                (<["file_name" := JStr file_name]> md0))]> d0)
         ∧ d !! "error" = d0 !! "error"
         ∧ has_error (analyze_single_resume env file_path file_name w).1 = has_error d0)
  ∧ (∀ (d : dict) info, has_error (<["file_info" := info]> d) = has_error d).
Proof.
  split; [split; [apply results_split|]|].
  { intros r Hr. unfold successful_results, failed_results.
    rewrite !list_elem_of_filter. destruct (has_error r); intuition (done || congruence). }
  split; [done|]. split; [|split; [|split]].
  - intros Hbad. unfold process_file.
    destruct (validate_file file) as [[] error_msg]; [done|]. by eexists.
  - intros e' He'. unfold analyze_single_resume.
    destruct (analyze_try env file_path file_name w) as [[response outcome] w'].
    cbn [fst snd] in He'. subst outcome. by destruct e'.
  - intros d Hd.
    destruct (analyze_try_returns env _ _ _ _ Hd)
      as (text & raw & v & Htext & Hraw & Hv & Hadd).
    destruct (add_metadata_returns _ _ _ _ Hadd) as (d0 & md0 & -> & Hmd & Heq).
    exists text, raw, d0, md0. do 4 (split; [done|]).
    assert (Hout : (analyze_single_resume env file_path file_name w).1 = d).
    { unfold analyze_single_resume.
      destruct (analyze_try env file_path file_name w) as [[response outcome] w'].
      cbn [fst snd] in Hd. by subst outcome. }
    split; [done|]. split; [by eexists|].
    assert (Herr : d !! "error" = d0 !! "error") by (subst d; by rewrite lookup_insert_ne).
    split; [done|]. rewrite Hout. unfold has_error. by rewrite Herr.
  - intros d info. unfold has_error. by rewrite lookup_insert_ne.
Qed.

End Classification.

(* ===================================================================== *)
(** * Part II, continued: further properties of the code *)
(* ===================================================================== *)

(** ** Validation *)

Section Validation.

Lemma within_limit size :
  (size ≤ MAX_FILE_SIZE_MB * 1024 * 1024)%Z →
  Float64.gt (Float64.truediv size (1024 * 1024)) (inject_Z MAX_FILE_SIZE_MB) = false.
Proof.
  unfold MAX_FILE_SIZE_MB. intros Hsize. unfold Float64.gt.
  assert (Hle : (Float64.truediv size (1024 * 1024)
                 <= Float64.truediv 10485760 (1024 * 1024))%Q)
    by (apply truediv_mono; lia).
  replace (Float64.truediv 10485760 (1024 * 1024)) with (inject_Z 10) in Hle
    by (vm_compute; reflexivity).
  apply Qle_bool_iff in Hle. by rewrite Hle.
Qed.

(** X1. [validate_file] accepts a file exactly when its extension, in
    lower case, is [.pdf] or [.docx] and its size is at most 10 * 1024 *
    1024 bytes: the comparison of the size in megabytes, a float, with 10
    decides the bound to the byte.  The format is checked first, and each
    check has its own message. *)
Theorem validate_file_exact file :
  ((validate_file file).1 = true
   ↔ file_extension (uf_name file) ∈ SUPPORTED_FORMATS
     ∧ (uf_size file ≤ MAX_FILE_SIZE_MB * 1024 * 1024)%Z)
  ∧ ((validate_file file).1 = true → (validate_file file).2 = "File is valid")
  ∧ (file_extension (uf_name file) ∉ SUPPORTED_FORMATS →
     validate_file file = (false, ERROR_MESSAGES "unsupported_format"))
  ∧ (file_extension (uf_name file) ∈ SUPPORTED_FORMATS →
     (MAX_FILE_SIZE_MB * 1024 * 1024 < uf_size file)%Z →
     validate_file file = (false, ERROR_MESSAGES "file_too_large")).
Proof.
  unfold validate_file.
  case_bool_decide as Hext; cbn [negb].
  - destruct (Z_le_gt_dec (uf_size file) (MAX_FILE_SIZE_MB * 1024 * 1024)) as [Hle|Hgt].
    + rewrite (within_limit _ Hle). cbn [fst snd].
      split; [by split|]. split; [done|]. split; [done|]. intros _ ?. lia.
    + rewrite (oversized (uf_size file)) by lia. cbn [fst snd].
      split; [split; [done|intros [_ ?]; lia]|]. split; [done|]. by split.
  - cbn [fst snd]. split; [split; [done|by intros [? _]]|]. split; [done|]. by split.
Qed.

End Validation.

(** ** Bounds on the progress percentage and on the chunks *)

Section Bounds.
Local Open Scope Q_scope.

Lemma truediv_zero n : (0 < n)%Z → Float64.truediv 0 n = 0.
Proof.
  intros Hn. unfold Float64.truediv.
  rewrite (round64_proper _ 0); [reflexivity|]. unfold Qeq. simpl. lia.
Qed.

Lemma float_min_le x c : Float64.min x c <= c.
Proof.
  unfold Float64.min. destruct (Qle_bool x c) eqn:Hx.
  - by apply Qle_bool_iff.
  - apply Qle_refl.
Qed.

Lemma progress_nonneg p n : (0 < n)%Z → (0 ≤ p)%Z → 0 <= progress p n.
Proof.
  intros Hn Hp. apply Qle_trans with (progress 0 n); [|by apply progress_mono].
  unfold progress. rewrite truediv_zero by done. by vm_compute.
Qed.

Lemma progress_le_100 p n : progress p n <= 100.
Proof. apply float_min_le. Qed.

(** Short of the whole, the percentage stays below 100: the quotient is at
    most the float just below 1, and a hundred times that float rounds
    below 100. *)
Lemma progress_lt_100 p n :
  (0 < n ≤ 2 ^ 53)%Z → (p < n)%Z → progress p n < 100.
Proof.
  intros [Hn Hbig] Hp.
  set (below_one := (9007199254740991 # 9007199254740992)%Q).
  assert (Hq : Float64.truediv p n <= below_one).
  { replace below_one with (Float64.round64 below_one) by (vm_compute; reflexivity).
    apply round64_mono. unfold below_one, Qle, Qdiv, Qmult, Qinv. simpl.
    destruct n as [|n|n]; try lia. simpl.
    change (2 ^ 53)%Z with 9007199254740992%Z in Hbig. nia. }
  assert (Hm : Float64.mul (Float64.truediv p n) 100 <= Float64.mul below_one 100).
  { apply round64_mono. by apply Qmult_le_compat_r. }
  assert (Hc : Float64.mul below_one 100 < 100) by (by vm_compute).
  eapply Qle_lt_trans; [|exact Hc].
  eapply Qle_trans; [|exact Hm]. unfold progress, Float64.min.
  destruct (Qle_bool _ _) eqn:Hle; [apply Qle_refl|].
  exfalso. assert (Qle_bool (Float64.mul (Float64.truediv p n) 100) 100 = true); [|congruence].
  apply Qle_bool_iff. eapply Qle_trans; [exact Hm|]. by apply Qlt_le_weak.
Qed.

End Bounds.

Section RunBounds.
Context (cfg : Config) (env : Env) (sched : scheduler).

Lemma gathers_app w1 w2 : gathers (w1 ++ w2) = gathers w1 ++ gathers w2.
Proof. apply omap_app. Qed.

Lemma gathers_orchestration w : gathers (orchestration w) = gathers w.
Proof.
  induction w as [|e w IH]; [done|].
  destruct e; simpl; rewrite ?IH; try done; unfold gathers in *; simpl; by rewrite IH.
Qed.

(** The values the callback receives in a run, one per chunk. *)
Lemma process_batch_progress_values files w :
  (0 < BATCH_SIZE cfg)%Z → (0 < MAX_CONCURRENT_REQUESTS cfg)%Z → fair sched →
  ∃ results evs,
    process_batch cfg env sched files true w = Done (results, w ++ evs)
    ∧ progress_values evs
      = (λ k, progress (Z.min (Z.of_nat (S k) * BATCH_SIZE cfg) (Z.of_nat (length files)))
                       (Z.of_nat (length files)))
        <$> seq 0 (chunk_count cfg files).
Proof.
  intros Hsize Hcap Hfair.
  destruct (process_batch_orchestration cfg env sched files true w Hsize Hcap Hfair)
    as (results & evs & Hrun & _ & Horch).
  exists results, evs. split; [done|].
  rewrite <- progress_values_orchestration, Horch, <- bind_singleton.
  apply (observe_chunks progress_values); [apply progress_values_app|done|].
  intros k _. by case_bool_decide.
Qed.

Lemma chunk_nonempty files k :
  (0 < BATCH_SIZE cfg)%Z → k < chunk_count cfg files →
  k * Z.to_nat (BATCH_SIZE cfg) < length files.
Proof.
  intros Hsize Hk. unfold chunk_count in Hk.
  set (n := length files) in *. set (B := BATCH_SIZE cfg) in *.
  assert (Hq : (0 ≤ (Z.of_nat n + B - 1) / B)%Z) by (apply Z.div_pos; lia).
  pose proof (Z.mul_div_le (Z.of_nat n + B - 1) B Hsize) as Hle.
  nia.
Qed.

(** X2. Every value the progress callback receives lies between 0 and
    100, and only the call after the last chunk reports 100: while files
    remain, the value is strictly below 100 (for up to 2^53 files). *)
Theorem progress_values_bounded files w :
  (0 < BATCH_SIZE cfg)%Z → (0 < MAX_CONCURRENT_REQUESTS cfg)%Z → fair sched →
  (Z.of_nat (length files) ≤ 2 ^ 53)%Z →
  ∃ results evs,
    process_batch cfg env sched files true w = Done (results, w ++ evs)
    ∧ ∀ j x, progress_values evs !! j = Some x →
        (0 <= x)%Q ∧ (x <= 100)%Q
        ∧ (S j < length (progress_values evs) → (x < 100)%Q)
        ∧ (S j = length (progress_values evs) → x = 100%Q).
Proof.
  intros Hsize Hcap Hfair Hbig.
  destruct (process_batch_progress_values files w Hsize Hcap Hfair)
    as (results & evs & Hrun & Hvalues).
  exists results, evs. split; [done|]. rewrite Hvalues.
  intros j x Hx. rewrite length_fmap, length_seq.
  apply list_lookup_fmap_Some in Hx as (k & -> & Hk).
  apply lookup_seq in Hk as [-> Hj]. cbn [Nat.add].
  pose proof (chunk_count_positive cfg files Hsize) as Hpos.
  pose proof (chunk_count_covers cfg files Hsize) as Hcover.
  pose proof (chunk_nonempty files j Hsize Hj) as Hne.
  split; [apply progress_nonneg; lia|]. split; [apply progress_le_100|]. split.
  - intros Hnext. apply progress_lt_100; [lia|].
    pose proof (chunk_nonempty files (S j) Hsize Hnext). lia.
  - intros Hlast. rewrite Z.min_r by nia. apply progress_full. lia.
Qed.

(** X3. A run gathers the files chunk by chunk: every [asyncio.gather]
    holds at least one task and at most [BATCH_SIZE], all of them but the
    last hold exactly [BATCH_SIZE], and together they hold each file
    once. *)
Theorem gathers_are_bounded files progress_callback w :
  (0 < BATCH_SIZE cfg)%Z → (0 < MAX_CONCURRENT_REQUESTS cfg)%Z → fair sched →
  ∃ results evs,
    process_batch cfg env sched files progress_callback w = Done (results, w ++ evs)
    ∧ length (gathers evs) = chunk_count cfg files
    ∧ (∀ k s, gathers evs !! k = Some s →
         1 ≤ s ≤ Z.to_nat (BATCH_SIZE cfg)
         ∧ (S k < length (gathers evs) → s = Z.to_nat (BATCH_SIZE cfg)))
    ∧ sum_list (gathers evs) = length files.
Proof.
  intros Hsize Hcap Hfair.
  destruct (process_batch_spec cfg env sched files progress_callback w Hsize Hcap Hfair)
    as (results & evs & Hrun & _ & Horch).
  exists results, evs. split; [done|].
  assert (Hg : gathers evs
               = (λ k, length (chunk cfg files (chunk_start cfg k)))
                 <$> seq 0 (chunk_count cfg files)).
  { rewrite <- gathers_orchestration, Horch, <- bind_singleton.
    apply (observe_chunks gathers); [apply gathers_app|done|].
    intros k _. unfold chunk_events. by destruct progress_callback, (_ <? _)%Z. }
  rewrite Hg, length_fmap, length_seq. split; [done|]. split.
  - intros k s Hs. apply list_lookup_fmap_Some in Hs as (k' & -> & Hk).
    apply lookup_seq in Hk as [-> Hk]. cbn [Nat.add].
    rewrite chunk_length by done. pose proof (chunk_nonempty files k Hsize Hk).
    split; [lia|]. intros Hnext. pose proof (chunk_nonempty files (S k) Hsize Hnext). lia.
  - rewrite <- (chunks_cover cfg files Hsize) at 2.
    generalize (seq 0 (chunk_count cfg files)). intros l.
    induction l as [|k l IH]; [done|].
    cbn [fmap list_fmap mbind list_bind sum_list sum_list_with].
    rewrite length_app. f_equal. exact IH.
Qed.

End RunBounds.

(** ** What a task returns *)

Section TaskRecords.
Context (env : Env).

Lemma settle_names_file file w :
  names_file (settle file (process_file env file w).1) file.
Proof.
  unfold process_file, names_file.
  destruct (validate_file file) as [[] error_msg]; cbn [negb fst settle].
  - destruct (save_uploaded_file env w file) as [path|e]; cbn [fst settle].
    + destruct (analyze_single_resume env _ _ _) as [result w2]. cbn [fst settle].
      left. apply lookup_insert_eq.
    + by right.
  - by right.
Qed.

(** X6. For a file that passes validation, is saved and is analysed, what
    the task returns is the JSON object the model answered with three
    entries replaced: the two stamped fields of [analysis_metadata], and
    [file_info], which holds the information of the upload whatever the
    model put there.  Every other key keeps the value of the response. *)
Theorem analysed_record_is_the_response file w temp_file_path d :
  (validate_file file).1 = true →
  save_uploaded_file env w file = Return temp_file_path →
  (analyze_try env temp_file_path (uf_name file) (w ++ [EvSave (uf_name file)])).1.2
  = Return d →
  ∃ text raw d0 md0 r,
    extract_text_from_file env (w ++ [EvSave (uf_name file)]) temp_file_path = Return text
    ∧ generate_content env ((w ++ [EvSave (uf_name file)]) ++ [EvExtract temp_file_path])
        (create_analysis_prompt text) = Return raw
    ∧ json_loads env (Py.strip raw) = Return (JDict d0)
    ∧ d0 !! "analysis_metadata" = Some (JDict md0)
    ∧ (process_file env file w).1 = Return r
    ∧ r !! "file_info" = Some (get_file_info file)
    ∧ (∃ now, r !! "analysis_metadata"
              = Some (JDict (<["processing_timestamp" := JStr now]>
                            (<["file_name" := JStr (uf_name file)]> md0))))
    ∧ ∀ k, k ≠ "analysis_metadata" → k ≠ "file_info" → r !! k = d0 !! k.
Proof.
  intros Hvalid Hsave Hd.
  destruct (analyze_try_returns env _ _ _ _ Hd) as (text & raw & v & Htext & Hraw & Hv & Hadd).
  destruct (add_metadata_returns _ _ _ _ Hadd) as (d0 & md0 & -> & Hmd & Heq).
  rewrite (process_file_analyzes env file w temp_file_path Hvalid Hsave). cbn [fst].
  assert (Hout : (analyze_single_resume env temp_file_path (uf_name file)
                    (w ++ [EvSave (uf_name file)])).1 = d).
  { unfold analyze_single_resume.
    destruct (analyze_try env _ _ _) as [[response outcome] w']. cbn [fst snd] in Hd.
    by subst outcome. }
  rewrite Hout. eexists text, raw, d0, md0, _.
  do 4 (split; [done|]). split; [done|].
  split; [apply lookup_insert_eq|]. split.
  - eexists. rewrite lookup_insert_ne by done. subst d. apply lookup_insert_eq.
  - intros k Hk1 Hk2. rewrite lookup_insert_ne by done. subst d.
    by rewrite lookup_insert_ne.
Qed.

(** With collaborators that answer by their arguments alone, an analysis
    and a task return the same whenever they run. *)
Lemma history_free_analyze_try file_path file_name w w' :
  history_free env →
  (analyze_try env file_path file_name w).1 = (analyze_try env file_path file_name w').1.
Proof.
  intros Hfree.
  unfold analyze_try, extract_text_from_file, extract_text_attempt.
  destruct (Hfree w w') as (-> & -> & _ & _ & _).
  destruct (if String.eqb (file_extension file_path) ".pdf" then _ else _) as [text|e];
    [|done].
  destruct (Hfree (w ++ [EvExtract file_path]) (w' ++ [EvExtract file_path]))
    as (_ & _ & -> & _ & _).
  destruct (generate_content env _ _) as [raw|e]; [|done].
  destruct (json_loads env _) as [v|e]; [|done].
  destruct (Hfree ((w ++ [EvExtract file_path]) ++ [EvGenerate (create_analysis_prompt text)])
              ((w' ++ [EvExtract file_path]) ++ [EvGenerate (create_analysis_prompt text)]))
    as (_ & _ & _ & -> & _).
  done.
Qed.

Lemma history_free_analyze file_path file_name w w' :
  history_free env →
  (analyze_single_resume env file_path file_name w).1
  = (analyze_single_resume env file_path file_name w').1.
Proof.
  intros Hfree. pose proof (history_free_analyze_try file_path file_name w w' Hfree) as H.
  unfold analyze_single_resume.
  destruct (analyze_try env file_path file_name w) as [[response outcome] t].
  destruct (analyze_try env file_path file_name w') as [[response' outcome'] t'].
  cbn [fst] in H. injection H as -> ->. by destruct outcome' as [d|[msg|msg]].
Qed.

Lemma history_free_process_file file w :
  history_free env → (process_file env file w).1 = (process_file env file []).1.
Proof.
  intros Hfree. unfold process_file.
  destruct (validate_file file) as [[] error_msg]; cbn [negb]; [|done].
  unfold save_uploaded_file.
  destruct (Hfree w []) as (_ & _ & _ & _ & ->).
  destruct (named_temporary_file env [] file) as [stem|e]; [|done].
  pose proof (history_free_analyze (stem +:+ (Py.splitext (uf_name file)).2) (uf_name file)
                (w ++ [EvSave (uf_name file)]) ([] ++ [EvSave (uf_name file)]) Hfree) as H.
  destruct (analyze_single_resume env _ _ (w ++ _)) as [result w2].
  destruct (analyze_single_resume env _ _ ([] ++ _)) as [result' w2'].
  cbn [fst] in *. by subst.
Qed.

End TaskRecords.

Section RunRecords.
Context (cfg : Config) (env : Env) (sched : scheduler).

(** X4. Every outcome of a run names the file it stands for: the outcome
    at index [i] either holds, under [file_info], the information of the
    file at index [i], or is a failure record whose [file_name] is the name
    of that file. *)
Theorem outcomes_name_their_files files progress_callback w :
  (0 < BATCH_SIZE cfg)%Z → (0 < MAX_CONCURRENT_REQUESTS cfg)%Z → fair sched →
  ∃ results w',
    process_batch cfg env sched files progress_callback w = Done (results, w')
    ∧ ∀ i file, files !! i = Some file →
        ∃ d, results !! i = Some d ∧ names_file d file.
Proof.
  intros Hsize Hcap Hfair.
  destruct (process_batch_spec cfg env sched files progress_callback w Hsize Hcap Hfair)
    as (results & evs & Hrun & Hprod & _).
  exists results, (w ++ evs). split; [done|].
  intros i file Hfile.
  destruct (Forall2_lookup_l _ _ _ _ _ Hprod Hfile) as (d & Hd & w_i & _ & _ & ->).
  eexists. split; [done|]. apply settle_names_file.
Qed.

(** X5. With collaborators that answer by their arguments alone, the
    outcomes of a run are the outcomes of the files taken one by one: they
    depend neither on the chunk size, the capacity of the semaphore and the
    delay, nor on the progress callback, nor on the order in which the
    event loop runs the tasks. *)
Theorem outcomes_do_not_depend_on_the_schedule files progress_callback w :
  (0 < BATCH_SIZE cfg)%Z → (0 < MAX_CONCURRENT_REQUESTS cfg)%Z → fair sched →
  history_free env →
  ∃ w',
    process_batch cfg env sched files progress_callback w
    = Done ((λ file, settle file (process_file env file []).1) <$> files, w').
Proof.
  intros Hsize Hcap Hfair Hfree.
  destruct (process_batch_spec cfg env sched files progress_callback w Hsize Hcap Hfair)
    as (results & evs & Hrun & Hprod & _).
  exists (w ++ evs). rewrite Hrun. do 2 f_equal.
  apply list_eq_same_length with (length files);
    [by rewrite length_fmap|symmetry; by eapply Forall2_length|].
  intros i d d' Hi Hd Hd'.
  apply list_lookup_fmap_Some in Hd' as (file & -> & Hfile).
  destruct (Forall2_lookup_l _ _ _ _ _ Hprod Hfile) as (d'' & Hd'' & w_i & _ & _ & ->).
  rewrite (history_free_process_file env file w_i Hfree) in Hd''. congruence.
Qed.

End RunRecords.

(** ** The events of a run, task by task *)

Section Blocks.
Context (cfg : Config) (env : Env) (sched : scheduler).

Lemma analyze_try_events file_path file_name w :
  ∃ prompts,
    (analyze_try env file_path file_name w).2
    = w ++ EvExtract file_path :: (EvGenerate <$> prompts)
    ∧ length prompts ≤ 1.
Proof.
  unfold analyze_try.
  destruct (extract_text_from_file env w file_path) as [text|e].
  - exists [create_analysis_prompt text].
    split; [|done].
    destruct (generate_content env _ _) as [raw|e]; [destruct (json_loads env _)|];
      by rewrite <- app_assoc.
  - exists []. split; [done|simpl; lia].
Qed.

(** The events of one task. *)
Lemma process_file_block file w :
  ∃ b, (process_file env file w).2 = w ++ b ∧ task_block file b.
Proof.
  unfold process_file, task_block.
  destruct (validate_file file) as [[] error_msg]; cbn [negb fst].
  - destruct (save_uploaded_file env w file) as [path|e].
    + destruct (analyze_try_events path (uf_name file) (w ++ [EvSave (uf_name file)]))
        as (prompts & Hevs & Hlen).
      rewrite <- analyze_single_resume_trace in Hevs.
      destruct (analyze_single_resume env path _ _) as [result w2]. cbn [snd] in *. subst w2.
      cbn [snd]. rewrite <- !app_assoc.
      eexists. split; [done|].
      right. by exists path, prompts.
    + eexists. split; [done|]. by left.
  - exists []. split; [by rewrite app_nil_r|done].
Qed.

Lemma concat_insert_nil (blocks : list trace) k b :
  blocks !! k = Some [] → concat (<[k := b]> blocks) ≡ₚ concat blocks ++ b.
Proof.
  revert k. induction blocks as [|b0 blocks IH]; intros [|k] Hk; try done.
  - simpl in Hk. injection Hk as ->. simpl. by rewrite Permutation_app_comm.
  - simpl. rewrite (IH k Hk). by rewrite app_assoc.
Qed.

Lemma run_task_blocks batch w0 st k :
  gather_blocks_inv batch w0 st → gather_blocks_inv batch w0 (run_task env batch st k).
Proof.
  intros Hinv. pose proof Hinv as (blocks & Hlb & Hlen & (evs & Hevs & Hperm) & Hslots).
  unfold run_task.
  destruct (batch !! k) as [file|] eqn:Hfile; [|done].
  destruct (st.1 !! k) as [[r|]|] eqn:Hk; try done.
  destruct (process_file_block file st.2) as (b & Hb & Hblock).
  destruct (process_file env file st.2) as [r w'] eqn:Hrun. cbn [snd] in Hb. subst w'.
  pose proof (Hslots k) as Hnil. rewrite Hk in Hnil.
  exists (<[k := b]> blocks). cbn [fst snd].
  split; [by rewrite length_insert|]. split; [by rewrite length_insert|]. split.
  - exists (evs ++ b). rewrite Hevs, <- app_assoc. split; [done|].
    by rewrite (concat_insert_nil _ _ _ Hnil), Hperm.
  - intros k'. destruct (decide (k = k')) as [<-|Hne].
    + rewrite list_lookup_insert_eq by (by eapply lookup_lt_Some).
      exists file, b. split; [done|]. split; [|done].
      apply list_lookup_insert_eq. rewrite Hlb. by eapply lookup_lt_Some.
    + rewrite !list_lookup_insert_ne by done. apply Hslots.
Qed.

Lemma foldl_run_task_blocks batch w0 order st :
  gather_blocks_inv batch w0 st →
  gather_blocks_inv batch w0 (foldl (run_task env batch) st order).
Proof.
  revert st. induction order as [|k order IH]; intros st Hst; [done|].
  simpl. apply IH. by apply run_task_blocks.
Qed.

(** The events of one gather are those of its tasks, a block for each. *)
Lemma gather_blocks order batch w :
  (0 < MAX_CONCURRENT_REQUESTS cfg)%Z →
  (∀ k, k < length batch → k ∈ order) →
  ∃ evs blocks,
    (gather cfg env order batch w).2 = w ++ [EvGather (length batch)] ++ evs
    ∧ evs ≡ₚ concat blocks
    ∧ Forall2 task_block batch blocks.
Proof.
  intros Hcap Hfair. unfold gather.
  destruct (Z.leb_spec (MAX_CONCURRENT_REQUESTS cfg) 0) as [|_]; [lia|].
  set (w0 := w ++ [EvGather (length batch)]).
  set (st0 := (replicate (length batch) None, w0) : list (option (except dict)) * trace).
  assert (Hinv0 : gather_blocks_inv batch w0 st0).
  { exists (replicate (length batch) []). unfold st0. cbn [fst snd].
    rewrite !length_replicate. split; [done|]. split; [done|]. split.
    - exists []. rewrite app_nil_r. split; [done|].
      clear. induction (length batch); [done|]. simpl. done.
    - intros k. destruct (replicate (length batch) None !! k) as [o|] eqn:Hk; [|done].
      apply lookup_replicate in Hk as [-> Hk]. by apply lookup_replicate. }
  pose proof (foldl_run_task_blocks batch w0 order st0 Hinv0)
    as (blocks & Hlb & Hlen & (evs & Hevs & Hperm) & Hslots).
  assert (Hfilled : ∀ k, k < length batch →
            ∃ r, (foldl (run_task env batch) st0 order).1 !! k = Some (Some r)).
  { intros k Hk. apply foldl_run_task_filled; [|done|left; by apply Hfair].
    unfold st0. cbn [fst]. by rewrite length_replicate. }
  destruct (foldl (run_task env batch) st0 order) as [slots w'] eqn:Hfold.
  cbn [fst snd] in *. subst w'.
  exists evs, blocks. unfold w0. rewrite <- app_assoc. split; [done|]. split; [done|].
  apply Forall2_same_length_lookup. split; [done|].
  intros k file b Hfile Hb.
  destruct (Hfilled k) as [r Hr]; [by eapply lookup_lt_Some|].
  pose proof (Hslots k) as Hslot. rewrite Hr in Hslot.
  destruct Hslot as (file' & b' & Hf & Hb' & Hblock). congruence.
Qed.

Context (files : list UploadedFile) (progress_callback : bool).

(** The events of the loop: the orchestrator's own, and a block for each
    file. *)
Lemma batch_loop_blocks starts results w :
  (0 < MAX_CONCURRENT_REQUESTS cfg)%Z → fair sched →
  ∃ results' evs blocks,
    batch_loop cfg env sched files progress_callback starts results w
    = Done (results', w ++ evs)
    ∧ Forall2 task_block (starts ≫= chunk cfg files) blocks
    ∧ evs ≡ₚ orchestration evs ++ concat blocks.
Proof.
  intros Hcap Hfair. revert results w.
  induction starts as [|i starts IH]; intros results w.
  { exists results, [], []. rewrite app_nil_r. by repeat split. }
  cbn [batch_loop].
  destruct (gather_spec cfg env (sched i (length (chunk cfg files i)))
              (chunk cfg files i) w Hcap ltac:(intros; by apply Hfair))
    as (rs & evs1 & Hgather & Htask & _ & _).
  destruct (gather_blocks (sched i (length (chunk cfg files i)))
              (chunk cfg files i) w Hcap ltac:(intros; by apply Hfair))
    as (evs1' & blocks1 & Hevs1 & Hperm1 & Hblocks1).
  rewrite Hgather in Hevs1. cbn [snd] in Hevs1.
  apply app_inv_head in Hevs1. injection Hevs1 as <-.
  rewrite Hgather.
  set (evs2 := if progress_callback
               then [EvProgress (progress (i + Z.of_nat (length (chunk cfg files i)))
                                          (Z.of_nat (length files)))]
               else []).
  set (evs3 := if (i + BATCH_SIZE cfg <? Z.of_nat (length files))%Z
               then [EvSleep (RATE_LIMIT_DELAY cfg)] else []).
  set (here := [EvGather (length (chunk cfg files i))] ++ evs1 ++ evs2 ++ evs3).
  match goal with
  | |- ∃ _ _ _, batch_loop _ _ _ _ _ _ ?res ?w3 = _ ∧ _ =>
      assert (Hw3 : w3 = w ++ here);
      [|rewrite Hw3; destruct (IH res (w ++ here)) as (results' & evs & blocks & -> & Hrest & Hperm)]
  end.
  { unfold here, evs2, evs3.
    destruct progress_callback, (_ <? _)%Z; by rewrite <- ?app_assoc, ?app_nil_r. }
  exists results', (here ++ evs), (blocks1 ++ blocks).
  rewrite <- !app_assoc. split; [done|]. split.
  - cbn [mbind list_bind]. by apply Forall2_app.
  - rewrite orchestration_app, concat_app.
    assert (Hhere : here ≡ₚ orchestration here ++ concat blocks1).
    { unfold here. rewrite !orchestration_app, (orchestration_tasks evs1 Htask).
      assert (Ho2 : orchestration evs2 = evs2) by (unfold evs2; by destruct progress_callback).
      assert (Ho3 : orchestration evs3 = evs3) by (unfold evs3; by destruct (_ <? _)%Z).
      rewrite Ho2, Ho3. simpl. f_equiv. rewrite Hperm1.
      apply Permutation_app_comm. }
    rewrite Hhere at 1. rewrite Hperm at 1.
    rewrite <- !app_assoc. f_equiv. rewrite !app_assoc. f_equiv.
    apply Permutation_app_comm.
Qed.

(** The events of a run: the orchestrator's own, and for each file the
    block of its task. *)
Lemma process_batch_blocks w :
  (0 < BATCH_SIZE cfg)%Z → (0 < MAX_CONCURRENT_REQUESTS cfg)%Z → fair sched →
  ∃ results evs blocks,
    process_batch cfg env sched files progress_callback w = Done (results, w ++ evs)
    ∧ Forall2 task_block files blocks
    ∧ evs ≡ₚ orchestration evs ++ concat blocks.
Proof.
  intros Hsize Hcap Hfair. unfold process_batch.
  destruct (Z.ltb_spec (MAX_CONCURRENT_REQUESTS cfg) 0); [lia|].
  rewrite range_chunks by done.
  destruct (batch_loop_blocks (chunk_start cfg <$> seq 0 (chunk_count cfg files)) [] w
              Hcap Hfair) as (results & evs & blocks & Hrun & Hblocks & Hperm).
  exists results, evs, blocks. split; [done|]. split; [|done].
  by rewrite chunks_cover in Hblocks.
Qed.

End Blocks.

(** ** What a run does to the temporary files and to the model *)

Section Budget.
Context (cfg : Config) (env : Env) (sched : scheduler).

Lemma orchestration_no_cleanups evs : cleanups (orchestration evs) = [].
Proof. induction evs as [|[] evs IH]; done. Qed.

Lemma orchestration_no_extractions evs : extractions (orchestration evs) = [].
Proof. induction evs as [|[] evs IH]; done. Qed.

Lemma orchestration_no_model_calls evs : model_calls (orchestration evs) = [].
Proof. induction evs as [|[] evs IH]; done. Qed.

Lemma orchestration_no_saves evs : saves (orchestration evs) = [].
Proof. induction evs as [|[] evs IH]; done. Qed.

Lemma cleanups_app w1 w2 : cleanups (w1 ++ w2) = cleanups w1 ++ cleanups w2.
Proof. apply omap_app. Qed.

Lemma saves_app w1 w2 : saves (w1 ++ w2) = saves w1 ++ saves w2.
Proof. apply omap_app. Qed.

Lemma model_calls_generate prompts : model_calls (EvGenerate <$> prompts) = prompts.
Proof. induction prompts as [|p prompts IH]; [done|]. simpl. f_equal. exact IH. Qed.

Lemma extractions_generate prompts : extractions (EvGenerate <$> prompts) = [].
Proof. by induction prompts. Qed.

Lemma cleanups_generate prompts : cleanups (EvGenerate <$> prompts) = [].
Proof. by induction prompts. Qed.

Lemma saves_generate prompts : saves (EvGenerate <$> prompts) = [].
Proof. by induction prompts. Qed.

(** In the block of one task a path is cleaned up exactly when text was
    extracted from it. *)
Lemma task_block_cleanups file b : task_block file b → cleanups b = extractions b.
Proof.
  unfold task_block. destruct (validate_file file).1.
  - intros [->|(path & prompts & -> & _)]; [done|].
    cbn. by rewrite cleanups_app, extractions_app, cleanups_generate, extractions_generate.
  - by intros ->.
Qed.

Lemma task_block_saves file b :
  task_block file b →
  saves b = (if (validate_file file).1 then [uf_name file] else [])
  ∧ length (model_calls b) ≤ length (extractions b)
  ∧ length (extractions b) ≤ length (saves b).
Proof.
  unfold task_block. destruct (validate_file file).1.
  - intros [->|(path & prompts & -> & Hlen)]; [cbn; split; [done|lia]|].
    cbn. rewrite saves_app, model_calls_app, extractions_app.
    rewrite saves_generate, model_calls_generate, extractions_generate.
    cbn. rewrite length_app. cbn. split; [done|lia].
  - intros ->. cbn. split; [done|lia].
Qed.

Lemma blocks_cleanups files blocks :
  Forall2 task_block files blocks →
  cleanups (concat blocks) = extractions (concat blocks).
Proof.
  induction 1 as [|file b files blocks Hb _ IH]; [done|].
  simpl. by rewrite cleanups_app, extractions_app, IH, (task_block_cleanups file b).
Qed.

Lemma blocks_saves files blocks :
  Forall2 task_block files blocks →
  saves (concat blocks) = uf_name <$> filter (λ file, (validate_file file).1 = true) files
  ∧ length (model_calls (concat blocks)) ≤ length (extractions (concat blocks))
  ∧ length (extractions (concat blocks)) ≤ length (saves (concat blocks)).
Proof.
  induction 1 as [|file b files blocks Hb _ (IH1 & IH2 & IH3)]; [cbn; by split|].
  destruct (task_block_saves file b Hb) as (H1 & H2 & H3).
  simpl. rewrite saves_app, model_calls_app, extractions_app, !length_app.
  split; [|lia].
  rewrite IH1, H1, filter_cons. by destruct (validate_file file).1; case_decide.
Qed.

Context (files : list UploadedFile) (progress_callback : bool) (w : trace).

Hypothesis size_positive : (0 < BATCH_SIZE cfg)%Z.
Hypothesis capacity_positive : (0 < MAX_CONCURRENT_REQUESTS cfg)%Z.
Hypothesis sched_fair : fair sched.

(** X7.  [process_batch], [process_file] and its [finally] clause: in a
    run, the temporary files that are removed are those from which text was
    extracted, each as often as it was read: no temporary file that reached
    the extractor is left behind, whatever the analysis made of it, and
    nothing else is removed.  The files that are saved are the files that
    pass validation, each once. *)
Theorem temporary_files_are_removed :
  ∃ results evs,
    process_batch cfg env sched files progress_callback w = Done (results, w ++ evs)
    ∧ cleanups evs ≡ₚ extractions evs
    ∧ saves evs ≡ₚ uf_name <$> filter (λ file, (validate_file file).1 = true) files.
Proof.
  destruct (process_batch_blocks cfg env sched files progress_callback w
              size_positive capacity_positive sched_fair)
    as (results & evs & blocks & Hrun & Hblocks & Hperm).
  exists results, evs. split; [done|].
  unfold cleanups, extractions, saves. rewrite Hperm at 1 2 3.
  fold (cleanups (orchestration evs ++ concat blocks)).
  fold (extractions (orchestration evs ++ concat blocks)).
  fold (saves (orchestration evs ++ concat blocks)).
  rewrite cleanups_app, extractions_app, saves_app.
  rewrite orchestration_no_cleanups, orchestration_no_extractions, orchestration_no_saves.
  cbn [app]. rewrite (blocks_cleanups files blocks Hblocks).
  by rewrite (proj1 (blocks_saves files blocks Hblocks)).
Qed.

(** X8.  [process_batch] and [analyze_single_resume]: a run sends the
    model at most one prompt for each text extraction, extracts text at
    most once for each file it saved, and saves only files that pass
    validation; so the model is called at most once per accepted file, and
    never for a rejected one. *)
Theorem model_calls_are_bounded :
  ∃ results evs,
    process_batch cfg env sched files progress_callback w = Done (results, w ++ evs)
    ∧ length (model_calls evs) ≤ length (extractions evs)
    ∧ length (extractions evs) ≤ length (saves evs)
    ∧ length (saves evs) = length (filter (λ file, (validate_file file).1 = true) files)
    ∧ length (saves evs) ≤ length files.
Proof.
  destruct (process_batch_blocks cfg env sched files progress_callback w
              size_positive capacity_positive sched_fair)
    as (results & evs & blocks & Hrun & Hblocks & Hperm).
  exists results, evs. split; [done|].
  destruct (blocks_saves files blocks Hblocks) as (Hsaves & Hcalls & Hextr).
  assert (Hm : model_calls evs ≡ₚ model_calls (concat blocks)).
  { unfold model_calls. rewrite Hperm at 1. fold (model_calls (orchestration evs ++ concat blocks)).
    by rewrite model_calls_app, orchestration_no_model_calls. }
  assert (He : extractions evs ≡ₚ extractions (concat blocks)).
  { unfold extractions. rewrite Hperm at 1.
    fold (extractions (orchestration evs ++ concat blocks)).
    by rewrite extractions_app, orchestration_no_extractions. }
  assert (Hs : saves evs ≡ₚ saves (concat blocks)).
  { unfold saves. rewrite Hperm at 1. fold (saves (orchestration evs ++ concat blocks)).
    by rewrite saves_app, orchestration_no_saves. }
  rewrite Hm, He, Hs. split; [done|]. split; [done|].
  rewrite Hsaves, length_fmap. split; [done|]. apply length_filter.
Qed.

End Budget.

(** ** Paths and extensions *)

Section Paths.

Lemma lower_char_dot c : Ascii.eqb (Py.lower_char c) "." = Ascii.eqb c ".".
Proof. destruct c as [[] [] [] [] [] [] [] []]; reflexivity. Qed.

Lemma lower_char_sep c : Ascii.eqb (Py.lower_char c) "/" = Ascii.eqb c "/".
Proof. destruct c as [[] [] [] [] [] [] [] []]; reflexivity. Qed.

Lemma lower_char_idemp c : Py.lower_char (Py.lower_char c) = Py.lower_char c.
Proof. destruct c as [[] [] [] [] [] [] [] []]; reflexivity. Qed.

Lemma lower_idemp s : Py.lower (Py.lower s) = Py.lower s.
Proof. induction s as [|c s IH]; [done|]. simpl. by rewrite lower_char_idemp, IH. Qed.

Lemma list_ascii_lower s :
  list_ascii_of_string (Py.lower s) = Py.lower_char <$> list_ascii_of_string s.
Proof. induction s as [|c s IH]; [done|]. simpl. by rewrite IH. Qed.

Lemma string_of_list_lower l :
  string_of_list_ascii (Py.lower_char <$> l) = Py.lower (string_of_list_ascii l).
Proof. induction l as [|c l IH]; [done|]. simpl. f_equal. exact IH. Qed.

Lemma rfind_from_lower c l i found :
  (∀ x, Ascii.eqb (Py.lower_char x) c = Ascii.eqb x c) →
  Py.rfind_from c (Py.lower_char <$> l) i found = Py.rfind_from c l i found.
Proof.
  intros Hc. revert i found. induction l as [|x l IH]; intros i found; [done|].
  cbn [fmap list_fmap Py.rfind_from]. rewrite Hc. apply IH.
Qed.

Lemma has_stem_lower l : Py.has_stem (Py.lower_char <$> l) = Py.has_stem l.
Proof.
  induction l as [|x l IH]; [done|].
  cbn [fmap list_fmap Py.has_stem]. rewrite lower_char_dot. by destruct (Ascii.eqb x ".").
Qed.

(** [splitext] and [lower] commute. *)
Lemma splitext_lower p :
  Py.splitext (Py.lower p) = (Py.lower (Py.splitext p).1, Py.lower (Py.splitext p).2).
Proof.
  unfold Py.splitext, Py.rfind. rewrite list_ascii_lower.
  rewrite !rfind_from_lower by (apply lower_char_sep || apply lower_char_dot).
  rewrite <- fmap_drop, <- fmap_take, has_stem_lower.
  destruct (_ && _); cbn [fst snd]; [|done].
  by rewrite <- fmap_take, <- fmap_drop, !string_of_list_lower.
Qed.

Lemma file_extension_lower p : file_extension (Py.lower p) = file_extension p.
Proof. unfold file_extension. rewrite splitext_lower. cbn [snd]. apply lower_idemp. Qed.

(** X9.  [validate_file] and [get_file_info] read the letters of a name
    without their case: two uploads of the same size whose names differ in
    the case of their letters only get the same verdict, with the same
    message, and the same type in their file information. *)
Theorem validation_ignores_letter_case file file' :
  Py.lower (uf_name file) = Py.lower (uf_name file') →
  uf_size file = uf_size file' →
  validate_file file = validate_file file'
  ∧ file_extension (uf_name file) = file_extension (uf_name file').
Proof.
  intros Hname Hsize.
  assert (Hext : file_extension (uf_name file) = file_extension (uf_name file')).
  { by rewrite <- (file_extension_lower (uf_name file)), Hname, file_extension_lower. }
  split; [|done]. unfold validate_file. by rewrite Hext, Hsize.
Qed.

Lemma rfind_from_app c l1 l2 i found :
  Py.rfind_from c (l1 ++ l2) i found
  = Py.rfind_from c l2 (i + Z.of_nat (length l1)) (Py.rfind_from c l1 i found).
Proof.
  revert i found. induction l1 as [|x l1 IH]; intros i found.
  - simpl. by rewrite Z.add_0_r.
  - cbn [app Py.rfind_from length]. rewrite IH. f_equal. lia.
Qed.

Lemma rfind_from_absent c l i found :
  Forall (λ x, x ≠ c) l → Py.rfind_from c l i found = found.
Proof.
  intros Hl. revert i found. induction Hl as [|x l Hx _ IH]; intros i found; [done|].
  simpl. rewrite IH. by apply Ascii.eqb_neq in Hx as ->.
Qed.

Lemma rfind_from_bounds c l i found :
  (-1 ≤ found < i)%Z →
  (-1 ≤ Py.rfind_from c l i found < i + Z.of_nat (length l))%Z.
Proof.
  revert i found. induction l as [|x l IH]; intros i found Hf.
  - simpl. lia.
  - cbn [Py.rfind_from length].
    destruct (Ascii.eqb x c);
      [pose proof (IH (i + 1)%Z i)|pose proof (IH (i + 1)%Z found)]; lia.
Qed.

(** A suffix that is a dot followed by neither dots nor separators is the
    extension of the path it ends. *)
Lemma splitext_suffix stem t :
  names_a_file stem = true →
  Forall (λ x, x ≠ "."%char) t → Forall (λ x, x ≠ "/"%char) t →
  Py.splitext (stem +:+ string_of_list_ascii ("."%char :: t))
  = (stem, string_of_list_ascii ("."%char :: t)).
Proof.
  unfold names_a_file. intros Hstem Hdot Hsep.
  set (l := list_ascii_of_string stem) in *.
  unfold Py.splitext, Py.rfind.
  rewrite list_ascii_app, list_ascii_of_string_of_list_ascii. fold l.
  rewrite !rfind_from_app. cbn [Py.rfind_from]. simpl Ascii.eqb.
  rewrite (rfind_from_absent "." t) by done.
  rewrite (rfind_from_absent "/" t) by done.
  fold (Py.rfind "/" l) in *.
  pose proof (rfind_from_bounds "/" l 0 (-1) ltac:(lia)) as Hb. fold (Py.rfind "/" l) in Hb.
  set (s := Py.rfind "/" l) in *.
  rewrite Z.add_0_l.
  destruct (Z.ltb_spec s (Z.of_nat (length l))) as [_|]; [|lia].
  rewrite drop_app_le by lia.
  rewrite take_app_length' by (rewrite length_drop; lia).
  rewrite Hstem. cbn [andb].
  rewrite Nat2Z.id, take_app_length, drop_app_length.
  unfold l. by rewrite string_of_list_ascii_of_string.
Qed.

(** The extension of an accepted name: a dot, then letters. *)
Lemma supported_suffix sfx :
  Py.lower sfx ∈ SUPPORTED_FORMATS →
  ∃ t, sfx = string_of_list_ascii ("."%char :: t)
       ∧ Forall (λ x, x ≠ "."%char) t ∧ Forall (λ x, x ≠ "/"%char) t.
Proof.
  assert (Hne : ∀ (c x y : ascii), Py.lower_char c = y → Py.lower_char x = x → x ≠ y → c ≠ x).
  { intros c x y Hc Hx Hxy ->. congruence. }
  assert (Hdot : ∀ c, Py.lower_char c = "."%char → c = "."%char).
  { intros c Hc. apply Ascii.eqb_eq. rewrite <- lower_char_dot, Hc. reflexivity. }
  unfold SUPPORTED_FORMATS. rewrite !elem_of_cons, elem_of_nil.
  intros [H|[H|[]]].
  - destruct sfx as [|c0 [|c1 [|c2 [|c3 [|]]]]]; try discriminate.
    simpl in H. injection H as H0 H1 H2 H3. apply Hdot in H0 as ->.
    exists [c1; c2; c3]. split; [done|].
    split; repeat constructor; (eapply Hne; [eassumption|reflexivity|discriminate]).
  - destruct sfx as [|c0 [|c1 [|c2 [|c3 [|c4 [|]]]]]]; try discriminate.
    simpl in H. injection H as H0 H1 H2 H3 H4. apply Hdot in H0 as ->.
    exists [c1; c2; c3; c4]. split; [done|].
    split; repeat constructor; (eapply Hne; [eassumption|reflexivity|discriminate]).
Qed.

Context (env : Env).

(** X10.  [save_uploaded_file] and [extract_text_from_file]: an accepted
    file is saved under a path that ends in the extension of its name, so
    the extractor reads the temporary file as what validation took the
    upload for: a PDF or a DOCX document, never an unsupported format.
    The temporary name [tempfile] makes holds a character other than the
    dot. *)
Theorem saved_file_is_read_by_its_extension file w stem :
  (validate_file file).1 = true →
  named_temporary_file env w file = Return stem →
  names_a_file stem = true →
  ∃ path,
    save_uploaded_file env w file = Return path
    ∧ Py.splitext path = (stem, (Py.splitext (uf_name file)).2)
    ∧ file_extension path = file_extension (uf_name file)
    ∧ ∀ w',
        extract_text_attempt env w' path
        = if String.eqb (file_extension (uf_name file)) ".pdf"
          then pdf_extract_text env w' path
          else match docx_paragraphs env w' path with
               | Return paragraphs => Return (Py.join Py.nl paragraphs)
               | Raise e => Raise e
               end.
Proof.
  intros Hvalid Hstem Hfile.
  assert (Hext : file_extension (uf_name file) ∈ SUPPORTED_FORMATS).
  { unfold validate_file in Hvalid.
    destruct (bool_decide (file_extension (uf_name file) ∈ SUPPORTED_FORMATS)) eqn:Hin;
      [by apply bool_decide_eq_true in Hin|done]. }
  destruct (supported_suffix _ Hext) as (t & Ht & Hdot & Hsep).
  unfold save_uploaded_file. rewrite Hstem. eexists. split; [done|].
  assert (Hsplit : Py.splitext (stem +:+ (Py.splitext (uf_name file)).2)
                   = (stem, (Py.splitext (uf_name file)).2)).
  { rewrite Ht. by apply splitext_suffix. }
  assert (Hsame : file_extension (stem +:+ (Py.splitext (uf_name file)).2)
                  = file_extension (uf_name file)).
  { unfold file_extension at 1. by rewrite Hsplit. }
  split; [done|]. split; [done|].
  intros w'. unfold extract_text_attempt. rewrite Hsame.
  destruct (String.eqb (file_extension (uf_name file)) ".pdf") eqn:Hpdf; [done|].
  destruct (String.eqb (file_extension (uf_name file)) ".docx") eqn:Hdocx; [done|].
  exfalso. apply String.eqb_neq in Hpdf, Hdocx.
  unfold SUPPORTED_FORMATS in Hext. rewrite !elem_of_cons, elem_of_nil in Hext.
  by destruct Hext as [|[|[]]].
Qed.

End Paths.

(** ** The settings and the run *)

Section Settings.
Context (cfg : Config) (env : Env) (sched : scheduler).
Context (files : list UploadedFile) (progress_callback : bool) (w : trace).

Lemma negative_capacity_fails :
  (MAX_CONCURRENT_REQUESTS cfg < 0)%Z →
  process_batch cfg env sched files progress_callback w
  = Fails (Exception "Semaphore initial value must be >= 0").
Proof.
  intros Hcap. unfold process_batch.
  by destruct (Z.ltb_spec (MAX_CONCURRENT_REQUESTS cfg) 0); [|lia].
Qed.

Lemma zero_step_fails :
  (0 ≤ MAX_CONCURRENT_REQUESTS cfg)%Z → BATCH_SIZE cfg = 0%Z →
  process_batch cfg env sched files progress_callback w
  = Fails (Exception "range() arg 3 must not be zero").
Proof.
  intros Hcap Hsize. unfold process_batch, Py.range.
  destruct (Z.ltb_spec (MAX_CONCURRENT_REQUESTS cfg) 0); [lia|].
  by rewrite Hsize.
Qed.

Lemma negative_step_skips_the_loop :
  (0 ≤ MAX_CONCURRENT_REQUESTS cfg)%Z → (BATCH_SIZE cfg < 0)%Z →
  process_batch cfg env sched files progress_callback w = Done ([], w).
Proof.
  intros Hcap Hsize. unfold process_batch, Py.range.
  destruct (Z.ltb_spec (MAX_CONCURRENT_REQUESTS cfg) 0); [lia|].
  destruct (Z.eqb_spec (BATCH_SIZE cfg) 0); [lia|].
  by destruct (Z.ltb_spec (BATCH_SIZE cfg) 0); [|lia].
Qed.

Lemma no_capacity_hangs :
  MAX_CONCURRENT_REQUESTS cfg = 0%Z → (0 < BATCH_SIZE cfg)%Z → files ≠ [] →
  process_batch cfg env sched files progress_callback w = Hangs.
Proof.
  intros Hcap Hsize Hfiles. unfold process_batch.
  destruct (Z.ltb_spec (MAX_CONCURRENT_REQUESTS cfg) 0); [lia|].
  rewrite range_chunks by done.
  pose proof (chunk_count_covers cfg files Hsize) as Hcover.
  destruct (chunk_count cfg files) as [|n].
  { destruct files; [done|simpl in Hcover; lia]. }
  cbn [seq fmap list_fmap batch_loop]. unfold gather. by rewrite Hcap.
Qed.

(** X11.  [process_batch] under every setting of [config.BATCH_SIZE] and
    [config.MAX_CONCURRENT_REQUESTS].  The run raises exactly when the
    capacity of the semaphore is negative or the chunk size is zero, even
    for no files at all; it never returns exactly when the capacity is
    zero, the chunk size positive and there is a file; with a negative
    chunk size it returns at once an empty list, whatever the files, and
    touches nothing; in every other case it returns one outcome per
    file. *)
Theorem settings_decide_the_run :
  fair sched →
  match process_batch cfg env sched files progress_callback w with
  | Fails e =>
      ((MAX_CONCURRENT_REQUESTS cfg < 0)%Z
       ∧ e = Exception "Semaphore initial value must be >= 0")
      ∨ ((0 ≤ MAX_CONCURRENT_REQUESTS cfg)%Z ∧ BATCH_SIZE cfg = 0%Z
         ∧ e = Exception "range() arg 3 must not be zero")
  | Hangs =>
      MAX_CONCURRENT_REQUESTS cfg = 0%Z ∧ (0 < BATCH_SIZE cfg)%Z ∧ files ≠ []
  | Done (results, w') =>
      (0 ≤ MAX_CONCURRENT_REQUESTS cfg)%Z
      ∧ (((BATCH_SIZE cfg < 0)%Z ∧ results = [] ∧ w' = w)
         ∨ ((0 < BATCH_SIZE cfg)%Z ∧ length results = length files
            ∧ ((0 < MAX_CONCURRENT_REQUESTS cfg)%Z ∨ files = [])))
  end.
Proof.
  intros Hfair.
  destruct (Z.lt_trichotomy (MAX_CONCURRENT_REQUESTS cfg) 0) as [Hcap|[Hcap|Hcap]].
  - rewrite negative_capacity_fails by done. by left.
  - destruct (Z.lt_trichotomy (BATCH_SIZE cfg) 0) as [Hsize|[Hsize|Hsize]].
    + rewrite negative_step_skips_the_loop by lia. split; [lia|]. by left.
    + rewrite zero_step_fails by lia. right. split; [lia|done].
    + destruct files as [|file files'] eqn:Hfiles.
      * unfold process_batch.
        destruct (Z.ltb_spec (MAX_CONCURRENT_REQUESTS cfg) 0); [lia|].
        rewrite range_chunks by done. unfold chunk_count. simpl length.
        rewrite Z.div_small by lia. simpl. split; [lia|]. right. by repeat split; try right.
      * rewrite <- Hfiles. rewrite no_capacity_hangs; [|done|done|by rewrite Hfiles].
        split; [done|]. split; [done|]. by rewrite Hfiles.
  - destruct (Z.lt_trichotomy (BATCH_SIZE cfg) 0) as [Hsize|[Hsize|Hsize]].
    + rewrite negative_step_skips_the_loop by lia. split; [lia|]. by left.
    + rewrite zero_step_fails by lia. right. split; [lia|done].
    + destruct (process_batch_spec cfg env sched files progress_callback w Hsize Hcap Hfair)
        as (results & evs & -> & Hprod & _).
      split; [lia|]. right. split; [done|]. split; [|by left].
      symmetry. by eapply Forall2_length.
Qed.

End Settings.

(** ** The summary and the saved data *)

Section Summary.
Local Open Scope Q_scope.

Lemma percent_lt_100 s n :
  (0 < n ≤ 2 ^ 53)%Z → (s < n)%Z → Float64.mul (Float64.truediv s n) 100 < 100.
Proof.
  intros Hn Hs. pose proof (progress_lt_100 s n Hn Hs) as Hlt.
  unfold progress, Float64.min in Hlt.
  destruct (Qle_bool _ _); [done|]. by apply Qlt_irrefl in Hlt.
Qed.

Lemma percent_positive s n :
  (0 < s)%Z → (0 < n ≤ 2 ^ 53)%Z → 0 < Float64.mul (Float64.truediv s n) 100.
Proof.
  intros Hs [Hn Hbig].
  set (tiny := (1 # 9007199254740992)%Q).
  assert (Hq : tiny <= Float64.truediv s n).
  { replace tiny with (Float64.round64 tiny) by (vm_compute; reflexivity).
    apply round64_mono. unfold tiny, Qle, Qdiv, Qmult, Qinv. simpl.
    destruct n as [|n|n]; try lia. simpl.
    change (2 ^ 53)%Z with 9007199254740992%Z in Hbig. nia. }
  assert (Hm : Float64.mul tiny 100 <= Float64.mul (Float64.truediv s n) 100).
  { apply round64_mono. by apply Qmult_le_compat_r. }
  eapply Qlt_le_trans; [|exact Hm]. by vm_compute.
Qed.

Lemma percent_zero n : (0 < n)%Z → Float64.mul (Float64.truediv 0 n) 100 = 0.
Proof. intros Hn. rewrite truediv_zero by done. by vm_compute. Qed.

(** X12.  The success rate of [generate_summary_stats]: the integer 0 for
    no results, and otherwise a float between 0 and 100 that is 100
    exactly when no result is a failure and 0 exactly when none is a
    success (for up to 2^53 results, with float rounding modelled). *)
Theorem success_rate_bounds (results : list dict) :
  (Z.of_nat (length results) ≤ 2 ^ 53)%Z →
  match success_rate results with
  | JInt z => z = 0%Z ∧ results = []
  | JFloat x =>
      results ≠ [] ∧ 0 <= x ∧ x <= 100
      ∧ (x = 100 ↔ failed_results results = [])
      ∧ (x = 0 ↔ successful_results results = [])
  | _ => False
  end.
Proof.
  intros Hbig. unfold success_rate.
  destruct results as [|r results']; [done|].
  set (results := r :: results') in *.
  pose proof (results_split results) as Hsplit.
  set (s := length (successful_results results)) in *.
  set (f := length (failed_results results)) in *.
  assert (Hn : (0 < Z.of_nat (length results))%Z) by (simpl; lia).
  split; [done|].
  destruct (decide (s = 0%nat)) as [Hs0|Hs0].
  - rewrite Hs0. change (Z.of_nat 0) with 0%Z. rewrite percent_zero by done.
    split; [done|]. split; [done|]. split; [|split; [intros _|done]].
    + split; [done|]. intros Hf.
      assert (f = 0%nat) by (unfold f; by rewrite Hf). lia.
    + apply nil_length_inv. exact Hs0.
  - assert (Hpos : 0 < Float64.mul (Float64.truediv (Z.of_nat s) (Z.of_nat (length results))) 100)
      by (apply percent_positive; lia).
    split; [by apply Qlt_le_weak|].
    split; [apply percent_le_100; lia|]. split.
    + destruct (decide (f = 0%nat)) as [Hf0|Hf0].
      * split; [intros _; apply nil_length_inv; exact Hf0|intros _].
        replace s with (length results) by lia. by rewrite truediv_same.
      * assert (Hlt : Float64.mul (Float64.truediv (Z.of_nat s) (Z.of_nat (length results))) 100
                      < 100) by (apply percent_lt_100; lia).
        split.
        -- intros Hx. rewrite Hx in Hlt. by apply Qlt_irrefl in Hlt.
        -- intros Hf. exfalso. apply Hf0. unfold f. by rewrite Hf.
    + split.
      * intros Hx. rewrite Hx in Hpos. by apply Qlt_irrefl in Hpos.
      * intros Hs. exfalso. apply Hs0. unfold s. by rewrite Hs.
Qed.

Lemma output_data_counts (results : list dict) (generated_at : string) :
  ∃ metadata,
    output_data results generated_at !! "metadata" = Some (JDict metadata)
    ∧ metadata !! "total_resumes" = Some (JInt (Z.of_nat (length results)))
    ∧ metadata !! "successful_analyses"
      = Some (JInt (Z.of_nat (length (successful_results results))))
    ∧ metadata !! "failed_analyses"
      = Some (JInt (Z.of_nat (length (failed_results results)))).
Proof.
  eexists. split; [unfold output_data; by rewrite lookup_insert_eq|]. by repeat split.
Qed.

End Summary.

(** ** The rows of the export *)

Section FlattenRows.
Context (keys_in_order : dict → list string) (now : nat → string).

Lemma bind_returns {A B} (m : except A) (f : A → except B) b :
  except_bind m f = Return b → ∃ a, m = Return a ∧ f a = Return b.
Proof. destruct m as [a|e]; [by exists a|done]. Qed.

Lemma Return_inj {A} (a b : A) : Return a = Return b → a = b.
Proof. by intros [= ->]. Qed.

Lemma get_returns v key dflt x :
  get v key dflt = Return x → ∃ d, v = JDict d ∧ x = from_option id dflt (d !! key).
Proof. destruct v; try done. intros [= <-]. by eexists. Qed.

Lemma str_items_returns i items :
  (∃ l, str_items i items = Return l) ↔ Forall (λ x, ∃ s, x = JStr s) items.
Proof.
  revert i. induction items as [|v items IH]; intros i.
  { split; [done|by exists []]. }
  rewrite Forall_cons, <- (IH (S i)). split.
  - intros [l Hl]. destruct v; try done. split; [by eexists|].
    cbn [str_items] in Hl. destruct (str_items (S i) items); [by eexists|done].
  - intros [[s ->] [l Hl]]. cbn [str_items]. rewrite Hl. by eexists.
Qed.

Lemma join_value_returns v :
  (∃ s, join_value keys_in_order v = Return s) ↔ joinable v.
Proof.
  destruct v as [| | | | |items|]; cbn [join_value joinable];
    try (split; [by intros [? ?]|done]); try (split; [done|by eexists]).
  rewrite <- (str_items_returns 0). split.
  - intros [s Hs]. destruct (str_items 0 items); [by eexists|done].
  - intros [l ->]. by eexists.
Qed.

Lemma join_field_returns section key x :
  join_field keys_in_order section key = Return x →
  ∃ d, section = JDict d
       ∧ match d !! key with Some v => joinable v | None => True end.
Proof.
  unfold join_field. intros H.
  apply bind_returns in H as (items & Hget & H).
  apply bind_returns in H as (joined & Hjoin & _).
  apply get_returns in Hget as (d & -> & ->).
  exists d. split; [done|].
  destruct (d !! key) as [v|]; [|done]. apply join_value_returns. by eexists.
Qed.

Lemma join_field_dict d key :
  match d !! key with Some v => joinable v | None => True end →
  ∃ s, join_field keys_in_order (JDict d) key = Return (JStr s).
Proof.
  intros H. unfold join_field. cbn [get except_bind].
  destruct (d !! key) as [v|]; cbn [from_option id].
  - apply join_value_returns in H as [s ->]. by eexists.
  - by eexists.
Qed.

Lemma section_dict result key :
  section_is_dict result key →
  ∃ d, from_option id (JDict ∅) (result !! key) = JDict d
       ∧ ∀ k, d !! k = match result !! key with
                       | Some (JDict s) => s !! k
                       | _ => None
                       end.
Proof.
  unfold section_is_dict.
  destruct (result !! key) as [[| | | | | |s]|]; try done; intros _.
  - by exists s.
  - by exists ∅.
Qed.

Lemma section_of_dict result key d :
  from_option id (JDict ∅) (result !! key) = JDict d →
  section_is_dict result key
  ∧ ∀ k, d !! k = match result !! key with
                  | Some (JDict s) => s !! k
                  | _ => None
                  end.
Proof.
  unfold section_is_dict.
  destruct (result !! key) as [[| | | | | |s]|]; try done; by intros [= <-].
Qed.

Lemma entry_joinable result sec key d :
  from_option id (JDict ∅) (result !! sec) = JDict d →
  entry_is_joinable result sec key
  ↔ match d !! key with Some v => joinable v | None => True end.
Proof.
  unfold entry_is_joinable.
  destruct (result !! sec) as [[| | | | | |s]|]; try done; by intros [= <-].
Qed.

(** A result without ["error"] gets a row exactly when it has the shape
    the function takes for granted. *)
Lemma success_row_returns result :
  (∃ row, success_row keys_in_order result = Return row) ↔ flattenable result.
Proof.
  unfold flattenable. rewrite !Forall_cons, !Forall_nil. split.
  - intros [row H]. unfold success_row in H.
    repeat match type of H with
           | except_bind _ _ = Return _ =>
               let a := fresh "a" in let Ha := fresh "Ha" in
               apply bind_returns in H as (a & Ha & H)
           end.
    repeat match goal with
           | Ha : get _ _ _ = Return _ |- _ => apply get_returns in Ha as (? & Ha & _)
           | Ha : join_field _ _ _ = Return _ |- _ =>
               apply join_field_returns in Ha as (? & Ha & ?)
           end.
    repeat match goal with
           | Ha : from_option id (JDict ∅) (result !! ?key) = JDict ?d,
             Hj : match ?d !! ?k with Some _ => _ | None => True end |- _ =>
               apply (entry_joinable result key k d Ha) in Hj
           end.
    repeat match goal with
           | Ha : from_option id (JDict ∅) (result !! ?key) = JDict _ |- _ =>
               apply section_of_dict in Ha as [Ha _]
           end.
    tauto.
  - intros ((Hmd & Hcd & Hed & Hsk & Hex & Hsu & _) & (Ht1 & Ht2 & Ht3 & Ht4 & _)
            & (Hc1 & Hc2 & Hc3 & Hc4 & _)).
    unfold success_row.
    destruct (section_dict _ _ Hmd) as (md & -> & _).
    destruct (section_dict _ _ Hcd) as (cd & -> & _).
    destruct (section_dict _ _ Hed) as (ed & -> & _).
    destruct (section_dict _ _ Hex) as (ex & -> & _).
    destruct (section_dict _ _ Hsk) as (sk & Esk & _).
    destruct (section_dict _ _ Hsu) as (su & Esu & _).
    apply (entry_joinable _ _ _ _ Esk) in Ht1, Ht2, Ht3, Ht4.
    apply (entry_joinable _ _ _ _ Esu) in Hc1, Hc2, Hc3, Hc4.
    rewrite Esk, Esu. cbn [get except_bind].
    destruct (join_field_dict sk _ Ht1) as [s1 ->].
    destruct (join_field_dict sk _ Ht2) as [s2 ->].
    destruct (join_field_dict sk _ Ht3) as [s3 ->].
    destruct (join_field_dict sk _ Ht4) as [s4 ->].
    cbn [except_bind].
    destruct (join_field_dict su _ Hc1) as [s5 ->].
    destruct (join_field_dict su _ Hc2) as [s6 ->].
    destruct (join_field_dict su _ Hc3) as [s7 ->].
    destruct (join_field_dict su _ Hc4) as [s8 ->].
    cbn [except_bind]. by eexists.
Qed.

(** The entries of a success row that do not go through a section. *)
Lemma success_row_entries result row :
  success_row keys_in_order result = Return row →
  row !! "status" = Some (JStr "Success")
  ∧ row !! "error_message" = Some (JStr "")
  ∧ row !! "name" = Some (from_option id (JStr "") (result !! "name"))
  ∧ ∃ md, from_option id (JDict ∅) (result !! "analysis_metadata") = JDict md
          ∧ row !! "file_name" = Some (from_option id (JStr "") (md !! "file_name"))
          ∧ row !! "processing_timestamp"
            = Some (from_option id (JStr "") (md !! "processing_timestamp")).
Proof.
  intros H. unfold success_row in H.
  apply bind_returns in H as (file_name & Hfile_name & H).
  repeat match type of H with
         | except_bind _ _ = Return _ =>
             let a := fresh "a" in let Ha := fresh "Ha" in
             apply bind_returns in H as (a & Ha & H)
         end.
  apply Return_inj in H. subst row.
  apply get_returns in Hfile_name as (md & Hmd & ->).
  match goal with
  | Ha : get _ "processing_timestamp" _ = Return _ |- _ =>
      rewrite Hmd in Ha; apply Return_inj in Ha; subst
  end.
  split; [reflexivity|]. split; [reflexivity|]. split; [reflexivity|].
  exists md. split; [done|]. split; reflexivity.
Qed.

Lemma error_row_entries i result error :
  error_row now i result error !! "status" = Some (JStr "Error")
  ∧ error_row now i result error !! "error_message" = Some error
  ∧ error_row now i result error !! "file_name"
    = Some (from_option id (JStr "Unknown") (result !! "file_name"))
  ∧ error_row now i result error !! "processing_timestamp" = Some (JStr (now i)).
Proof. repeat split; reflexivity. Qed.

Lemma has_error_lookup (r : dict) : has_error r = false ↔ r !! "error" = None.
Proof.
  unfold has_error. rewrite bool_decide_eq_false, <- eq_None_not_Some. done.
Qed.

Lemma flatten_row_returns i result :
  (∃ row, flatten_row keys_in_order now i result = Return row)
  ↔ has_error result = true ∨ flattenable result.
Proof.
  unfold flatten_row. destruct (result !! "error") as [error|] eqn:He.
  - split; [intros _; left|by eexists].
    unfold has_error. apply bool_decide_eq_true. rewrite He. by eexists.
  - rewrite success_row_returns. split; [by right|intros [H|H]; [|done]].
    apply has_error_lookup in He. congruence.
Qed.

(** X14.  [flatten_resume_data] checks no shape.  It returns the rows
    exactly when every result without ["error"] holds dictionaries, if
    anything, under its six sections, and values that can be joined under
    the eight lists of skills and supporting information; one model
    response with, say, a string or [null] for a section makes the whole
    export raise.  Results that hold ["error"] never make it raise. *)
Theorem flatten_returns_iff results :
  (∃ rows, flatten_resume_data keys_in_order now results = Return rows)
  ↔ Forall (λ r, has_error r = true ∨ flattenable r) results.
Proof.
  unfold flatten_resume_data. generalize 0.
  induction results as [|r results IH]; intros i.
  { split; [done|by exists []]. }
  rewrite Forall_cons, <- (IH (S i)), <- (flatten_row_returns i). cbn [flatten_from]. split.
  - intros [rows H]. apply bind_returns in H as (row & Hrow & H).
    apply bind_returns in H as (rows' & Hrows & _). split; by eexists.
  - intros [[row ->] [rows ->]]. by eexists.
Qed.

Lemma flatten_from_rows i results rows :
  flatten_from keys_in_order now i results = Return rows →
  Forall2 (λ k_r row, flatten_row keys_in_order now k_r.1 k_r.2 = Return row)
          (imap (λ k r, (i + k, r)) results) rows.
Proof.
  revert i rows. induction results as [|r results IH]; intros i rows H.
  { injection H as <-. constructor. }
  cbn [flatten_from] in H. apply bind_returns in H as (row & Hrow & H).
  apply bind_returns in H as (rows' & Hrows & [= <-]).
  cbn [imap]. constructor.
  - cbn [fst snd]. by rewrite Nat.add_0_r.
  - apply IH in Hrows. erewrite imap_ext; [exact Hrows|].
    intros k x _. cbn. f_equal. lia.
Qed.

Lemma flatten_row_at results rows :
  flatten_resume_data keys_in_order now results = Return rows →
  length rows = length results
  ∧ ∀ i r, results !! i = Some r →
      ∃ row, rows !! i = Some row ∧ flatten_row keys_in_order now i r = Return row.
Proof.
  intros H. apply flatten_from_rows in H.
  pose proof (Forall2_length _ _ _ H) as Hlen. rewrite length_imap in Hlen.
  split; [done|]. intros i r Hr.
  assert (Hir : imap (λ k r, (0 + k, r)) results !! i = Some (i, r)).
  { by rewrite list_lookup_imap, Hr. }
  destruct (Forall2_lookup_l _ _ _ _ _ H Hir) as (row & Hrow & Hflat).
  by exists row.
Qed.

(** X15.  The rows [flatten_resume_data] returns: one for each result, in
    the order of the results; the row of a result that holds ["error"] has
    the status [Error], the error as its message, the [file_name] of the
    result, or [Unknown] if it has none, and the time of the clock; the
    row of any other result has the status [Success], an empty message,
    the name of the candidate, and the file name and the time found in
    [analysis_metadata]. *)
Theorem flattened_rows results rows :
  flatten_resume_data keys_in_order now results = Return rows →
  length rows = length results
  ∧ ∀ i r, results !! i = Some r →
      ∃ row, rows !! i = Some row
        ∧ match r !! "error" with
          | Some error =>
              has_error r = true
              ∧ row !! "status" = Some (JStr "Error")
              ∧ row !! "error_message" = Some error
              ∧ row !! "file_name"
                = Some (from_option id (JStr "Unknown") (r !! "file_name"))
              ∧ row !! "processing_timestamp" = Some (JStr (now i))
          | None =>
              has_error r = false
              ∧ row !! "status" = Some (JStr "Success")
              ∧ row !! "error_message" = Some (JStr "")
              ∧ row !! "name" = Some (from_option id (JStr "") (r !! "name"))
              ∧ ∃ md, from_option id (JDict ∅) (r !! "analysis_metadata") = JDict md
                  ∧ row !! "file_name"
                    = Some (from_option id (JStr "") (md !! "file_name"))
                  ∧ row !! "processing_timestamp"
                    = Some (from_option id (JStr "") (md !! "processing_timestamp"))
          end.
Proof.
  intros H. apply flatten_row_at in H as [Hlen Hrows].
  split; [done|]. intros i r Hr.
  destruct (Hrows i r Hr) as (row & Hrow & Hflat).
  exists row. split; [done|]. unfold flatten_row in Hflat.
  destruct (r !! "error") as [error|] eqn:He.
  - injection Hflat as <-. split.
    { unfold has_error. apply bool_decide_eq_true. rewrite He. by eexists. }
    apply error_row_entries.
  - split; [by apply has_error_lookup|]. by apply success_row_entries.
Qed.

End FlattenRows.

(** ** From the run to the export *)

Section RunToExport.
Context (cfg : Config) (env : Env) (sched : scheduler).
Context (keys_in_order : dict → list string) (now : nat → string).

(** The loop over the scores returns for the results whose scores, if
    any, are a dictionary. *)
Lemma read_scores_returns successful :
  (∃ u, read_scores successful = Return u)
  ↔ Forall (λ r, section_is_dict r "experience_scores") successful.
Proof.
  induction successful as [|r successful IH]; [split; [done|by exists tt]|].
  rewrite Forall_cons, <- IH. cbn [read_scores]. unfold section_is_dict.
  destruct (r !! "experience_scores") as [[| | | | | |scores]|]; cbn [from_option id get except_bind];
    try (split; [by intros [? ?]|by intros [? ?]]); (split; [by intros ?|by intros [_ ?]]).
Qed.

Lemma generate_summary_stats_returns results :
  (∃ stats, generate_summary_stats results = Return stats)
  ↔ Forall (λ r, has_error r = true ∨ section_is_dict r "experience_scores") results.
Proof.
  unfold generate_summary_stats.
  assert (Hfilter : Forall (λ r, section_is_dict r "experience_scores")
                      (successful_results results)
                    ↔ Forall (λ r, has_error r = true
                                   ∨ section_is_dict r "experience_scores") results).
  { unfold successful_results. induction results as [|r results IH]; [done|].
    rewrite filter_cons, Forall_cons, <- IH.
    destruct (has_error r) eqn:Hr.
    - rewrite decide_False by done. split; [intros ?; split; [by left|done]|by intros [_ ?]].
    - rewrite decide_True by done. rewrite Forall_cons.
      split; [intros [? ?]; split; [by right|done]|intros [[?|?] ?]; done]. }
  rewrite <- Hfilter, <- read_scores_returns.
  destruct (read_scores (successful_results results)) as [[]|e]; cbn [except_bind].
  - split; by eexists.
  - split; by intros [? ?].
Qed.

Lemma generate_summary_stats_counts results stats :
  generate_summary_stats results = Return stats →
  total_files stats = length results
  ∧ successful_analyses stats = length (successful_results results)
  ∧ failed_analyses stats = length (failed_results results).
Proof.
  unfold generate_summary_stats.
  destruct (read_scores (successful_results results)) as [[]|e]; cbn [except_bind]; [|done].
  by intros [= <-].
Qed.


Context (files : list UploadedFile) (progress_callback : bool) (w : trace).

Hypothesis size_positive : (0 < BATCH_SIZE cfg)%Z.
Hypothesis capacity_positive : (0 < MAX_CONCURRENT_REQUESTS cfg)%Z.
Hypothesis sched_fair : fair sched.


(** X13.  From [process_batch] to [save_to_json] and
    [generate_summary_stats].  The saved metadata count every uploaded
    file once, as a success or as a failure, and the results are saved as
    they are, in their order.  The summary returns exactly when every
    result without ["error"] holds a dictionary, if anything, under
    ["experience_scores"]; otherwise it raises.  When it returns, its
    counts are those of the saved metadata. *)
Theorem saved_counts_cover_the_upload (generated_at : string) :
  ∃ results w' metadata,
    process_batch cfg env sched files progress_callback w = Done (results, w')
    ∧ output_data results generated_at !! "results" = Some (JList (JDict <$> results))
    ∧ output_data results generated_at !! "metadata" = Some (JDict metadata)
    ∧ metadata !! "total_resumes" = Some (JInt (Z.of_nat (length files)))
    ∧ metadata !! "successful_analyses"
      = Some (JInt (Z.of_nat (length (successful_results results))))
    ∧ metadata !! "failed_analyses"
      = Some (JInt (Z.of_nat (length (failed_results results))))
    ∧ length (successful_results results) + length (failed_results results)
      = length files
    ∧ ((∃ stats, generate_summary_stats results = Return stats)
       ↔ Forall (λ r, has_error r = true ∨ section_is_dict r "experience_scores") results)
    ∧ ∀ stats, generate_summary_stats results = Return stats →
        total_files stats = length files
        ∧ metadata !! "successful_analyses"
          = Some (JInt (Z.of_nat (successful_analyses stats)))
        ∧ metadata !! "failed_analyses" = Some (JInt (Z.of_nat (failed_analyses stats)))
        ∧ successful_analyses stats + failed_analyses stats = length files.
Proof.
  destruct (process_batch_spec cfg env sched files progress_callback w
              size_positive capacity_positive sched_fair)
    as (results & evs & Hrun & Hprod & _).
  assert (Hlen : length results = length files) by (symmetry; by eapply Forall2_length).
  destruct (output_data_counts results generated_at) as (metadata & Hmd & Ht & Hs & Hf).
  pose proof (results_split results) as Hsplit.
  exists results, (w ++ evs), metadata. split; [done|]. split; [done|].
  split; [done|]. split; [by rewrite <- Hlen|]. split; [done|]. split; [done|].
  split; [by rewrite <- Hlen|]. split; [apply generate_summary_stats_returns|].
  intros stats Hstats.
  destruct (generate_summary_stats_counts results stats Hstats) as (H1 & H2 & H3).
  rewrite H1, H2, H3. split; [done|]. split; [done|]. split; [done|]. by rewrite <- Hlen.
Qed.

End RunToExport.

(** ** The file information and the prompt *)

Section FileInfo.
Local Open Scope Q_scope.

Lemma accepted_file file :
  (validate_file file).1 = true →
  file_extension (uf_name file) ∈ SUPPORTED_FORMATS
  ∧ (uf_size file ≤ MAX_FILE_SIZE_MB * 1024 * 1024)%Z.
Proof.
  unfold validate_file. case_bool_decide as Hext; cbn [negb]; [|done].
  destruct (Z_le_gt_dec (uf_size file) (MAX_FILE_SIZE_MB * 1024 * 1024)) as [Hle|Hgt].
  - done.
  - by rewrite (oversized (uf_size file)) by lia.
Qed.

Lemma round2_mono x y : x <= y → Float64.round2 x <= Float64.round2 y.
Proof.
  intros Hxy. unfold Float64.round2. apply round64_mono.
  apply Qmult_le_compat_r; [|done].
  rewrite <- Zle_Qle. apply rneQ_mono. by apply Qmult_le_compat_r.
Qed.

(** X17.  [get_file_info] after [validate_file]: the information of an
    accepted file holds its name as uploaded, a type that is one of the
    supported formats, in lower case, and a size in megabytes, rounded to
    two decimals, between 0 and [MAX_FILE_SIZE_MB]. *)
Theorem file_info_of_an_accepted_file file :
  (validate_file file).1 = true → (0 ≤ uf_size file)%Z →
  ∃ info type size_mb,
    get_file_info file = JDict info
    ∧ info !! "name" = Some (JStr (uf_name file))
    ∧ info !! "type" = Some (JStr type) ∧ type ∈ SUPPORTED_FORMATS
    ∧ info !! "size_mb" = Some (JFloat size_mb)
    ∧ 0 <= size_mb ∧ size_mb <= inject_Z MAX_FILE_SIZE_MB.
Proof.
  intros Hvalid Hsize. destruct (accepted_file file Hvalid) as [Hext Hle].
  eexists _, _, _. split; [reflexivity|].
  split; [apply lookup_insert_eq|].
  split; [do 2 (rewrite lookup_insert_ne by done); apply lookup_insert_eq|].
  split; [done|].
  split; [rewrite lookup_insert_ne by done; apply lookup_insert_eq|].
  split.
  - replace (0 : Q) with (Float64.round2 (Float64.truediv 0 (1024 * 1024)))
      by (vm_compute; reflexivity).
    apply round2_mono, truediv_mono; lia.
  - replace (inject_Z MAX_FILE_SIZE_MB)
      with (Float64.round2 (Float64.truediv (MAX_FILE_SIZE_MB * 1024 * 1024) (1024 * 1024)))
      by (vm_compute; reflexivity).
    apply round2_mono, truediv_mono; [lia|done].
Qed.

Lemma string_app_inj_l (s a b : string) : s +:+ a = s +:+ b → a = b.
Proof. induction s as [|c s IH]; [done|]. intros [= H]. by apply IH. Qed.

Lemma string_app_inj_r (s a b : string) : a +:+ s = b +:+ s → a = b.
Proof.
  intros H. apply (f_equal list_ascii_of_string) in H.
  rewrite !list_ascii_app in H. apply app_inv_tail in H.
  apply (f_equal string_of_list_ascii) in H.
  by rewrite !string_of_list_ascii_of_string in H.
Qed.

(** X18.  [create_analysis_prompt] puts the text of the resume into the
    prompt whole, between the same instructions: nothing is cut or
    escaped, and two texts get the same prompt only when they are the same
    text. *)
Theorem prompt_carries_the_whole_text text text' :
  create_analysis_prompt text = create_analysis_prompt text' ↔ text = text'.
Proof.
  split; [|by intros ->]. unfold create_analysis_prompt. intros H.
  do 4 apply string_app_inj_l in H. by apply string_app_inj_r in H.
Qed.

End FileInfo.
(* ===================================================================== *)
(** * Part III: the claims at work *)
(* ===================================================================== *)

Section Examples.
Import Sample.

(** C1 at work: three files, the default settings, and a loop that runs
    the tasks of a chunk last to first. *)
Lemma process_batch_preserves_order_witness :
  (0 < BATCH_SIZE default_config)%Z ∧ (0 < MAX_CONCURRENT_REQUESTS default_config)%Z
  ∧ fair lifo
  ∧ ∃ results w',
      process_batch default_config (env (Return good_response)) lifo three_files true []
      = Done (results, w')
      ∧ length results = length three_files
      ∧ ∀ i file, three_files !! i = Some file →
          ∃ w_i, [] `prefix_of` w_i
                 ∧ (process_file (env (Return good_response)) file w_i).2 `prefix_of` w'
                 ∧ results !! i
                   = Some (settle file (process_file (env (Return good_response)) file w_i).1).
Proof.
  split; [simpl; lia|]. split; [simpl; lia|]. split; [apply lifo_fair|].
  apply (process_batch_preserves_order default_config (env (Return good_response)) lifo
           three_files true []); [simpl; lia|simpl; lia|apply lifo_fair].
Defined.

(** When the loop runs the tasks last to first, the first file is the one
    that finds no room; each outcome still stands at the index of its
    file. *)
Example order_of_results_is_the_order_of_files :
  match process_batch default_config (small_disk 2 (Return good_response)) lifo
          three_files false [] with
  | Done (results, _) =>
      has_error <$> results = [true; false; false]
      ∧ (λ r : dict, r !! "file_info" ≫= λ i, match i with
                                               | JDict info => info !! "name"
                                               | _ => None
                                               end) <$> results
        = [None; Some (JStr "bo.pdf"); Some (JStr "CHEN.PDF")]
  | _ => False
  end.
Proof. vm_compute. split; reflexivity. Qed.

(** C2 at work: three files and room for two temporary files. *)
Lemma process_batch_isolates_failures_witness :
  (0 < BATCH_SIZE default_config)%Z ∧ (0 < MAX_CONCURRENT_REQUESTS default_config)%Z
  ∧ fair fifo
  ∧ ∃ results w',
      process_batch default_config (small_disk 2 (Return good_response)) fifo three_files
        false []
      = Done (results, w')
      ∧ ∀ i file, three_files !! i = Some file →
          ∃ w_i, [] `prefix_of` w_i
                 ∧ (process_file (small_disk 2 (Return good_response)) file w_i).2
                   `prefix_of` w'
                 ∧ match (process_file (small_disk 2 (Return good_response)) file w_i).1 with
                   | Raise e =>
                       results !! i
                       = Some {[ "error" := JStr ("Processing error: " +:+ str e);
                                 "file_name" := JStr (uf_name file) ]}
                       ∧ ∀ d, results !! i = Some d → has_error d = true
                   | Return d => results !! i = Some d
                   end.
Proof.
  split; [simpl; lia|]. split; [simpl; lia|]. split; [apply fifo_fair|].
  apply (process_batch_isolates_failures default_config
           (small_disk 2 (Return good_response)) fifo three_files false []);
    [simpl; lia|simpl; lia|apply fifo_fair].
Defined.

(** With room for two temporary files, the third task raises; its slot
    holds the failure record and the first two keep their analyses. *)
Example third_file_fails_alone :
  match process_batch default_config (small_disk 2 (Return good_response)) fifo
          three_files false [] with
  | Done (results, _) =>
      has_error <$> results = [false; false; true]
      ∧ results !! 2
        = Some {[ "error" := JStr ("Processing error: Error saving uploaded file: "
                                   +:+ "[Errno 28] No space left on device");
                  "file_name" := JStr "CHEN.PDF" ]}
  | _ => False
  end.
Proof. vm_compute. split; reflexivity. Qed.

(** Without capacity in the semaphore no task ever starts, and a zero
    chunk size is refused by [range]. *)
Example run_needs_capacity :
  process_batch {| BATCH_SIZE := 10; MAX_CONCURRENT_REQUESTS := 0; RATE_LIMIT_DELAY := 1 |}
    (env (Return good_response)) fifo three_files true []
  = Hangs
  ∧ process_batch {| BATCH_SIZE := 0; MAX_CONCURRENT_REQUESTS := 5; RATE_LIMIT_DELAY := 1 |}
      (env (Return good_response)) fifo three_files true []
    = Fails (Exception "range() arg 3 must not be zero").
Proof. vm_compute. split; reflexivity. Qed.

(** C3 as stated fails.  The model answers with JSON that has an
    ["error"] key of its own: the [try] block returns the record, and the
    aggregator counts it among the failures. *)
Lemma success_path_record_counted_as_failure :
  let env := env (Return apologetic_response) in
  (∃ d, (analyze_try env temp_pdf "cv.pdf" []).1.2 = Return d)
  ∧ has_error (analyze_single_resume env temp_pdf "cv.pdf" []).1 = true
  ∧ match process_batch default_config env fifo [pdf "cv.pdf" 182044] false [] with
    | Done (results, _) =>
        length (failed_results results) = 1 ∧ length (successful_results results) = 0
        ∧ ∃ stats, generate_summary_stats results = Return stats
                   ∧ failed_analyses stats = 1 ∧ successful_analyses stats = 0
    | _ => False
    end.
Proof.
  cbv zeta. split; [|split].
  - eexists. vm_compute. reflexivity.
  - vm_compute. reflexivity.
  - vm_compute. split; [reflexivity|]. split; [reflexivity|]. by eexists.
Qed.

(** C3 at work: a file that validation rejects, and a file whose analysis
    the model answers well: the record of the first carries the key, and
    the record of the second does not, as the answer of the model does
    not. *)
Lemma outcomes_are_told_apart_witness :
  let env := env (Return good_response) in
  (validate_file (pdf "notes.txt" 2048)).1 = false
  ∧ (∃ d, (process_file env (pdf "notes.txt" 2048) []).1 = Return d ∧ has_error d = true)
  ∧ ∃ d d0,
      (analyze_try env temp_pdf "cv.pdf" []).1.2 = Return d
      ∧ generate_content env ([] ++ [EvExtract temp_pdf])
          (create_analysis_prompt "Jane Doe, MSc, Python and SQL")
        = Return good_response
      ∧ json_loads env (Py.strip good_response) = Return (JDict d0)
      ∧ (analyze_single_resume env temp_pdf "cv.pdf" []).1 = d
      ∧ d !! "error" = d0 !! "error"
      ∧ has_error (analyze_single_resume env temp_pdf "cv.pdf" []).1 = has_error d0.
Proof.
  cbv zeta.
  destruct (outcomes_are_told_apart_by_the_error_key (env (Return good_response)) []
              (pdf "notes.txt" 2048) temp_pdf "cv.pdf" [] (Exception ""))
    as (_ & _ & Hrejected & _ & Hreturned & _).
  split; [reflexivity|]. split; [apply Hrejected; reflexivity|].
  destruct (analyze_try (env (Return good_response)) temp_pdf "cv.pdf" []).1.2
    as [d|e] eqn:Hd; [|vm_compute in Hd; discriminate].
  destruct (Hreturned d eq_refl)
    as (text & raw & d0 & md0 & Htext & Hraw & Hd0 & _ & Hout & _ & Herr & Hsame).
  injection Htext as <-. injection Hraw as <-.
  exists d, d0. split; [reflexivity|]. split; [reflexivity|]. split; [exact Hd0|].
  split; [exact Hout|]. split; [exact Herr|exact Hsame].
Defined.

(** C4 at work: a file of 15 MB. *)
Lemma invalid_input_rejected_witness :
  (file_extension (uf_name (pdf "huge.pdf" 15728640)) ∉ SUPPORTED_FORMATS
   ∨ (MAX_FILE_SIZE_MB * 1024 * 1024 < uf_size (pdf "huge.pdf" 15728640))%Z)
  ∧ ∃ error_msg,
      process_file (env (Return good_response)) (pdf "huge.pdf" 15728640) []
      = (Return {[ "error" := JStr error_msg; "file_name" := JStr "huge.pdf" ]}, [])
      ∧ (error_msg = ERROR_MESSAGES "unsupported_format"
         ∨ error_msg = ERROR_MESSAGES "file_too_large")
      ∧ extractions (process_file (env (Return good_response))
                       (pdf "huge.pdf" 15728640) []).2 = extractions []
      ∧ model_calls (process_file (env (Return good_response))
                       (pdf "huge.pdf" 15728640) []).2 = model_calls [].
Proof.
  split; [right; vm_compute; reflexivity|].
  apply (invalid_input_rejected (env (Return good_response)) (pdf "huge.pdf" 15728640) []).
  right. vm_compute. reflexivity.
Defined.

(** The example of the specification: one file of 15 MB under the limit of
    10 MB.  The run returns a single failure and no prompt is sent. *)
Example oversized_file_alone :
  match process_batch default_config (env (Return good_response)) fifo
          [pdf "huge.pdf" 15728640] true [] with
  | Done (results, w') =>
      results = [ {[ "error" := JStr "File size exceeds maximum limit of 10MB";
                     "file_name" := JStr "huge.pdf" ]} ]
      ∧ model_calls w' = [] ∧ extractions w' = []
  | _ => False
  end.
Proof. vm_compute. repeat split; reflexivity. Qed.

(** A text file is refused whatever its size. *)
Example text_file_refused :
  process_file (env (Return good_response)) (pdf "notes.txt" 2048) []
  = (Return {[ "error" := JStr "Unsupported file format. Please upload PDF or DOCX files.";
               "file_name" := JStr "notes.txt" ]}, []).
Proof. vm_compute. reflexivity. Qed.

(** C5 as stated fails.  The model answers with a text nested too deep:
    the decoder fails, with a [RecursionError], which is not a
    [JSONDecodeError]; the outcome is the generic failure record, and the
    response is not kept. *)
Lemma nested_response_loses_raw_text :
  let env := env (Return nested_response) in
  let text := "Jane Doe, MSc, Python and SQL" in
  extract_text_from_file env [] temp_pdf = Return text
  ∧ generate_content env ([] ++ [EvExtract temp_pdf]) (create_analysis_prompt text)
    = Return nested_response
  ∧ json_loads env (Py.strip nested_response)
    = Raise (Exception ("maximum recursion depth exceeded while decoding "
                        +:+ "a JSON array from a unicode string"))
  ∧ (analyze_single_resume env temp_pdf "cv.pdf" []).1
    = {[ "error" := JStr ("Error analyzing resume: "
                          +:+ "maximum recursion depth exceeded while decoding "
                          +:+ "a JSON array from a unicode string");
         "file_name" := JStr "cv.pdf" ]}
  ∧ (analyze_single_resume env temp_pdf "cv.pdf" []).1 !! "raw_response" = None.
Proof.
  cbv zeta. split; [reflexivity|]. split; [reflexivity|].
  split; [vm_compute; reflexivity|]. split; vm_compute; reflexivity.
Qed.

(** C5 at work: a response in prose, with blanks around it. *)
Lemma parse_failure_keeps_raw_response_witness :
  let env := env (Return "  Sorry, I cannot read this resume. ") in
  let text := "Jane Doe, MSc, Python and SQL" in
  extract_text_from_file env [] temp_pdf = Return text
  ∧ generate_content env ([] ++ [EvExtract temp_pdf]) (create_analysis_prompt text)
    = Return "  Sorry, I cannot read this resume. "
  ∧ json_loads env (Py.strip "  Sorry, I cannot read this resume. ")
    = Raise (JSONDecodeError "Expecting value")
  ∧ (analyze_single_resume env temp_pdf "cv.pdf" []).1
    = {[ "error" := JStr ("Failed to parse AI response as JSON: " +:+ "Expecting value");
         "file_name" := JStr "cv.pdf";
         "raw_response" := JStr "  Sorry, I cannot read this resume. " ]}.
Proof.
  cbv zeta. split; [reflexivity|]. split; [reflexivity|]. split; [reflexivity|].
  apply (proj1 (proj2 (parse_failure_keeps_raw_response
           (env (Return "  Sorry, I cannot read this resume. ")) temp_pdf "cv.pdf" []
           "Jane Doe, MSc, Python and SQL" "  Sorry, I cannot read this resume. "
           eq_refl eq_refl))).
  reflexivity.
Defined.

(** The white space [strip] takes off is that of Unicode: a no-break
    space and a line feed before the object, an em space and a line
    separator after it. *)
Example strip_takes_unicode_space_off :
  let no_break_space := string_of_list_ascii (ascii_of_N <$> [194; 160]%N) in
  let em_space := string_of_list_ascii (ascii_of_N <$> [226; 128; 131]%N) in
  let line_separator := string_of_list_ascii (ascii_of_N <$> [226; 128; 168]%N) in
  Py.strip (no_break_space +:+ Py.nl +:+ "{}" +:+ em_space +:+ line_separator) = "{}"
  ∧ Py.strip " a b " = "a b"
  ∧ Py.strip "   " = "".
Proof. vm_compute. repeat split; reflexivity. Qed.


(** The two values: the float nearest to 200/3, which is not 200/3, and
    100. *)
Example two_calls_for_three_files :
  match process_batch
          {| BATCH_SIZE := 2; MAX_CONCURRENT_REQUESTS := 5; RATE_LIMIT_DELAY := 1 |}
          (env (Return good_response)) lifo three_files true [] with
  | Done (_, evs) =>
      progress_values evs = [(2345624805922133 # 35184372088832)%Q; 100%Q]
  | _ => False
  end.
Proof. vm_compute. reflexivity. Qed.

(** Three files in chunks of two: the percentage of the first chunk is the
    float nearest to 200/3. *)
Example two_of_three :
  progress 2 3 = (2345624805922133 # 35184372088832)%Q
  ∧ progress 3 3 = 100%Q.
Proof. vm_compute. split; reflexivity. Qed.


(** The example of the specification, run: 25 files in chunks of 10. *)
Example twenty_five_files :
  match process_batch default_config (env (Return good_response)) lifo
          (replicate 25 (pdf "cv.pdf" 182044)) true [] with
  | Done (results, w') =>
      length results = 25
      ∧ orchestration w'
        = [ EvGather 10; EvProgress 40; EvSleep 1;
            EvGather 10; EvProgress 80; EvSleep 1;
            EvGather 5; EvProgress 100 ]
      ∧ length (delays w') = 2
      ∧ progress_values w' = [40%Q; 80%Q; 100%Q]
  | _ => False
  end.
Proof. vm_compute. repeat split; reflexivity. Qed.

(** C8 at work: the model reports the name [resume_final_v2.pdf] and the
    time [now]; the record holds the name of the upload and the time of
    the clock. *)
Lemma metadata_is_stamped_witness :
  let env := env (Return good_response) in
  ∃ d,
    (analyze_try env temp_pdf "cv.pdf" []).1.2 = Return d
    ∧ (analyze_single_resume env temp_pdf "cv.pdf" []).1 = d
    ∧ ∃ md, d !! "analysis_metadata" = Some (JDict md)
            ∧ md !! "file_name" = Some (JStr "cv.pdf")
            ∧ md !! "processing_timestamp" = Some (JStr "2024-05-17 09:30:00").
Proof.
  cbv zeta.
  destruct (analyze_try (env (Return good_response)) temp_pdf "cv.pdf" []).1.2
    as [d|e] eqn:Hd; [|vm_compute in Hd; discriminate].
  exists d. split; [reflexivity|].
  destruct (metadata_is_stamped (env (Return good_response)) temp_pdf "cv.pdf" [] d Hd)
    as (Hout & d0 & md0 & md & -> & _ & -> & Hname & Htime & _).
  split; [exact Hout|]. eexists. split; [apply lookup_insert_eq|].
  split; [exact Hname|exact Htime].
Defined.

(** C9 as stated fails.  A PDF that cannot be read, and a model call that
    fails with the very text an unreadable PDF would give, end in the same
    record: nothing in the outcome tells the two kinds apart. *)
Lemma extraction_and_api_failure_same_record :
  let cause := "No /Root object! - Is this really a PDF?" in
  let env_a := unreadable cause (Return good_response) in
  let env_b := env (Raise (Exception ("Error extracting text from file: " +:+ cause))) in
  extract_text_attempt env_a [] temp_pdf = Raise (Exception cause)
  ∧ (∃ text,
       extract_text_from_file env_b [] temp_pdf = Return text
       ∧ generate_content env_b ([] ++ [EvExtract temp_pdf]) (create_analysis_prompt text)
         = Raise (Exception ("Error extracting text from file: " +:+ cause)))
  ∧ (analyze_single_resume env_a temp_pdf "cv.pdf" []).1
    = (analyze_single_resume env_b temp_pdf "cv.pdf" []).1.
Proof.
  cbv zeta. split; [reflexivity|]. split; [by eexists|]. vm_compute. reflexivity.
Qed.

(** C9 at work: a PDF that cannot be read. *)
Lemma extraction_and_api_failures_witness :
  let env := unreadable "No /Root object! - Is this really a PDF?" (Return good_response) in
  extract_text_attempt env [] temp_pdf
  = Raise (Exception "No /Root object! - Is this really a PDF?")
  ∧ (analyze_single_resume env temp_pdf "cv.pdf" []).1
    = {[ "error" := JStr ("Error analyzing resume: "
                          +:+ "Error extracting text from file: "
                          +:+ "No /Root object! - Is this really a PDF?");
         "file_name" := JStr "cv.pdf" ]}.
Proof.
  cbv zeta. split; [reflexivity|].
  apply (proj1 (extraction_and_api_failures
                  (unreadable "No /Root object! - Is this really a PDF?" (Return good_response))
                  temp_pdf "cv.pdf" [])
           (Exception "No /Root object! - Is this really a PDF?")).
  reflexivity.
Defined.

(** C10 at work: the model answers with an empty object. *)
Lemma missing_metadata_is_a_failure_witness :
  let env := env (Return "{}") in
  let text := "Jane Doe, MSc, Python and SQL" in
  extract_text_from_file env [] temp_pdf = Return text
  ∧ generate_content env ([] ++ [EvExtract temp_pdf]) (create_analysis_prompt text)
    = Return "{}"
  ∧ json_loads env (Py.strip "{}") = Return (JDict ∅)
  ∧ stampable (JDict ∅) = false
  ∧ ∃ msg,
      (analyze_single_resume env temp_pdf "cv.pdf" []).1
      = {[ "error" := JStr ("Error analyzing resume: " +:+ msg);
           "file_name" := JStr "cv.pdf" ]}
      ∧ has_error (analyze_single_resume env temp_pdf "cv.pdf" []).1 = true.
Proof.
  cbv zeta. split; [reflexivity|]. split; [reflexivity|]. split; [reflexivity|].
  split; [reflexivity|].
  apply (proj1 (missing_metadata_is_a_failure (env (Return "{}")) temp_pdf "cv.pdf" []
                  "Jane Doe, MSc, Python and SQL" "{}" (JDict ∅)
                  eq_refl eq_refl eq_refl)).
  reflexivity.
Defined.

(** The message for a response without metadata is the text of the
    [KeyError]. *)
Example empty_object_response :
  (analyze_single_resume (env (Return "{}")) temp_pdf "cv.pdf" []).1
  = {[ "error" := JStr "Error analyzing resume: 'analysis_metadata'";
       "file_name" := JStr "cv.pdf" ]}.
Proof. vm_compute. reflexivity. Qed.

(** The rounding of [Float64] is that of the kernel's binary64 numbers:
    the percentages of every run of up to 40 files, and the sizes in
    megabytes of some files, come out the same. *)
Example progress_agrees_with_binary64 :
  forallb (λ total,
    forallb (λ processed,
      Binary64.same (Binary64.percent (Z.of_nat processed) (Z.of_nat total))
                    (progress (Z.of_nat processed) (Z.of_nat total)))
      (seq 0 (S total)))
    (seq 1 40)
  = true.
Proof. vm_compute. reflexivity. Qed.

Example file_size_mb_agrees_with_binary64 :
  forallb (λ bytes,
    Binary64.same (Binary64.truediv bytes (1024 * 1024))
                  (Float64.truediv bytes (1024 * 1024)))
    [0; 1; 2048; 182044; 10485759; 10485760; 10485761; 15728640; 1073741823]%Z
  = true.
Proof. vm_compute. reflexivity. Qed.


(** ** The further properties at work *)

(** X2 at work: three files in chunks of two. *)
Lemma progress_values_bounded_witness :
  let cfg := {| BATCH_SIZE := 2; MAX_CONCURRENT_REQUESTS := 5; RATE_LIMIT_DELAY := 1 |} in
  (0 < BATCH_SIZE cfg)%Z ∧ (0 < MAX_CONCURRENT_REQUESTS cfg)%Z ∧ fair fifo
  ∧ (Z.of_nat (length three_files) ≤ 2 ^ 53)%Z
  ∧ ∃ results evs,
      process_batch cfg (env (Return good_response)) fifo three_files true []
      = Done (results, [] ++ evs)
      ∧ ∀ j x, progress_values evs !! j = Some x →
          (0 <= x)%Q ∧ (x <= 100)%Q
          ∧ (S j < length (progress_values evs) → (x < 100)%Q)
          ∧ (S j = length (progress_values evs) → x = 100%Q).
Proof.
  cbv zeta.
  split; [simpl; lia|]. split; [simpl; lia|]. split; [apply fifo_fair|].
  split; [simpl; lia|].
  apply (progress_values_bounded
           {| BATCH_SIZE := 2; MAX_CONCURRENT_REQUESTS := 5; RATE_LIMIT_DELAY := 1 |}
           (env (Return good_response)) fifo three_files []);
    [simpl; lia|simpl; lia|apply fifo_fair|simpl; lia].
Defined.

(** Three files in chunks of two: the callback hears of two thirds, then
    of the whole. *)
Example two_calls_of_the_callback :
  match process_batch
          {| BATCH_SIZE := 2; MAX_CONCURRENT_REQUESTS := 5; RATE_LIMIT_DELAY := 1 |}
          (env (Return good_response)) fifo three_files true [] with
  | Done (_, evs) => progress_values evs = [progress 2 3; 100%Q] ∧ gathers evs = [2; 1]
  | _ => False
  end.
Proof. vm_compute. split; reflexivity. Qed.

(** X3 at work: three files in chunks of two, the tasks run last to
    first. *)
Lemma gathers_are_bounded_witness :
  let cfg := {| BATCH_SIZE := 2; MAX_CONCURRENT_REQUESTS := 5; RATE_LIMIT_DELAY := 1 |} in
  (0 < BATCH_SIZE cfg)%Z ∧ (0 < MAX_CONCURRENT_REQUESTS cfg)%Z ∧ fair lifo
  ∧ ∃ results evs,
      process_batch cfg (env (Return good_response)) lifo three_files false []
      = Done (results, [] ++ evs)
      ∧ length (gathers evs) = chunk_count cfg three_files
      ∧ (∀ k s, gathers evs !! k = Some s →
           1 ≤ s ≤ Z.to_nat (BATCH_SIZE cfg)
           ∧ (S k < length (gathers evs) → s = Z.to_nat (BATCH_SIZE cfg)))
      ∧ sum_list (gathers evs) = length three_files.
Proof.
  cbv zeta.
  split; [simpl; lia|]. split; [simpl; lia|]. split; [apply lifo_fair|].
  apply (gathers_are_bounded
           {| BATCH_SIZE := 2; MAX_CONCURRENT_REQUESTS := 5; RATE_LIMIT_DELAY := 1 |}
           (env (Return good_response)) lifo three_files false []);
    [simpl; lia|simpl; lia|apply lifo_fair].
Defined.

(** X4 at work: with room for two temporary files, the third outcome is a
    failure record; it names its file as the two analyses do. *)
Lemma outcomes_name_their_files_witness :
  (0 < BATCH_SIZE default_config)%Z ∧ (0 < MAX_CONCURRENT_REQUESTS default_config)%Z
  ∧ fair fifo
  ∧ ∃ results w',
      process_batch default_config (small_disk 2 (Return good_response)) fifo three_files
        false []
      = Done (results, w')
      ∧ ∀ i file, three_files !! i = Some file →
          ∃ d, results !! i = Some d ∧ names_file d file.
Proof.
  split; [simpl; lia|]. split; [simpl; lia|]. split; [apply fifo_fair|].
  apply (outcomes_name_their_files default_config (small_disk 2 (Return good_response))
           fifo three_files false []); [simpl; lia|simpl; lia|apply fifo_fair].
Defined.

(** X5 at work: the same three outcomes, whether the loop runs the tasks
    first to last in chunks of ten, or last to first, one at a time, in
    chunks of two. *)
Lemma outcomes_do_not_depend_on_the_schedule_witness :
  let cfg := {| BATCH_SIZE := 2; MAX_CONCURRENT_REQUESTS := 1; RATE_LIMIT_DELAY := 0 |} in
  history_free (steady (Return good_response))
  ∧ ∃ w' w'',
      process_batch default_config (steady (Return good_response)) fifo three_files true []
      = Done ((λ file, settle file (process_file (steady (Return good_response)) file []).1)
              <$> three_files, w')
      ∧ process_batch cfg (steady (Return good_response)) lifo three_files false []
        = Done ((λ file, settle file (process_file (steady (Return good_response)) file []).1)
                <$> three_files, w'').
Proof.
  cbv zeta.
  assert (Hfree : history_free (steady (Return good_response)))
    by (intros w w'; repeat split; reflexivity).
  split; [exact Hfree|].
  destruct (outcomes_do_not_depend_on_the_schedule default_config
              (steady (Return good_response)) fifo three_files true [])
    as [w' Hrun]; [simpl; lia|simpl; lia|apply fifo_fair|exact Hfree|].
  destruct (outcomes_do_not_depend_on_the_schedule
              {| BATCH_SIZE := 2; MAX_CONCURRENT_REQUESTS := 1; RATE_LIMIT_DELAY := 0 |}
              (steady (Return good_response)) lifo three_files false [])
    as [w'' Hrun']; [simpl; lia|simpl; lia|apply lifo_fair|exact Hfree|].
  exists w', w''. split; [exact Hrun|exact Hrun'].
Defined.

(** X6 at work: the model reports a name and a time of its own; the record
    of the task holds the name of the upload and the information of the
    upload. *)
Lemma analysed_record_is_the_response_witness :
  let env := env (Return good_response) in
  let file := pdf "ana.pdf" 182044 in
  (validate_file file).1 = true
  ∧ save_uploaded_file env [] file = Return temp_pdf
  ∧ ∃ d0 md0 r,
      json_loads env (Py.strip good_response) = Return (JDict d0)
      ∧ d0 !! "analysis_metadata" = Some (JDict md0)
      ∧ (process_file env file []).1 = Return r
      ∧ r !! "file_info" = Some (get_file_info file)
      ∧ (∃ now, r !! "analysis_metadata"
                = Some (JDict (<["processing_timestamp" := JStr now]>
                              (<["file_name" := JStr "ana.pdf"]> md0))))
      ∧ ∀ k, k ≠ "analysis_metadata" → k ≠ "file_info" → r !! k = d0 !! k.
Proof.
  cbv zeta. split; [reflexivity|]. split; [reflexivity|].
  destruct (analyze_try (env (Return good_response)) temp_pdf "ana.pdf"
              ([] ++ [EvSave "ana.pdf"])).1.2 as [d|e] eqn:Hd;
    [|vm_compute in Hd; discriminate].
  destruct (analysed_record_is_the_response (env (Return good_response))
              (pdf "ana.pdf" 182044) [] temp_pdf d)
    as (text & raw & d0 & md0 & r & _ & Hraw & Hd0 & Hmd0 & Hr & Hinfo & Hmd & Hkeys);
    [reflexivity|reflexivity|exact Hd|].
  injection Hraw as <-.
  exists d0, md0, r. split; [exact Hd0|]. split; [exact Hmd0|]. split; [exact Hr|].
  split; [exact Hinfo|]. split; [exact Hmd|exact Hkeys].
Defined.

(** The candidate's name is kept as the model gave it; the name and the
    time the model reported for the file are not. *)
Example model_metadata_is_overwritten :
  match (process_file (env (Return good_response)) (pdf "ana.pdf" 182044) []).1 with
  | Return r =>
      r !! "name" = Some (JStr "Jane Doe")
      ∧ r !! "analysis_metadata"
        = Some (JDict {[ "file_name" := JStr "ana.pdf";
                         "processing_timestamp" := JStr "2024-05-17 09:30:00";
                         "confidence_score" := JInt 9 ]})
  | Raise _ => False
  end.
Proof. vm_compute. split; reflexivity. Qed.

(** X7 at work: three files and room for two temporary files. *)
Lemma temporary_files_are_removed_witness :
  (0 < BATCH_SIZE default_config)%Z ∧ (0 < MAX_CONCURRENT_REQUESTS default_config)%Z
  ∧ fair fifo
  ∧ ∃ results evs,
      process_batch default_config (small_disk 2 (Return good_response)) fifo three_files
        false []
      = Done (results, [] ++ evs)
      ∧ cleanups evs ≡ₚ extractions evs
      ∧ saves evs
        ≡ₚ uf_name <$> filter (λ file, (validate_file file).1 = true) three_files.
Proof.
  split; [simpl; lia|]. split; [simpl; lia|]. split; [apply fifo_fair|].
  apply (temporary_files_are_removed default_config
           (small_disk 2 (Return good_response)) fifo three_files false []);
    [simpl; lia|simpl; lia|apply fifo_fair].
Defined.

(** With room for two temporary files the third save fails: three saves,
    two extractions, two removals. *)
Example third_file_leaves_nothing_behind :
  match process_batch default_config (small_disk 2 (Return good_response)) fifo
          three_files false [] with
  | Done (_, evs) =>
      saves evs = ["ana.pdf"; "bo.pdf"; "CHEN.PDF"]
      ∧ extractions evs = [temp_pdf; temp_pdf]
      ∧ cleanups evs = [temp_pdf; temp_pdf]
  | _ => False
  end.
Proof. vm_compute. repeat split; reflexivity. Qed.

(** X8 at work: a file that is too large, between two that are not. *)
Lemma model_calls_are_bounded_witness :
  let files := [pdf "ana.pdf" 182044; pdf "scan.pdf" 52428800; pdf "CHEN.PDF" 240518] in
  (0 < BATCH_SIZE default_config)%Z ∧ (0 < MAX_CONCURRENT_REQUESTS default_config)%Z
  ∧ fair lifo
  ∧ ∃ results evs,
      process_batch default_config (env (Return good_response)) lifo files true []
      = Done (results, [] ++ evs)
      ∧ length (model_calls evs) ≤ length (extractions evs)
      ∧ length (extractions evs) ≤ length (saves evs)
      ∧ length (saves evs) = length (filter (λ file, (validate_file file).1 = true) files)
      ∧ length (saves evs) ≤ length files.
Proof.
  cbv zeta.
  split; [simpl; lia|]. split; [simpl; lia|]. split; [apply lifo_fair|].
  apply (model_calls_are_bounded default_config (env (Return good_response)) lifo
           [pdf "ana.pdf" 182044; pdf "scan.pdf" 52428800; pdf "CHEN.PDF" 240518] true []);
    [simpl; lia|simpl; lia|apply lifo_fair].
Defined.

(** Two prompts for three files: the file that is too large is neither
    saved nor sent to the model. *)
Example rejected_file_costs_no_model_call :
  match process_batch default_config (env (Return good_response)) lifo
          [pdf "ana.pdf" 182044; pdf "scan.pdf" 52428800; pdf "CHEN.PDF" 240518] true [] with
  | Done (results, evs) =>
      length (model_calls evs) = 2 ∧ saves evs = ["CHEN.PDF"; "ana.pdf"]
      ∧ has_error <$> results = [false; true; false]
  | _ => False
  end.
Proof. vm_compute. repeat split; reflexivity. Qed.

(** X9 at work: the same file under a name in capitals. *)
Lemma validation_ignores_letter_case_witness :
  Py.lower (uf_name (pdf "CHEN.PDF" 240518)) = Py.lower (uf_name (pdf "chen.pdf" 240518))
  ∧ validate_file (pdf "CHEN.PDF" 240518) = validate_file (pdf "chen.pdf" 240518)
  ∧ file_extension "CHEN.PDF" = file_extension "chen.pdf".
Proof.
  split; [reflexivity|].
  apply (validation_ignores_letter_case (pdf "CHEN.PDF" 240518) (pdf "chen.pdf" 240518));
    reflexivity.
Defined.

(** X10 at work: [CHEN.PDF] is saved under a name that ends in [.PDF], and
    read as a PDF. *)
Lemma saved_file_is_read_by_its_extension_witness :
  let env := env (Return good_response) in
  let file := pdf "CHEN.PDF" 240518 in
  let stem := "/srv/app/temp_files/tmpk3v9x_2a" in
  (validate_file file).1 = true
  ∧ named_temporary_file env [] file = Return stem
  ∧ names_a_file stem = true
  ∧ ∃ path,
      save_uploaded_file env [] file = Return path
      ∧ Py.splitext path = (stem, (Py.splitext (uf_name file)).2)
      ∧ file_extension path = file_extension (uf_name file)
      ∧ ∀ w',
          extract_text_attempt env w' path
          = if String.eqb (file_extension (uf_name file)) ".pdf"
            then pdf_extract_text env w' path
            else match docx_paragraphs env w' path with
                 | Return paragraphs => Return (Py.join Py.nl paragraphs)
                 | Raise e => Raise e
                 end.
Proof.
  cbv zeta. split; [reflexivity|]. split; [reflexivity|]. split; [reflexivity|].
  apply (saved_file_is_read_by_its_extension (env (Return good_response))
           (pdf "CHEN.PDF" 240518) [] "/srv/app/temp_files/tmpk3v9x_2a"); reflexivity.
Defined.

(** The extension of the temporary file is that of the upload, capitals
    kept; a path whose file name is dots only has none. *)
Example temporary_path_of_an_upload :
  save_uploaded_file (env (Return good_response)) [] (pdf "CHEN.PDF" 240518)
  = Return "/srv/app/temp_files/tmpk3v9x_2a.PDF"
  ∧ names_a_file "/srv/app/temp_files/" = false
  ∧ Py.splitext "/srv/app/temp_files/.pdf" = ("/srv/app/temp_files/.pdf", "").
Proof. repeat split; reflexivity. Qed.

(** X11 at work: a semaphore without capacity. *)
Lemma settings_decide_the_run_witness :
  let cfg := {| BATCH_SIZE := 10; MAX_CONCURRENT_REQUESTS := 0; RATE_LIMIT_DELAY := 1 |} in
  fair fifo
  ∧ match process_batch cfg (env (Return good_response)) fifo three_files true [] with
    | Fails e =>
        ((MAX_CONCURRENT_REQUESTS cfg < 0)%Z
         ∧ e = Exception "Semaphore initial value must be >= 0")
        ∨ ((0 ≤ MAX_CONCURRENT_REQUESTS cfg)%Z ∧ BATCH_SIZE cfg = 0%Z
           ∧ e = Exception "range() arg 3 must not be zero")
    | Hangs =>
        MAX_CONCURRENT_REQUESTS cfg = 0%Z ∧ (0 < BATCH_SIZE cfg)%Z ∧ three_files ≠ []
    | Done (results, w') =>
        (0 ≤ MAX_CONCURRENT_REQUESTS cfg)%Z
        ∧ (((BATCH_SIZE cfg < 0)%Z ∧ results = [] ∧ w' = [])
           ∨ ((0 < BATCH_SIZE cfg)%Z ∧ length results = length three_files
              ∧ ((0 < MAX_CONCURRENT_REQUESTS cfg)%Z ∨ three_files = [])))
    end.
Proof.
  cbv zeta. split; [apply fifo_fair|].
  apply (settings_decide_the_run
           {| BATCH_SIZE := 10; MAX_CONCURRENT_REQUESTS := 0; RATE_LIMIT_DELAY := 1 |}
           (env (Return good_response)) fifo three_files true []), fifo_fair.
Defined.

(** A negative chunk size: three files go in, nothing comes out, and
    nothing is touched. *)
Example negative_chunk_size_drops_the_files :
  process_batch {| BATCH_SIZE := -1; MAX_CONCURRENT_REQUESTS := 5; RATE_LIMIT_DELAY := 1 |}
    (env (Return good_response)) fifo three_files true []
  = Done ([], []).
Proof. reflexivity. Qed.

(** X12 at work: one failure among three results. *)
Lemma success_rate_bounds_witness :
  let results := [rejected_record; analysed_record; misshapen_record] in
  (Z.of_nat (length results) ≤ 2 ^ 53)%Z
  ∧ match success_rate results with
    | JInt z => z = 0%Z ∧ results = []
    | JFloat x =>
        results ≠ [] ∧ (0 <= x)%Q ∧ (x <= 100)%Q
        ∧ (x = 100%Q ↔ failed_results results = [])
        ∧ (x = 0%Q ↔ successful_results results = [])
    | _ => False
    end.
Proof.
  cbv zeta. split; [simpl; lia|].
  apply (success_rate_bounds [rejected_record; analysed_record; misshapen_record]).
  simpl; lia.
Defined.

(** Two results out of three: the rate is the float nearest to
    [2 / 3], times 100, as the kernel's binary64 numbers compute it. *)
Example two_out_of_three :
  success_rate [rejected_record; analysed_record; misshapen_record]
  = JFloat (Float64.mul (Float64.truediv 2 3) 100)
  ∧ Binary64.same (Binary64.percent 2 3) (Float64.mul (Float64.truediv 2 3) 100) = true
  ∧ success_rate [] = JInt 0.
Proof. vm_compute. repeat split; reflexivity. Qed.

(** X13 at work: three files and room for two temporary files. *)
Lemma saved_counts_cover_the_upload_witness :
  (0 < BATCH_SIZE default_config)%Z ∧ (0 < MAX_CONCURRENT_REQUESTS default_config)%Z
  ∧ fair fifo
  ∧ ∃ results w' metadata,
      process_batch default_config (small_disk 2 (Return good_response)) fifo three_files
        false []
      = Done (results, w')
      ∧ output_data results "2024-05-17T12:00:00" !! "results"
        = Some (JList (JDict <$> results))
      ∧ output_data results "2024-05-17T12:00:00" !! "metadata" = Some (JDict metadata)
      ∧ metadata !! "total_resumes" = Some (JInt (Z.of_nat (length three_files)))
      ∧ metadata !! "successful_analyses"
        = Some (JInt (Z.of_nat (length (successful_results results))))
      ∧ metadata !! "failed_analyses"
        = Some (JInt (Z.of_nat (length (failed_results results))))
      ∧ length (successful_results results) + length (failed_results results)
        = length three_files
      ∧ ((∃ stats, generate_summary_stats results = Return stats)
         ↔ Forall (λ r, has_error r = true ∨ section_is_dict r "experience_scores")
             results)
      ∧ ∀ stats, generate_summary_stats results = Return stats →
          total_files stats = length three_files
          ∧ metadata !! "successful_analyses"
            = Some (JInt (Z.of_nat (successful_analyses stats)))
          ∧ metadata !! "failed_analyses"
            = Some (JInt (Z.of_nat (failed_analyses stats)))
          ∧ successful_analyses stats + failed_analyses stats = length three_files.
Proof.
  split; [simpl; lia|]. split; [simpl; lia|]. split; [apply fifo_fair|].
  apply (saved_counts_cover_the_upload default_config (small_disk 2 (Return good_response))
           fifo three_files false []); [simpl; lia|simpl; lia|apply fifo_fair].
Defined.

(** The summary of that run, two analyses and a failure; and the summary
    of results one of which holds a string for its scores, which
    raises. *)
Example summary_of_a_run :
  match process_batch default_config (small_disk 2 (Return good_response)) fifo
          three_files false [] with
  | Done (results, _) =>
      generate_summary_stats results
      = Return {| total_files := 3; successful_analyses := 2; failed_analyses := 1 |}
  | _ => False
  end
  ∧ generate_summary_stats [rejected_record; analysed_record; unscored_record]
    = Raise (Exception "'str' object has no attribute 'get'").
Proof. split; vm_compute; reflexivity. Qed.

(** The export of a rejected file and an analysis. *)
Example rows_of_a_failure_and_an_analysis :
  match flatten_resume_data keys_of_map noon [rejected_record; analysed_record] with
  | Return [row1; row2] =>
      row1 !! "status" = Some (JStr "Error")
      ∧ row1 !! "file_name" = Some (JStr "scan.pdf")
      ∧ row1 !! "error_message" = Some (JStr "File size exceeds maximum limit of 10MB")
      ∧ row2 !! "status" = Some (JStr "Success")
      ∧ row2 !! "file_name" = Some (JStr "ana.pdf")
      ∧ row2 !! "technical_skills" = Some (JStr "Python, SQL")
      ∧ row2 !! "soft_skills" = Some (JStr "S, Q, L")
      ∧ row2 !! "certifications" = Some (JStr "")
  | _ => False
  end.
Proof. vm_compute. repeat split; reflexivity. Qed.

(** X14 at work: skills that are a string, not a dictionary, and the whole
    export raises; the rows of the first two results are lost with it. *)
Example one_misshapen_result_breaks_the_export :
  flatten_resume_data keys_of_map noon [rejected_record; analysed_record; misshapen_record]
  = Raise (Exception "'str' object has no attribute 'get'")
  ∧ ¬ flattenable misshapen_record.
Proof.
  split; [vm_compute; reflexivity|].
  intros (Hsections & _). rewrite !Forall_cons in Hsections.
  destruct Hsections as (_ & _ & _ & Hskills & _). exact Hskills.
Qed.

(** X15 at work: the two rows of a rejected file and an analysis. *)
Lemma flattened_rows_witness :
  let results := [rejected_record; analysed_record] in
  flatten_resume_data keys_of_map noon results = Return exported_rows
  ∧ length exported_rows = length results
  ∧ ∀ i r, results !! i = Some r →
      ∃ row, exported_rows !! i = Some row
        ∧ match r !! "error" with
          | Some error =>
              has_error r = true
              ∧ row !! "status" = Some (JStr "Error")
              ∧ row !! "error_message" = Some error
              ∧ row !! "file_name"
                = Some (from_option id (JStr "Unknown") (r !! "file_name"))
              ∧ row !! "processing_timestamp" = Some (JStr (noon i))
          | None =>
              has_error r = false
              ∧ row !! "status" = Some (JStr "Success")
              ∧ row !! "error_message" = Some (JStr "")
              ∧ row !! "name" = Some (from_option id (JStr "") (r !! "name"))
              ∧ ∃ md, from_option id (JDict ∅) (r !! "analysis_metadata") = JDict md
                  ∧ row !! "file_name"
                    = Some (from_option id (JStr "") (md !! "file_name"))
                  ∧ row !! "processing_timestamp"
                    = Some (from_option id (JStr "") (md !! "processing_timestamp"))
          end.
Proof.
  cbv zeta. split; [reflexivity|].
  apply (flattened_rows keys_of_map noon [rejected_record; analysed_record] exported_rows).
  reflexivity.
Defined.


(** A model that answers with an error of its own and no file name: the
    row of the file has the status [Error] and the name [Unknown]. *)
Example row_of_an_apologetic_answer :
  match process_batch default_config (env (Return apologetic_response)) fifo
          [pdf "ana.pdf" 182044] false [] with
  | Done (results, _) =>
      match flatten_resume_data keys_of_map noon results with
      | Return [row] =>
          row !! "status" = Some (JStr "Error")
          ∧ row !! "error_message" = Some (JStr "none")
          ∧ row !! "file_name" = Some (JStr "Unknown")
      | _ => False
      end
  | _ => False
  end.
Proof. vm_compute. repeat split; reflexivity. Qed.

(** The export of that run: the model reported [resume_final_v2.pdf] for
    every file and the time [now], and the rows name the uploads and the
    time of the clock. *)
Example rows_of_a_run :
  match process_batch default_config (env (Return good_response)) lifo
          [pdf "ana.pdf" 182044; pdf "scan.pdf" 52428800; pdf "CHEN.PDF" 240518] true [] with
  | Done (results, _) =>
      match flatten_resume_data keys_of_map noon results with
      | Return rows =>
          (λ row : dict, row !! "file_name") <$> rows
          = [Some (JStr "ana.pdf"); Some (JStr "scan.pdf"); Some (JStr "CHEN.PDF")]
          ∧ (λ row : dict, row !! "status") <$> rows
            = [Some (JStr "Success"); Some (JStr "Error"); Some (JStr "Success")]
          ∧ (λ row : dict, row !! "processing_timestamp") <$> rows
            = [Some (JStr "2024-05-17 09:30:00"); Some (JStr "2024-05-17 12:00:00");
               Some (JStr "2024-05-17 09:30:00")]
      | Raise _ => False
      end
  | _ => False
  end.
Proof. vm_compute. repeat split; reflexivity. Qed.

(** X17 at work: a PDF of 182044 bytes is 0.17 megabytes. *)
Lemma file_info_of_an_accepted_file_witness :
  let file := pdf "ana.pdf" 182044 in
  (validate_file file).1 = true ∧ (0 ≤ uf_size file)%Z
  ∧ ∃ info type size_mb,
      get_file_info file = JDict info
      ∧ info !! "name" = Some (JStr (uf_name file))
      ∧ info !! "type" = Some (JStr type) ∧ type ∈ SUPPORTED_FORMATS
      ∧ info !! "size_mb" = Some (JFloat size_mb)
      ∧ (0 <= size_mb)%Q ∧ (size_mb <= inject_Z MAX_FILE_SIZE_MB)%Q.
Proof.
  cbv zeta. split; [reflexivity|]. split; [simpl; lia|].
  apply (file_info_of_an_accepted_file (pdf "ana.pdf" 182044)); [reflexivity|simpl; lia].
Defined.
End Examples.
